(** * cameraInit: per-view intrinsic resolution (AliceVision)

    A shallow embedding of [src/software/pipeline/main_cameraInit.cpp]:
    the configuration checks, the per-view pass (rig detection, sensor
    lookup, 35mm-equivalent estimation, intrinsic construction and
    grouping), the sequential rig validation and the final pass/fail
    policy.

    Data is modelled as the program has it: a C++ [double] is a binary64
    primitive float, a [std::map] is a finite map ([gmap]) iterated in key
    order, [IndexT]/[int]/[size_t] values are integers with the
    conversions written out, and the shared containers written by the
    OpenMP loop are fields of one record that is threaded through the
    pass. *)

From Stdlib Require Import ZArith List Ascii String Bool Lia.
From Stdlib Require Import DecimalString Floats.
From Stdlib Require Uint63.
From stdpp Require Import gmap strings list fin_maps fin_sets list_numbers sorting.

Local Open Scope string_scope.
Local Open Scope Z_scope.

(** ** Standard-library helpers used by the program *)

(** *** [std::stoi] (base 10, no position output)

    [strtol] semantics: leading white space is skipped, one optional sign
    is read, then the longest run of decimal digits; characters after the
    digits are ignored.  [std::invalid_argument] is thrown when no digit
    was read and [std::out_of_range] when the value does not fit an
    [int]; both are reported here as [None]. *)
Module Stoi.

Definition INT_MIN : Z := - 2 ^ 31.
Definition INT_MAX : Z := 2 ^ 31 - 1.

Definition isspace (c : ascii) : bool :=
  let n := N_of_ascii c in
  (n =? 32)%N || ((9 <=? n)%N && (n <=? 13)%N).

Definition digit (c : ascii) : option Z :=
  let n := Z.of_N (N_of_ascii c) in
  if (48 <=? n) && (n <=? 57) then Some (n - 48) else None.

Fixpoint skip_space (l : list ascii) : list ascii :=
  match l with
  | c :: l' => if isspace c then skip_space l' else l
  | [] => []
  end.

(** Value of the longest prefix of digits, and how many were read. *)
Fixpoint read_digits (acc : Z) (count : nat) (l : list ascii) : Z * nat :=
  match l with
  | c :: l' =>
      match digit c with
      | Some d => read_digits (10 * acc + d) (S count) l'
      | None => (acc, count)
      end
  | [] => (acc, count)
  end.

Definition read_sign (l : list ascii) : bool * list ascii :=
  match l with
  | c :: l' =>
      if Ascii.eqb c "-" then (true, l')
      else if Ascii.eqb c "+" then (false, l')
      else (false, l)
  | [] => (false, [])
  end.

Definition stoi (s : string) : option Z :=
  let '(negative, body) := read_sign (skip_space (list_ascii_of_string s)) in
  let '(magnitude, count) := read_digits 0 0 body in
  match count with
  | O => None
  | S _ =>
      let v := if negative then - magnitude else magnitude in
      if (INT_MIN <=? v) && (v <=? INT_MAX) then Some v else None
  end.

(** A string made of decimal digits only (and at least one). *)
Definition purely_numeric (s : string) : bool :=
  match list_ascii_of_string s with
  | [] => false
  | l => forallb (fun c => match digit c with Some _ => true | None => false end) l
  end.

End Stoi.

(** *** [std::to_string] on integers *)
Definition to_string (z : Z) : string :=
  match z with
  | Z0 => "0"
  | Zpos p => NilEmpty.string_of_uint (Pos.to_uint p)
  | Zneg p => String "-" (NilEmpty.string_of_uint (Pos.to_uint p))
  end.

(** *** [boost::filesystem::path] decomposition

    Generic (POSIX) paths with ["/"] as the separator; root names
    ([//host], drive letters) are not modelled.  The functions work on the
    reversed character list of the path. *)
Module Path.

Definition is_separator (c : ascii) : bool := Ascii.eqb c "/".
Definition is_dot (c : ascii) : bool := Ascii.eqb c ".".

(** Characters up to (excluding) the first one satisfying [p], and the
    rest starting at that character. *)
Fixpoint break_at (p : ascii -> bool) (l : list ascii) : list ascii * list ascii :=
  match l with
  | [] => ([], [])
  | c :: l' =>
      if p c then ([], l)
      else let '(a, b) := break_at p l' in (c :: a, b)
  end.

(** Trailing separators of a prefix are dropped, but a lone root ["/"]
    is kept. *)
Fixpoint strip_separators (r : list ascii) : list ascii :=
  match r with
  | c :: ((_ :: _) as r') => if is_separator c then strip_separators r' else r
  | _ => r
  end.

Definition of_rev (r : list ascii) : string := string_of_list_ascii (rev r).
Definition to_rev (p : string) : list ascii := rev (list_ascii_of_string p).

Definition parent_path (p : string) : string :=
  match to_rev p with
  | [] => ""
  | c :: r' =>
      if is_separator c then of_rev (strip_separators r')
      else of_rev (strip_separators (snd (break_at is_separator (c :: r'))))
  end.

Definition filename (p : string) : string :=
  match to_rev p with
  | [] => ""
  | c :: r' =>
      if is_separator c then
        match r' with [] => "/" | _ => "." end
      else of_rev (fst (break_at is_separator (c :: r')))
  end.

Definition stem (p : string) : string :=
  let name := filename p in
  if String.eqb name "." || String.eqb name ".." then name
  else
    match break_at is_dot (to_rev name) with
    | (_, []) => name                 (* no dot: the whole file name *)
    | (_, _ :: before) => of_rev before
    end.

End Path.



(** *** [std::map::emplace]: the entry is inserted only when its key is
    absent, so the first value stored under a key stays. *)
Definition emplace `{Countable K} {V : Type} (k : K) (v : V) (m : gmap K V) : gmap K V :=
  match m !! k with
  | Some _ => m
  | None => <[k := v]> m
  end.

(** *** [boost::split(vec, s, boost::is_any_of(sep))]: one field per
    separator plus one (empty fields are kept). *)
Fixpoint split_fields (sep : ascii) (s : string) : list string :=
  match s with
  | EmptyString => [EmptyString]
  | String c s' =>
      if Ascii.eqb c sep then EmptyString :: split_fields sep s'
      else
        match split_fields sep s' with
        | f :: fs => String c f :: fs
        | [] => [String c EmptyString]
        end
  end.

(** *** [static_cast<double>] of a [std::size_t]: the nearest binary64
    value, ties to even.  Exact up to 2^53, and without wrap-around above
    (the pixel counts of a view are [std::size_t] values, below 2^64). *)
Definition to_double (n : Z) : float := SF2Prim (binary_normalize prec emax n 0 false).

(** *** [ss >> readvalue] for a [double], on a stream holding one field

    The extraction of the GNU C++ library in the "C" locale, with the
    [strtod] of the GNU C library.  The stream's sentry skips leading white
    space; [num_get::_M_extract_float] then accumulates characters while
    they can continue a decimal floating-point number (a sign, digits with
    at most one point, an exponent letter after a digit, the sign of the
    exponent, its digits) and stops at the first character that cannot;
    the accumulated characters are handed to [strtod], and the extraction
    fails when [strtod] does not convert all of them or overflows.  What
    follows the accumulated characters in the stream is never looked at. *)
Module IStream.

Definition is_sign (c : ascii) : bool := Ascii.eqb c "+" || Ascii.eqb c "-".
Definition is_zero (c : ascii) : bool := Ascii.eqb c "0".
Definition is_digit (c : ascii) : bool :=
  match Stoi.digit c with
  | Some _ => true
  | None => false
  end.
Definition is_point (c : ascii) : bool := Ascii.eqb c ".".
Definition is_exponent (c : ascii) : bool := Ascii.eqb c "e" || Ascii.eqb c "E".

(** "First check for sign": the sign accumulated, and what follows it. *)
Definition extract_sign (l : list ascii) : list ascii * list ascii :=
  match l with
  | c :: l' => if is_sign c then ([c], l') else ([], l)
  | [] => ([], [])
  end.

(** "Next, look for leading zeros": all of them are consumed, and one
    ["0"] is accumulated for them. *)
Fixpoint skip_zeros (l : list ascii) : list ascii :=
  match l with
  | c :: l' => if is_zero c then skip_zeros l' else l
  | [] => []
  end.

Definition has_leading_zero (l : list ascii) : bool :=
  match l with
  | c :: _ => is_zero c
  | [] => false
  end.

(** The loop over "acceptable digits for floating point numbers": what it
    accumulates, an exponent letter as ["e"]. *)
Fixpoint extract_digits (found_mantissa found_dec found_sci : bool) (l : list ascii)
  : list ascii :=
  match l with
  | [] => []
  | c :: l' =>
      if is_digit c then c :: extract_digits true found_dec found_sci l'
      else if is_point c && negb found_dec && negb found_sci then
        "."%char :: extract_digits found_mantissa true found_sci l'
      else if is_exponent c && negb found_sci && found_mantissa then
        "e"%char ::
          match l' with
          | c' :: l'' =>
              if is_sign c' then c' :: extract_digits found_mantissa found_dec true l''
              else extract_digits found_mantissa found_dec true l'
          | [] => []
          end
      else []
  end.

(** [_M_extract_float]: the characters accumulated in [__xtrc]. *)
Definition extract_float (l : list ascii) : list ascii :=
  let '(sign, l1) := extract_sign l in
  let found_mantissa := has_leading_zero l1 in
  (sign ++ (if found_mantissa then ["0"%char] else [])
     ++ extract_digits found_mantissa false false (skip_zeros l1))%list.

(** The longest prefix of decimal digits, and the rest. *)
Fixpoint span_digits (l : list ascii) : list ascii * list ascii :=
  match l with
  | c :: l' =>
      if is_digit c then let '(digits, rest) := span_digits l' in (c :: digits, rest)
      else ([], l)
  | [] => ([], [])
  end.

Definition digits_value (digits : list ascii) : Z := fst (Stoi.read_digits 0 0 digits).

(** The binary64 value nearest to [m * 10 ^ e10] (ties to even), [m]
    being positive: an overflow gives an infinity and an underflow a
    subnormal number or zero.  A quotient is rounded from 64 of its bits
    and more, the last one telling whether the division left a remainder.
    The two tests on [e10] only spare the computation of a power of ten
    where the result is known. *)
Definition decimal_to_binary64 (negative : bool) (m e10 : Z) : spec_float :=
  if m <=? 0 then S754_zero negative
  else if 310 <? e10 then S754_infinity negative
  else if e10 <? - (332 + Z.log2 m) then S754_zero negative
  else if 0 <=? e10 then
    let n := m * 10 ^ e10 in
    binary_normalize prec emax (if negative then - n else n) 0 negative
  else
    let d := 10 ^ (- e10) in
    let shift := 65 + Z.log2 d in
    let q := (m * 2 ^ shift) / d in
    let n := 2 * q + (if (m * 2 ^ shift) mod d =? 0 then 0 else 1) in
    binary_normalize prec emax (if negative then - n else n) (- shift - 1) negative.

(** [strtod] on a decimal number: the value and the characters it did not
    convert, or [None] when it converts nothing.  An exponent letter that
    no digit follows is not converted.  (The hexadecimal, infinity and NaN
    forms cannot occur in what [extract_float] accumulates.) *)
Definition strtod (l : list ascii) : option (float * list ascii) :=
  let '(negative, l1) := Stoi.read_sign l in
  let '(integral, l2) := span_digits l1 in
  let '(fraction, l3) :=
    match l2 with
    | c :: l2' => if is_point c then span_digits l2' else ([], l2)
    | [] => ([], [])
    end in
  match (integral ++ fraction)%list with
  | [] => None
  | mantissa =>
      let '(exponent, rest) :=
        match l3 with
        | c :: l3' =>
            if is_exponent c then
              let '(minus, l4) := Stoi.read_sign l3' in
              match span_digits l4 with
              | ([], _) => (0, l3)
              | (digits, l5) =>
                  ((if minus then - digits_value digits else digits_value digits), l5)
              end
            else (0, l3)
        | [] => (0, [])
        end in
      Some (SF2Prim
              (decimal_to_binary64 negative (digits_value mantissa)
                 (exponent - Z.of_nat (length fraction))),
            rest)
  end.

(** [__convert_to_v]: the extraction fails when [strtod] converts nothing,
    stops before the end of the accumulated characters, or returns
    [HUGE_VAL] or [-HUGE_VAL]. *)
Definition convert_to_v (xtrc : list ascii) : option float :=
  match strtod xtrc with
  | Some (v, []) =>
      if (v =? infinity)%float || (v =? neg_infinity)%float then None else Some v
  | _ => None
  end.

(** [ss >> readvalue] on [ss.str(field)]: the value read, or [None] when
    the stream fails (the value is then not used by the program). *)
Definition extract_double (field : string) : option float :=
  convert_to_v (extract_float (Stoi.skip_space (list_ascii_of_string field))).

End IStream.

(** ** Data model *)

(** [sensorDB::Datasheet] *)
Record Datasheet := {
  _brand : string;
  _model : string;
  _sensorSize : float
}.

(** [sfmData::View], as far as the program reads and writes it.  The
    metadata accessors are the view's own: [getMetadataFocalLength] is
    negative when the focal length is absent, and [focalIn35mmMetadata] is
    [Some f] exactly when [hasDigitMetadata("Exif:FocalLengthIn35mmFilm")]
    holds, [f] being [std::stod] of that entry. *)
Record View := {
  getImagePath : string;
  getWidth : Z;
  getHeight : Z;
  getMetadataMake : string;
  getMetadataModel : string;
  getMetadataFocalLength : float;
  focalIn35mmMetadata : option float;
  getIntrinsicId : Z;
  getRigId : Z;
  getSubPoseId : Z;
  getFrameId : Z
}.

Definition setIntrinsicId (id : Z) (v : View) : View :=
  {| getImagePath := getImagePath v; getWidth := getWidth v; getHeight := getHeight v;
     getMetadataMake := getMetadataMake v; getMetadataModel := getMetadataModel v;
     getMetadataFocalLength := getMetadataFocalLength v;
     focalIn35mmMetadata := focalIn35mmMetadata v;
     getIntrinsicId := id;
     getRigId := getRigId v; getSubPoseId := getSubPoseId v; getFrameId := getFrameId v |}.

Definition setRigAndSubPoseId (rig subPose : Z) (v : View) : View :=
  {| getImagePath := getImagePath v; getWidth := getWidth v; getHeight := getHeight v;
     getMetadataMake := getMetadataMake v; getMetadataModel := getMetadataModel v;
     getMetadataFocalLength := getMetadataFocalLength v;
     focalIn35mmMetadata := focalIn35mmMetadata v;
     getIntrinsicId := getIntrinsicId v;
     getRigId := rig; getSubPoseId := subPose; getFrameId := getFrameId v |}.

Definition setFrameId (frame : Z) (v : View) : View :=
  {| getImagePath := getImagePath v; getWidth := getWidth v; getHeight := getHeight v;
     getMetadataMake := getMetadataMake v; getMetadataModel := getMetadataModel v;
     getMetadataFocalLength := getMetadataFocalLength v;
     focalIn35mmMetadata := focalIn35mmMetadata v;
     getIntrinsicId := getIntrinsicId v;
     getRigId := getRigId v; getSubPoseId := getSubPoseId v; getFrameId := frame |}.

(** [camera::EIntrinsicInitMode] *)
Inductive EIntrinsicInitMode :=
| SET_FROM_DEFAULT_FOV
| COMPUTED_FROM_METADATA
| ESTIMATED_FROM_METADATA.

(** [camera::EINTRINSIC]: the camera models of the [--defaultCameraModel]
    option, and the unset value [PINHOLE_CAMERA_START]. *)
Inductive EINTRINSIC :=
| PINHOLE_CAMERA_START
| PINHOLE_CAMERA
| PINHOLE_CAMERA_RADIAL1
| PINHOLE_CAMERA_RADIAL3
| PINHOLE_CAMERA_BROWN
| PINHOLE_CAMERA_FISHEYE
| PINHOLE_CAMERA_FISHEYE1.

(** [camera::Pinhole]: what the program reads and sets through a
    [Pinhole*]. *)
Record Pinhole := {
  getType : EINTRINSIC;
  getFocalLengthPix : float;
  getPrincipalPoint : float * float;
  serialNumber : string;
  getInitializationMode : EIntrinsicInitMode
}.

Definition setInitializationMode (m : EIntrinsicInitMode) (p : Pinhole) : Pinhole :=
  {| getType := getType p; getFocalLengthPix := getFocalLengthPix p;
     getPrincipalPoint := getPrincipalPoint p; serialNumber := serialNumber p;
     getInitializationMode := m |}.

Definition setSerialNumber (sn : string) (p : Pinhole) : Pinhole :=
  {| getType := getType p; getFocalLengthPix := getFocalLengthPix p;
     getPrincipalPoint := getPrincipalPoint p; serialNumber := sn;
     getInitializationMode := getInitializationMode p |}.

(** [camera::IntrinsicBase]: an object of the pinhole family, or one of
    another dynamic type. *)
Inductive IntrinsicBase :=
| PinholeObject (p : Pinhole)
| OtherObject (sn : string).

(** [dynamic_cast<camera::Pinhole*>] of a possibly null pointer. *)
Definition dynamic_cast_Pinhole (ptr : option IntrinsicBase) : option Pinhole :=
  match ptr with
  | Some (PinholeObject p) => Some p
  | _ => None
  end.

(** [sfmData::Rig(nbSubPose)] *)
Record Rig := { getNbSubPoses : nat }.

(** ** Shared state of the parallel loop *)

(** How a write to a shared object is synchronised where it is written. *)
Inductive Guard := Critical | Atomic | Unguarded.

(** The objects declared before the loop and written inside it. *)
Inductive SharedObject :=
| NoMetadataImagePaths
| IntrinsicsSetFromFocal35mm
| UnknownSensors
| UnsureSensors
| DetectedRigs
| CompleteViewCount
| Intrinsics.

Record PassState := {
  noMetadataImagePaths : list string;
  intrinsicsSetFromFocal35mm : gmap string (float * float);
  unknownSensors : gmap (string * string) string;
  unsureSensors : gmap (string * string) (string * Datasheet);
  detectedRigs : gmap Z (gmap Z nat);
  completeViewCount : nat;
  intrinsics : gmap Z IntrinsicBase;
  randState : Z;
  (** image paths for which "Invalid rig structure" was logged *)
  rigWarnings : list string;
  (** every write to a shared object, latest first, with its guard *)
  sharedWrites : list (SharedObject * Guard)
}.

Definition logWrite (o : SharedObject) (g : Guard) (s : PassState) : PassState :=
  {| noMetadataImagePaths := noMetadataImagePaths s;
     intrinsicsSetFromFocal35mm := intrinsicsSetFromFocal35mm s;
     unknownSensors := unknownSensors s; unsureSensors := unsureSensors s;
     detectedRigs := detectedRigs s; completeViewCount := completeViewCount s;
     intrinsics := intrinsics s; randState := randState s;
     rigWarnings := rigWarnings s;
     sharedWrites := (o, g) :: sharedWrites s |}.

Definition set_noMetadataImagePaths (x : list string) (s : PassState) : PassState :=
  {| noMetadataImagePaths := x;
     intrinsicsSetFromFocal35mm := intrinsicsSetFromFocal35mm s;
     unknownSensors := unknownSensors s; unsureSensors := unsureSensors s;
     detectedRigs := detectedRigs s; completeViewCount := completeViewCount s;
     intrinsics := intrinsics s; randState := randState s;
     rigWarnings := rigWarnings s; sharedWrites := sharedWrites s |}.

Definition set_intrinsicsSetFromFocal35mm (x : gmap string (float * float)) (s : PassState) : PassState :=
  {| noMetadataImagePaths := noMetadataImagePaths s;
     intrinsicsSetFromFocal35mm := x;
     unknownSensors := unknownSensors s; unsureSensors := unsureSensors s;
     detectedRigs := detectedRigs s; completeViewCount := completeViewCount s;
     intrinsics := intrinsics s; randState := randState s;
     rigWarnings := rigWarnings s; sharedWrites := sharedWrites s |}.

Definition set_unknownSensors (x : gmap (string * string) string) (s : PassState) : PassState :=
  {| noMetadataImagePaths := noMetadataImagePaths s;
     intrinsicsSetFromFocal35mm := intrinsicsSetFromFocal35mm s;
     unknownSensors := x; unsureSensors := unsureSensors s;
     detectedRigs := detectedRigs s; completeViewCount := completeViewCount s;
     intrinsics := intrinsics s; randState := randState s;
     rigWarnings := rigWarnings s; sharedWrites := sharedWrites s |}.

Definition set_unsureSensors (x : gmap (string * string) (string * Datasheet)) (s : PassState) : PassState :=
  {| noMetadataImagePaths := noMetadataImagePaths s;
     intrinsicsSetFromFocal35mm := intrinsicsSetFromFocal35mm s;
     unknownSensors := unknownSensors s; unsureSensors := x;
     detectedRigs := detectedRigs s; completeViewCount := completeViewCount s;
     intrinsics := intrinsics s; randState := randState s;
     rigWarnings := rigWarnings s; sharedWrites := sharedWrites s |}.

Definition set_detectedRigs (x : gmap Z (gmap Z nat)) (s : PassState) : PassState :=
  {| noMetadataImagePaths := noMetadataImagePaths s;
     intrinsicsSetFromFocal35mm := intrinsicsSetFromFocal35mm s;
     unknownSensors := unknownSensors s; unsureSensors := unsureSensors s;
     detectedRigs := x; completeViewCount := completeViewCount s;
     intrinsics := intrinsics s; randState := randState s;
     rigWarnings := rigWarnings s; sharedWrites := sharedWrites s |}.

Definition set_completeViewCount (x : nat) (s : PassState) : PassState :=
  {| noMetadataImagePaths := noMetadataImagePaths s;
     intrinsicsSetFromFocal35mm := intrinsicsSetFromFocal35mm s;
     unknownSensors := unknownSensors s; unsureSensors := unsureSensors s;
     detectedRigs := detectedRigs s; completeViewCount := x;
     intrinsics := intrinsics s; randState := randState s;
     rigWarnings := rigWarnings s; sharedWrites := sharedWrites s |}.

Definition set_intrinsics (x : gmap Z IntrinsicBase) (s : PassState) : PassState :=
  {| noMetadataImagePaths := noMetadataImagePaths s;
     intrinsicsSetFromFocal35mm := intrinsicsSetFromFocal35mm s;
     unknownSensors := unknownSensors s; unsureSensors := unsureSensors s;
     detectedRigs := detectedRigs s; completeViewCount := completeViewCount s;
     intrinsics := x; randState := randState s;
     rigWarnings := rigWarnings s; sharedWrites := sharedWrites s |}.

Definition set_randState (x : Z) (s : PassState) : PassState :=
  {| noMetadataImagePaths := noMetadataImagePaths s;
     intrinsicsSetFromFocal35mm := intrinsicsSetFromFocal35mm s;
     unknownSensors := unknownSensors s; unsureSensors := unsureSensors s;
     detectedRigs := detectedRigs s; completeViewCount := completeViewCount s;
     intrinsics := intrinsics s; randState := x;
     rigWarnings := rigWarnings s; sharedWrites := sharedWrites s |}.

Definition set_rigWarnings (x : list string) (s : PassState) : PassState :=
  {| noMetadataImagePaths := noMetadataImagePaths s;
     intrinsicsSetFromFocal35mm := intrinsicsSetFromFocal35mm s;
     unknownSensors := unknownSensors s; unsureSensors := unsureSensors s;
     detectedRigs := detectedRigs s; completeViewCount := completeViewCount s;
     intrinsics := intrinsics s; randState := randState s;
     rigWarnings := x; sharedWrites := sharedWrites s |}.

(** The state at the start of the loop: empty containers, the intrinsics
    loaded with the input, and the generator seeded by [std::srand]. *)
Definition initialState (loaded : gmap Z IntrinsicBase) (seeded : Z) : PassState :=
  {| noMetadataImagePaths := [];
     intrinsicsSetFromFocal35mm := ∅;
     unknownSensors := ∅; unsureSensors := ∅;
     detectedRigs := ∅; completeViewCount := 0%nat;
     intrinsics := loaded; randState := seeded;
     rigWarnings := []; sharedWrites := [] |}.

(** ** What the program calls but does not define

    Library and project functions whose code is outside
    [main_cameraInit.cpp], and the platform's integer conversions.  The
    program is modelled over any choice of them. *)
Record Externals := {
  (** [UndefinedIndexT] and the conversions to [IndexT] and from [IndexT]
      to [int] *)
  UndefinedIndexT : Z;
  to_IndexT : Z -> Z;
  IndexT_to_int : Z -> Z;
  (** [sensorDB::getInfo]: the datasheet found for (make, model), if any *)
  getInfo : string -> string -> list Datasheet -> option Datasheet;
  (** [std::hash<std::string>] *)
  std_hash : string -> Z;
  (** [camera::Pinhole::hashValue] *)
  hashValue : Pinhole -> Z;
  (** [sfmDataIO::getViewIntrinsic] *)
  getViewIntrinsic :
    View -> float -> float -> float -> float -> EINTRINSIC -> float -> float -> IntrinsicBase;
  (** [std::srand] and [std::rand] over the generator's hidden state *)
  std_srand : Z -> Z;
  std_rand : Z -> Z * Z;
  (** [ss >> readvalue] on a fresh stream holding the field: the value
      read, or [None] when the stream fails *)
  extractDouble : string -> option float;
  (** [std::pow] of [<cmath>]: the C library's function, which the
      language does not require to be correctly rounded *)
  std_pow : float -> float -> float
}.

(** ** The 35mm-equivalent formulas (lines 448-470) *)

Definition diag24x36 : float := (PrimFloat.sqrt (36 * 36 + 24 * 24))%float.

(** The two local variables after the [if]/[else if] of the block:
    (sensorWidth, focalLength). *)
Definition focal35mmFormulas (ext : Externals)
    (sensorWidth focalLength focalIn35mm imageRatio : float) : float * float :=
  if (sensorWidth =? -1)%float then
    let invRatio := (1 / imageRatio)%float in
    if (0 <? focalLength)%float then
      let sensorDiag := ((focalLength * diag24x36) / focalIn35mm)%float in
      ((sensorDiag * PrimFloat.sqrt (1 / (1 + invRatio * invRatio)))%float, focalLength)
    else
      let sensorWidth' := (diag24x36 * PrimFloat.sqrt (1 / (1 + invRatio * invRatio)))%float in
      (sensorWidth', (sensorWidth' * focalIn35mm / 36)%float)
  else if (0 <? sensorWidth)%float && (focalLength <=? 0)%float then
    let sensorDiag :=
      (PrimFloat.sqrt (std_pow ext sensorWidth 2 + std_pow ext (sensorWidth / imageRatio) 2))%float in
    (sensorWidth, ((sensorDiag * focalIn35mm) / diag24x36)%float)
  else (sensorWidth, focalLength).

(** How the block tells its cases apart: the sensor width is unresolved
    while it holds the initial [-1] and resolved when it is a positive
    width; the focal length is known when it is positive. *)
Definition sensorWidthUnresolved (sensorWidth : float) : Prop :=
  (sensorWidth =? -1)%float = true.
Definition sensorWidthResolved (sensorWidth : float) : Prop :=
  (0 <? sensorWidth)%float = true.
Definition focalLengthKnown (focalLength : float) : Prop :=
  (0 <? focalLength)%float = true.
Definition focalLengthUnknown (focalLength : float) : Prop :=
  (focalLength <=? 0)%float = true.

(** ** Configuration (the parsed command line) *)
Record Config := {
  defaultIntrinsicKMatrix : string;
  defaultCameraModel : EINTRINSIC;
  defaultFocalLengthPixel : float;
  defaultFieldOfView : float;
  groupCameraModel : Z;
  allowIncompleteOutput : bool;
  allowSingleView : bool
}.

(** The result of one loop iteration: the iteration ends, or the program
    calls a member function through a null pointer. *)
Inductive Step (A : Type) :=
| Ok (a : A)
| NullPointerDereference.
Arguments Ok {A} a.
Arguments NullPointerDereference {A}.

(** Local variables of an iteration that reaches "build intrinsic". *)
Record Locals := {
  l_intrinsicId : Z;
  l_sensorWidth : float;
  l_focalLength : float;
  l_hasCameraMetadata : bool;
  l_intrinsicInitMode : EIntrinsicInitMode
}.

(** The local variables the two sensor-width blocks assign, and the state,
    after a block. *)
Record Resolved := {
  r_sensorWidth : float;
  r_focalLength : float;
  r_intrinsicInitMode : EIntrinsicInitMode;
  r_state : PassState
}.

(** An iteration before "build intrinsic": it either ended with
    [continue], or goes on with its locals. *)
Inductive BeforeBuild :=
| Continue (v : View) (s : PassState)
| Build (v : View) (l : Locals) (s : PassState).

Section Program.

Variable ext : Externals.

(** *** [checkIntrinsicStringValidity] (lines 45-74)

    The three output parameters are threaded through; they are written as
    soon as their field is read, also when a later field is rejected. *)
Fixpoint readKMatrixFields (i : nat) (vec_str : list string) (focal ppx ppy : float)
  : bool * (float * float * float) :=
  match vec_str with
  | [] => (true, (focal, ppx, ppy))
  | field :: rest =>
      match extractDouble ext field with
      | None => (false, (focal, ppx, ppy))
      | Some readvalue =>
          readKMatrixFields (S i) rest
            (if (i =? 0)%nat then readvalue else focal)
            (if (i =? 2)%nat then readvalue else ppx)
            (if (i =? 5)%nat then readvalue else ppy)
      end
  end.

Definition checkIntrinsicStringValidity (Kmatrix : string) (focal ppx ppy : float)
  : bool * (float * float * float) :=
  let vec_str := split_fields ";" Kmatrix in
  if negb (length vec_str =? 9)%nat then (false, (focal, ppx, ppy))
  else readKMatrixFields 0 vec_str focal ppx ppy.

(** *** The intrinsic options (lines 272-299): [None] is [EXIT_FAILURE],
    otherwise (defaultFocalLengthPixel, defaultPPx, defaultPPy) as the
    loop will see them. *)
Definition checkIntrinsicOptions (cfg : Config) : option (float * float * float) :=
  let K := defaultIntrinsicKMatrix cfg in
  let noK := String.eqb K "" in
  if negb noK && (0 <? defaultFocalLengthPixel cfg)%float then None
  else if negb noK && (0 <? defaultFieldOfView cfg)%float then None
  else if (0 <? defaultFocalLengthPixel cfg)%float && (0 <? defaultFieldOfView cfg)%float then None
  else if noK then Some (defaultFocalLengthPixel cfg, (-1)%float, (-1)%float)
  else
    match checkIntrinsicStringValidity K (defaultFocalLengthPixel cfg) (-1)%float (-1)%float with
    | (true, r) => Some r
    | (false, _) => None
    end.

(** *** Rig detection (lines 371-390) *)

(** [detectedRigs[rigId][subPoseId]++] *)
Definition incrementDetectedRigs (rig subPose : Z) (m : gmap Z (gmap Z nat))
  : gmap Z (gmap Z nat) :=
  let subPoses := default ∅ (m !! rig) in
  <[rig := <[subPose := S (default 0%nat (subPoses !! subPose))]> subPoses]> m.

Definition detectRig (view : View) (s : PassState) : View * PassState :=
  let parentPath := Path.parent_path (getImagePath view) in
  if String.eqb (Path.stem (Path.parent_path parentPath)) "rig" then
    match Stoi.stoi (Path.stem (getImagePath view)) with
    | None => (view, set_rigWarnings (getImagePath view :: rigWarnings s) s)
    | Some frameId =>
        match Stoi.stoi (Path.stem parentPath) with
        | None => (view, set_rigWarnings (getImagePath view :: rigWarnings s) s)
        | Some subPoseId =>
            let view1 :=
              setRigAndSubPoseId
                (to_IndexT ext (std_hash ext (Path.parent_path parentPath)))
                (to_IndexT ext subPoseId) view in
            let view2 := setFrameId (to_IndexT ext frameId) view1 in
            (view2,
             logWrite DetectedRigs Critical
               (set_detectedRigs
                  (incrementDetectedRigs (getRigId view2)
                     (IndexT_to_int ext (getSubPoseId view2)) (detectedRigs s)) s))
        end
    end
  else (view, s).

(** Modelled from the spec: [View::isPartOfRig] is not in the source file;
    the rig identity of a view is optional, and the view is part of a rig
    when it is defined. *)
Definition isPartOfRig (view : View) : bool :=
  negb (getRigId view =? UndefinedIndexT ext).

(** *** "check if the view intrinsic is already defined" (lines 405-421):
    [true] when the iteration counts the view as complete and ends. *)
Definition intrinsicAlreadyInitialized (view : View) (s : PassState) : bool :=
  if getIntrinsicId view =? UndefinedIndexT ext then false
  else
    match dynamic_cast_Pinhole (intrinsics s !! getIntrinsicId view) with
    | Some intrinsic => (0 <? getFocalLengthPix intrinsic)%float
    | None => false
    end.

(** *** "try to find in the sensor database" (lines 426-445) *)
Definition findInSensorDatabase (sensorDatabase : list Datasheet) (view : View)
    (focalLength sensorWidth : float) (intrinsicInitMode : EIntrinsicInitMode)
    (s : PassState) : Resolved :=
  let make := getMetadataMake view in
  let model := getMetadataModel view in
  let hasCameraMetadata := negb (String.eqb make "") || negb (String.eqb model "") in
  let unchanged :=
    {| r_sensorWidth := sensorWidth; r_focalLength := focalLength;
       r_intrinsicInitMode := intrinsicInitMode; r_state := s |} in
  if hasCameraMetadata then
    match getInfo ext make model sensorDatabase with
    | Some datasheet =>
        let s1 :=
          if negb (String.eqb (_model datasheet) model) then
            logWrite UnsureSensors Unguarded
              (set_unsureSensors
                 (emplace (make, model) (getImagePath view, datasheet) (unsureSensors s)) s)
          else s in
        {| r_sensorWidth := _sensorSize datasheet;
           r_focalLength := focalLength;
           r_intrinsicInitMode :=
             if (0 <? focalLength)%float then COMPUTED_FROM_METADATA else intrinsicInitMode;
           r_state := s1 |}
    | None => unchanged
    end
  else unchanged.

(** *** "try to find / compute with 'FocalLengthIn35mmFilm' metadata"
    (lines 448-474) *)
Definition estimateFromFocal35mm (view : View)
    (focalLength sensorWidth : float) (intrinsicInitMode : EIntrinsicInitMode)
    (s : PassState) : Resolved :=
  match focalIn35mmMetadata view with
  | Some focalIn35mm =>
      let imageRatio := (to_double (getWidth view) / to_double (getHeight view))%float in
      let '(sensorWidth', focalLength') :=
        focal35mmFormulas ext sensorWidth focalLength focalIn35mm imageRatio in
      {| r_sensorWidth := sensorWidth';
         r_focalLength := focalLength';
         r_intrinsicInitMode := ESTIMATED_FROM_METADATA;
         r_state :=
           logWrite IntrinsicsSetFromFocal35mm Unguarded
             (set_intrinsicsSetFromFocal35mm
                (emplace (getImagePath view) (sensorWidth', focalLength')
                   (intrinsicsSetFromFocal35mm s)) s) |}
  | None =>
      {| r_sensorWidth := sensorWidth; r_focalLength := focalLength;
         r_intrinsicInitMode := intrinsicInitMode; r_state := s |}
  end.

(** *** The iteration up to "build intrinsic" (lines 369-498) *)
Definition beforeBuild (cfg : Config) (sensorDatabase : list Datasheet)
    (view0 : View) (s0 : PassState) : BeforeBuild :=
  let '(view, s) := detectRig view0 s0 in
  let intrinsicId := getIntrinsicId view in
  let make := getMetadataMake view in
  let model := getMetadataModel view in
  let hasCameraMetadata := negb (String.eqb make "") || negb (String.eqb model "") in
  if intrinsicAlreadyInitialized view s then
    Continue view
      (logWrite CompleteViewCount Atomic (set_completeViewCount (S (completeViewCount s)) s))
  else
    let found :=
      findInSensorDatabase sensorDatabase view (getMetadataFocalLength view) (-1)%float
        SET_FROM_DEFAULT_FOV s in
    let estimated :=
      estimateFromFocal35mm view (r_focalLength found) (r_sensorWidth found)
        (r_intrinsicInitMode found) (r_state found) in
    let sensorWidth := r_sensorWidth estimated in
    let s2 := r_state estimated in
    let locals :=
      {| l_intrinsicId := intrinsicId; l_sensorWidth := sensorWidth;
         l_focalLength := r_focalLength estimated;
         l_hasCameraMetadata := hasCameraMetadata;
         l_intrinsicInitMode := r_intrinsicInitMode estimated |} in
    if (sensorWidth =? -1)%float then
      let s3 :=
        if hasCameraMetadata then
          logWrite UnknownSensors Critical
            (set_unknownSensors
               (emplace (make, model) (getImagePath view) (unknownSensors s2)) s2)
        else
          logWrite NoMetadataImagePaths Critical
            (set_noMetadataImagePaths (noMetadataImagePaths s2 ++ [getImagePath view]) s2) in
      if allowIncompleteOutput cfg then
        Continue (setIntrinsicId (UndefinedIndexT ext) view) s3
      else Build view locals s3
    else Build view locals s2.

(** *** "build intrinsic" to the end of the iteration (lines 500-544) *)
Definition buildIntrinsic (cfg : Config) (defaults : float * float * float)
    (view : View) (l : Locals) (s : PassState) : Step (View * PassState) :=
  let '(defaultFocalLengthPixel, defaultPPx, defaultPPy) := defaults in
  let intrinsicBase :=
    getViewIntrinsic ext view (l_focalLength l) (l_sensorWidth l) defaultFocalLengthPixel
      (defaultFieldOfView cfg) (defaultCameraModel cfg) defaultPPx defaultPPy in
  match dynamic_cast_Pinhole (Some intrinsicBase) with
  | None => NullPointerDereference      (* intrinsic->setInitializationMode(...) *)
  | Some intrinsic0 =>
      let intrinsic1 := setInitializationMode (l_intrinsicInitMode l) intrinsic0 in
      let s1 :=
        if (0 <? getFocalLengthPix intrinsic1)%float then
          logWrite CompleteViewCount Atomic
            (set_completeViewCount (S (completeViewCount s)) s)
        else s in
      let intrinsic2 :=
        if negb (l_hasCameraMetadata l) then
          let intrinsic' :=
            if groupCameraModel cfg =? 2 then
              setSerialNumber (Path.parent_path (getImagePath view)) intrinsic1
            else intrinsic1 in
          if isPartOfRig view then
            setSerialNumber
              ("no_metadata_rig_" +:+ to_string (getRigId view) +:+ "_"
                 +:+ to_string (getSubPoseId view)) intrinsic'
          else intrinsic'
        else intrinsic1 in
      let intrinsicId1 :=
        if l_intrinsicId l =? UndefinedIndexT ext then to_IndexT ext (hashValue ext intrinsic2)
        else l_intrinsicId l in
      let '(intrinsicId, s2) :=
        if groupCameraModel cfg =? 0 then
          let '(r, next) := std_rand ext (randState s1) in
          (to_IndexT ext r, set_randState next s1)
        else (intrinsicId1, s1) in
      Ok (setIntrinsicId intrinsicId view,
          logWrite Intrinsics Critical
            (set_intrinsics (emplace intrinsicId (PinholeObject intrinsic2) (intrinsics s2)) s2))
  end.

(** *** One iteration of the loop "create missing intrinsics" *)
Definition processView (cfg : Config) (defaults : float * float * float)
    (sensorDatabase : list Datasheet) (view : View) (s : PassState)
  : Step (View * PassState) :=
  match beforeBuild cfg sensorDatabase view s with
  | Continue view' s' => Ok (view', s')
  | Build view' l s' => buildIntrinsic cfg defaults view' l s'
  end.

(** *** The loop, run over the views in one order of execution *)
Fixpoint processViews (cfg : Config) (defaults : float * float * float)
    (sensorDatabase : list Datasheet) (views : list View) (s : PassState)
  : Step (list View * PassState) :=
  match views with
  | [] => Ok ([], s)
  | view :: rest =>
      match processView cfg defaults sensorDatabase view s with
      | NullPointerDereference => NullPointerDereference
      | Ok (view', s') =>
          match processViews cfg defaults sensorDatabase rest s' with
          | NullPointerDereference => NullPointerDereference
          | Ok (rest', s'') => Ok (view' :: rest', s'')
          end
      end
  end.

End Program.

(** ** After the loop *)

(** The entries of a [std::map] with integer keys, in iteration order. *)
Definition key_le {A : Type} (a b : Z * A) : Prop := a.1 ≤ b.1.

#[global] Instance key_le_dec {A : Type} (a b : Z * A) : Decision (key_le a b) :=
  decide (a.1 ≤ b.1).

Definition in_key_order {A : Type} (m : gmap Z A) : list (Z * A) :=
  merge_sort key_le (map_to_list m).

(** Conversion of an [int] to [std::size_t], as in the comparison of a
    sub-pose index with [nbSubPose]. *)
Definition to_size_t (k : Z) : Z := k `mod` 2 ^ 64.

Inductive RigError :=
| WrongSubPoseId
| WrongNbPoses.

(** *** "create detected rigs structures" (lines 548-575) *)

(** The inner [for]: the first failing sub-pose decides the error. *)
Fixpoint checkSubPoses (nbSubPose nbPoses : nat) (subPoses : list (Z * nat))
  : option RigError :=
  match subPoses with
  | [] => None
  | (subPoseId, nbPose) :: rest =>
      if (Z.of_nat nbSubPose <=? to_size_t subPoseId) || (subPoseId <? 0) then
        Some WrongSubPoseId
      else if negb (nbPose =? nbPoses)%nat then Some WrongNbPoses
      else checkSubPoses nbSubPose nbPoses rest
  end.

(** [nbPoses]: the count stored at [begin()]. *)
Definition firstNbPoses (subPoses : gmap Z nat) : nat :=
  match in_key_order subPoses with
  | (_, nbPose) :: _ => nbPose
  | [] => 0%nat
  end.

Definition checkRig (subPoses : gmap Z nat) : option RigError :=
  checkSubPoses (size subPoses) (firstNbPoses subPoses) (in_key_order subPoses).

(** The outer [for]: the run stops at the first rig that fails. *)
Fixpoint createRigsFrom (detected : list (Z * gmap Z nat)) (rigs : gmap Z Rig)
  : RigError + gmap Z Rig :=
  match detected with
  | [] => inr rigs
  | (rigId, subPoses) :: rest =>
      match checkRig subPoses with
      | Some e => inl e
      | None => createRigsFrom rest (emplace rigId {| getNbSubPoses := size subPoses |} rigs)
      end
  end.

Definition createRigs (detected : gmap Z (gmap Z nat)) (rigs : gmap Z Rig)
  : RigError + gmap Z Rig :=
  createRigsFrom (in_key_order detected) rigs.

(** *** The exit status of the run *)

Inductive Failure :=
| InvalidConfiguration
| InvalidSensorDatabase
| NoInputViews
| InvalidRigStructure (e : RigError)
| UnknownSensor
| InsufficientCompleteViews
| SaveFailed.

(** [sfmData::SfMData]: views (in the order the loop visits them),
    intrinsics and rigs. *)
Record SfMData := {
  getViews : list View;
  getIntrinsics : gmap Z IntrinsicBase;
  getRigs : gmap Z Rig
}.

Inductive Exit :=
| EXIT_SUCCESS (saved : SfMData)
| EXIT_FAILURE (why : Failure)
| UndefinedBehaviour.

(** *** The checks between the loop and [sfmDataIO::Save]
    (lines 600-616 and 631-636): the reason to stop, if any. *)
Definition passFailPolicy (cfg : Config) (s : PassState) : option Failure :=
  if negb (size (unknownSensors s) =? 0)%nat && negb (allowIncompleteOutput cfg) then
    Some UnknownSensor
  else if negb (allowIncompleteOutput cfg)
          && ((completeViewCount s <? 1)%nat
              || ((completeViewCount s <? 2)%nat && negb (allowSingleView cfg))) then
    Some InsufficientCompleteViews
  else None.

Section Main.

Variable ext : Externals.

(** *** [main] from the intrinsic options on (lines 272-651).

    [sensorDatabase] is [None] when [parseDatabase] fails, [input] is
    [None] when the input yields no scene, [now] is [std::time(0)] and
    [saveOk] is the result of [sfmDataIO::Save]. *)
Definition main (cfg : Config) (sensorDatabase : option (list Datasheet))
    (input : option SfMData) (now : Z) (saveOk : bool) : Exit :=
  match checkIntrinsicOptions ext cfg with
  | None => EXIT_FAILURE InvalidConfiguration
  | Some defaults =>
      match sensorDatabase with
      | None => EXIT_FAILURE InvalidSensorDatabase
      | Some database =>
          match input with
          | None => EXIT_FAILURE NoInputViews
          | Some sfmData =>
              match getViews sfmData with
              | [] => EXIT_FAILURE NoInputViews
              | views =>
                  match processViews ext cfg defaults database views
                          (initialState (getIntrinsics sfmData) (std_srand ext now)) with
                  | NullPointerDereference => UndefinedBehaviour
                  | Ok (views', s) =>
                      match createRigs (detectedRigs s) (getRigs sfmData) with
                      | inl e => EXIT_FAILURE (InvalidRigStructure e)
                      | inr rigs =>
                          match passFailPolicy cfg s with
                          | Some why => EXIT_FAILURE why
                          | None =>
                              if saveOk then
                                EXIT_SUCCESS
                                  {| getViews := views'; getIntrinsics := intrinsics s;
                                     getRigs := rigs |}
                              else EXIT_FAILURE SaveFailed
                          end
                      end
                  end
              end
          end
      end
  end.

End Main.

(** ** The intrinsic builder, from the specification *)

Section ViewIntrinsic.

(** The camera model used when none is given, and the focal length in
    pixels derived from a field of view in degrees. *)
Variable fixedDefaultModel : EINTRINSIC.
Variable focalFromFieldOfView : float -> View -> float.

(** Modelled from the spec: [sfmDataIO::getViewIntrinsic] is not in the
    source file.  Section 4.3, step 3: "construct an Intrinsic: choose
    camera model (default override or a fixed default family), compute
    focal length in pixels as metadataFocalLength(mm) * imageWidthPixels /
    sensorWidth(mm) when not already overridden by a default, set
    principal point to image center unless overridden"; section 3: an
    Intrinsic has a camera-model tag, a focal length in pixels, a
    principal point and a serial number, which is what the pinhole family
    exposes (section 9). *)
Definition getViewIntrinsic_spec (view : View) (focalLength sensorWidth : float)
    (defaultFocalLengthPixel defaultFieldOfView : float) (defaultCameraModel : EINTRINSIC)
    (defaultPPx defaultPPy : float) : IntrinsicBase :=
  PinholeObject
    {| getType :=
         match defaultCameraModel with
         | PINHOLE_CAMERA_START => fixedDefaultModel
         | m => m
         end;
       getFocalLengthPix :=
         if (0 <? defaultFocalLengthPixel)%float then defaultFocalLengthPixel
         else if (0 <? defaultFieldOfView)%float then
                focalFromFieldOfView defaultFieldOfView view
         else (focalLength * to_double (getWidth view) / sensorWidth)%float;
       getPrincipalPoint :=
         if (0 <? defaultPPx)%float && (0 <? defaultPPy)%float then (defaultPPx, defaultPPy)
         else ((to_double (getWidth view) / 2)%float, (to_double (getHeight view) / 2)%float);
       serialNumber := "";
       getInitializationMode := SET_FROM_DEFAULT_FOV |}.

End ViewIntrinsic.

(** ** A concrete platform, to run the program on examples

    32-bit [IndexT] and [int], the sample [rand]/[srand] of the C standard
    (ISO C 7.22.2.2), a case-insensitive sensor lookup, a polynomial
    string hash, the stream extraction of the GNU library ([IStream]) and
    a [pow] that squares exactly. *)
Module Reference.

Definition to_uint32 (z : Z) : Z := z `mod` 2 ^ 32.
Definition to_int32 (z : Z) : Z := (z + 2 ^ 31) `mod` 2 ^ 32 - 2 ^ 31.

Definition RAND_MAX : Z := 32767.
Definition srand (seed : Z) : Z := seed `mod` 2 ^ 64.
Definition rand (next : Z) : Z * Z :=
  let next' := (next * 1103515245 + 12345) `mod` 2 ^ 64 in
  ((next' `div` 65536) `mod` 32768, next').

Definition lower (c : ascii) : ascii :=
  let n := N_of_ascii c in
  if (65 <=? n)%N && (n <=? 90)%N then ascii_of_N (n + 32) else c.

Fixpoint lowercase (s : string) : string :=
  match s with
  | EmptyString => EmptyString
  | String c s' => String (lower c) (lowercase s')
  end.

Definition sameName (a b : string) : bool := String.eqb (lowercase a) (lowercase b).

Definition findDatasheet (make model : string) (db : list Datasheet) : option Datasheet :=
  List.find (fun ds => sameName (_brand ds) make && sameName (_model ds) model) db.

Fixpoint hash_from (h : Z) (s : string) : Z :=
  match s with
  | EmptyString => h
  | String c s' => hash_from ((31 * h + Z.of_N (N_of_ascii c)) `mod` 2 ^ 64) s'
  end.

Definition stringHash (s : string) : Z := hash_from 7 s.

Definition typeIndex (t : EINTRINSIC) : Z :=
  match t with
  | PINHOLE_CAMERA_START => 0
  | PINHOLE_CAMERA => 1
  | PINHOLE_CAMERA_RADIAL1 => 2
  | PINHOLE_CAMERA_RADIAL3 => 3
  | PINHOLE_CAMERA_BROWN => 4
  | PINHOLE_CAMERA_FISHEYE => 5
  | PINHOLE_CAMERA_FISHEYE1 => 6
  end.

Definition mantissa (f : float) : Z :=
  Uint63.to_Z (PrimFloat.normfr_mantissa (fst (PrimFloat.frshiftexp f))).

Definition pinholeHash (p : Pinhole) : Z :=
  stringHash
    (to_string (typeIndex (getType p)) +:+ ":"
     +:+ to_string (mantissa (getFocalLengthPix p)) +:+ ":"
     +:+ to_string (mantissa (fst (getPrincipalPoint p))) +:+ ":"
     +:+ to_string (mantissa (snd (getPrincipalPoint p))) +:+ ":"
     +:+ serialNumber p).

(** [std::pow] at the program's only call of it, [std::pow(x, 2)], as
    GCC expands that call when it optimises: the product [x * x], which is
    the correctly rounded square.  Other exponents are not modelled (NaN);
    the program has none. *)
Definition pow (x y : float) : float :=
  if (y =? 2)%float then (x * x)%float else nan.

(** No example sets a default field of view. *)
Definition noFieldOfView (fov : float) (view : View) : float := (-1)%float.

Definition platform : Externals :=
  {| UndefinedIndexT := 2 ^ 32 - 1;
     to_IndexT := to_uint32;
     IndexT_to_int := to_int32;
     getInfo := findDatasheet;
     std_hash := stringHash;
     hashValue := pinholeHash;
     getViewIntrinsic := getViewIntrinsic_spec PINHOLE_CAMERA_RADIAL3 noFieldOfView;
     std_srand := srand;
     std_rand := rand;
     extractDouble := IStream.extract_double;
     std_pow := pow |}.

(** Example views and sensor table. *)
Definition photo (path make model : string) (focal : float) (focal35 : option float) : View :=
  {| getImagePath := path; getWidth := 5760; getHeight := 3840;
     getMetadataMake := make; getMetadataModel := model;
     getMetadataFocalLength := focal; focalIn35mmMetadata := focal35;
     getIntrinsicId := 2 ^ 32 - 1; getRigId := 2 ^ 32 - 1;
     getSubPoseId := 2 ^ 32 - 1; getFrameId := 2 ^ 32 - 1 |}.

Definition sensorTable : list Datasheet :=
  [ {| _brand := "Canon"; _model := "EOS 5D"; _sensorSize := 36%float |} ].

Definition options (group : Z) (incomplete single : bool) : Config :=
  {| defaultIntrinsicKMatrix := "";
     defaultCameraModel := PINHOLE_CAMERA_START;
     defaultFocalLengthPixel := (-1)%float;
     defaultFieldOfView := (-1)%float;
     groupCameraModel := group;
     allowIncompleteOutput := incomplete;
     allowSingleView := single |}.

Definition noDefaults : float * float * float := ((-1)%float, (-1)%float, (-1)%float).

Definition start : PassState := initialState ∅ (srand 0).

End Reference.

(** ** Readings of the rig convention *)

(** The convention [.../rig/<subPoseId>/<frameId>.<ext>] as the
    specification words it: the directory two levels above the image is
    literally named "rig", and the name of the image's directory and the
    stem of the file are purely numeric. *)
Definition followsRigConvention (path : string) : bool :=
  let parentPath := Path.parent_path path in
  String.eqb (Path.filename (Path.parent_path parentPath)) "rig"
  && Stoi.purely_numeric (Path.filename parentPath)
  && Stoi.purely_numeric (Path.stem path).

(** The count stored for (rig, sub-pose), 0 when there is none. *)
Definition observations (rig subPose : Z) (m : gmap Z (gmap Z nat)) : nat :=
  default 0%nat (default ∅ (m !! rig) !! subPose).

(** ** Readings of the rig invariant *)

(** The observed sub-pose indices are exactly 0 .. nbSubPose-1, where
    nbSubPose is the number of distinct indices observed. *)
Definition subPosesAreSequential (subPoses : gmap Z nat) : Prop :=
  dom subPoses = (list_to_set (seqZ 0 (Z.of_nat (size subPoses))) : gset Z).

(** Every sub-pose was observed as often as the first one. *)
Definition sameNbPoses (subPoses : gmap Z nat) : Prop :=
  forall subPoseId nbPose,
    subPoses !! subPoseId = Some nbPose -> nbPose = firstNbPoses subPoses.

(** The keys of a [std::map<int, std::size_t>] are [int] values. *)
Definition intKeys (subPoses : gmap Z nat) : Prop :=
  map_Forall (fun subPoseId _ => Stoi.INT_MIN <= subPoseId <= Stoi.INT_MAX) subPoses.

(** [getRigs().emplace(rigId, sfmData::Rig(nbSubPose))] *)
Definition addRig (rigs : gmap Z Rig) (entry : Z * gmap Z nat) : gmap Z Rig :=
  emplace entry.1 {| getNbSubPoses := size entry.2 |} rigs.

(** The value of an iteration that ended, if it did. *)
Definition completed {A : Type} (r : Step A) : option A :=
  match r with
  | Ok a => Some a
  | NullPointerDereference => None
  end.

(** Whether the iteration reaches "build intrinsic". *)
Definition reachesBuild (b : BeforeBuild) : bool :=
  match b with
  | Build _ _ _ => true
  | Continue _ _ => false
  end.

(** ** A generator of two values, for the pigeonhole example *)
Definition coin : Externals :=
  {| UndefinedIndexT := UndefinedIndexT Reference.platform;
     to_IndexT := to_IndexT Reference.platform;
     IndexT_to_int := IndexT_to_int Reference.platform;
     getInfo := getInfo Reference.platform;
     std_hash := std_hash Reference.platform;
     hashValue := hashValue Reference.platform;
     getViewIntrinsic := getViewIntrinsic Reference.platform;
     std_srand := fun seed => seed;
     std_rand := fun next => (next `mod` 2, next + 1);
     extractDouble := extractDouble Reference.platform;
     std_pow := std_pow Reference.platform |}.


(** ** Guards of the writes of an iteration *)

(** A write is either synchronised, or one of the two writes the loop
    leaves outside a critical section. *)
Definition guardedExceptTwo (w : SharedObject * Guard) : Prop :=
  w.2 = Unguarded -> w.1 = UnsureSensors \/ w.1 = IntrinsicsSetFromFocal35mm.

(** [s'] has the writes of [s] and, before them, only such writes. *)
Definition appends (s s' : PassState) : Prop :=
  exists new, sharedWrites s' = (new ++ sharedWrites s)%list /\ Forall guardedExceptTwo new.

(** ** [listFiles] (lines 83-119) *)

(** [boost::filesystem::extension]: the file name from its last dot on,
    empty when the name has no dot or is ["."] or [".."]. *)
Definition extension (p : string) : string :=
  let name := Path.filename p in
  if String.eqb name "." || String.eqb name ".." then ""
  else
    match Path.break_at Path.is_dot (Path.to_rev name) with
    | (_, []) => ""
    | (after, dot :: _) => Path.of_rev (after ++ [dot])%list
    end.

(** [::tolower] in the "C" locale, and [std::transform] of it over a
    string. *)
Definition tolower (c : ascii) : ascii :=
  let n := N_of_ascii c in
  if (65 <=? n)%N && (n <=? 90)%N then ascii_of_N (n + 32) else c.

Fixpoint tolower_string (s : string) : string :=
  match s with
  | EmptyString => EmptyString
  | String c s' => String (tolower c) (tolower_string s')
  end.

(** What a path is on disk: a regular file, a directory with its entries
    in the order [directory_iterator] yields them, or neither (a missing
    path, a device, ...).  Every node carries its path. *)
#[warnings="-register-all"]
Inductive FsNode :=
| RegularFile (path : string)
| Directory (path : string) (entries : list FsNode)
| OtherNode (path : string).

(** The [for] over [extensions]: the lowered extension of the file equals
    one of them. *)
Definition hasListedExtension (extensions : list string) (path : string) : bool :=
  existsb (String.eqb (tolower_string (extension path))) extensions.

(** The function returns its [bool] and the vector [resources] after the
    call.  A regular file whose extension is not listed falls through to
    the error message and [false], like a path that is neither file nor
    directory. *)
Fixpoint listFiles (folderOrFile : FsNode) (extensions : list string)
    (resources : list string) : bool * list string :=
  match folderOrFile with
  | RegularFile path =>
      if hasListedExtension extensions path then (true, (resources ++ [path])%list)
      else (false, resources)
  | Directory _ allFiles =>
      (fix visit (files : list FsNode) (hasFile : bool) (resources : list string)
         : bool * list string :=
         match files with
         | [] => (hasFile, resources)
         | filePath :: rest =>
             let '(found, resources') := listFiles filePath extensions resources in
             visit rest (if found then true else hasFile) resources'
         end) allFiles false resources
  | OtherNode _ => (false, resources)
  end.

(** The regular files below a node, in the order of the traversal. *)
Fixpoint regularFiles (node : FsNode) : list string :=
  match node with
  | RegularFile path => [path]
  | Directory _ entries =>
      (fix all (files : list FsNode) : list string :=
         match files with
         | [] => []
         | file :: rest => (regularFiles file ++ all rest)%list
         end) entries
  | OtherNode _ => []
  end.

(** The extensions [main] asks for. *)
Definition imageExtensions : list string := [".jpg"; ".jpeg"; ".tif"; ".tiff"; ".exr"].

(** A character is an upper-case letter of the "C" locale. *)
Definition isupper (c : ascii) : bool :=
  let n := N_of_ascii c in (65 <=? n)%N && (n <=? 90)%N.

Fixpoint hasUpper (s : string) : bool :=
  match s with
  | EmptyString => false
  | String c s' => isupper c || hasUpper s'
  end.

(** ** The input and output options (lines 223-270) *)

(** The queries and the one action on the file system. *)
Record FileSystem := {
  fs_exists : string -> bool;
  fs_is_directory : string -> bool;
  fs_is_regular_file : string -> bool;
  fs_create_directory : string -> bool
}.

(** [true] when [main] goes on to the intrinsic options, [false] when it
    returns [EXIT_FAILURE]. *)
Definition checkInputOptions (fs : FileSystem) (sfmFilePath imageFolder outputFilePath : string)
  : bool :=
  let noFolder := String.eqb imageFolder "" in
  let noFile := String.eqb sfmFilePath "" in
  if noFolder && noFile then false
  else if negb noFolder && negb noFile then false
  else if negb noFolder && negb (fs_exists fs imageFolder)
          && negb (fs_is_directory fs imageFolder) then false
  else if negb noFile && negb (fs_exists fs sfmFilePath)
          && negb (fs_is_regular_file fs sfmFilePath) then false
  else if String.eqb outputFilePath "" then false
  else
    let outputFolderPart := Path.parent_path outputFilePath in
    if negb (String.eqb outputFolderPart "") && negb (fs_exists fs outputFolderPart) then
      fs_create_directory fs outputFolderPart
    else true.

(** ** Readings used by the properties of the loop *)

(** Everything of a view but its intrinsic identity and its rig, sub-pose
    and frame. *)
Definition sameImage (v v' : View) : Prop :=
  getImagePath v' = getImagePath v
  /\ getWidth v' = getWidth v /\ getHeight v' = getHeight v
  /\ getMetadataMake v' = getMetadataMake v /\ getMetadataModel v' = getMetadataModel v
  /\ getMetadataFocalLength v' = getMetadataFocalLength v
  /\ focalIn35mmMetadata v' = focalIn35mmMetadata v.

(** [hasCameraMetadata] of the loop. *)
Definition hasCameraMetadata (view : View) : bool :=
  negb (String.eqb (getMetadataMake view) "") || negb (String.eqb (getMetadataModel view) "").

(** Number of separators in a string. *)
Fixpoint count_char (sep : ascii) (s : string) : nat :=
  match s with
  | EmptyString => 0
  | String c s' => (if Ascii.eqb c sep then 1 else 0) + count_char sep s'
  end.

(** The values of the longest run of leading fields that all read as a
    number. *)
Fixpoint readPrefix (ext : Externals) (fields : list string) : list float :=
  match fields with
  | [] => []
  | field :: rest =>
      match extractDouble ext field with
      | Some value => value :: readPrefix ext rest
      | None => []
      end
  end.

(** The (rig, sub-pose) entry of [detectedRigs] that the rig detection
    increments for a view, if it detects a rig. *)
Definition detectedRigKey (ext : Externals) (view : View) : option (Z * Z) :=
  let parentPath := Path.parent_path (getImagePath view) in
  if String.eqb (Path.stem (Path.parent_path parentPath)) "rig" then
    match Stoi.stoi (Path.stem (getImagePath view)), Stoi.stoi (Path.stem parentPath) with
    | Some _, Some subPoseId =>
        Some (to_IndexT ext (std_hash ext (Path.parent_path parentPath)),
              IndexT_to_int ext (to_IndexT ext subPoseId))
    | _, _ => None
    end
  else None.

(** The serial number the loop leaves in the intrinsic it builds for a
    view, [built] being the one the builder gave it. *)
Definition overriddenSerialNumber (ext : Externals) (cfg : Config) (view : View)
    (built : string) : string :=
  if hasCameraMetadata view then built
  else if isPartOfRig ext view then
         "no_metadata_rig_" +:+ to_string (getRigId view) +:+ "_" +:+ to_string (getSubPoseId view)
  else if groupCameraModel cfg =? 2 then Path.parent_path (getImagePath view)
  else built.

(** ** A sample run of the loop *)
Module Sample.

(** Two frames of sub-pose 0 and one of sub-pose 1 of a rig, without
    camera metadata, and a photograph of a camera of the sensor table. *)
Definition views : list View :=
  [ Reference.photo "/data/rig/0/1.jpg" "" "" (-1)%float None;
    Reference.photo "/data/rig/1/1.jpg" "" "" (-1)%float None;
    Reference.photo "/data/rig/0/2.jpg" "" "" (-1)%float None;
    Reference.photo "/data/a.jpg" "Canon" "EOS 5D" 50%float None ].

(** A scene loaded with one intrinsic of another family. *)
Definition loaded : gmap Z IntrinsicBase := {[ 5 := OtherObject "loaded" ]}.

Definition start : PassState := initialState loaded (Reference.srand 0).

Definition cfg : Config := Reference.options 2 false false.

Definition run : Step (list View * PassState) :=
  processViews Reference.platform cfg Reference.noDefaults Reference.sensorTable views start.

End Sample.

(** ** A sample disk *)
Module Disk.

(** Two directories, [/data] and [/out], and nothing else. *)
Definition isFolder (p : string) : bool := String.eqb p "/data" || String.eqb p "/out".

Definition disk : FileSystem :=
  {| fs_exists := isFolder;
     fs_is_directory := isFolder;
     fs_is_regular_file := fun _ => false;
     fs_create_directory := fun _ => false |}.

End Disk.

(** ** Readings of the diagnostics buckets *)

(** What one view may add to the four buckets: its path to the
    no-metadata list only when it has neither make nor model; an entry
    under its (make, model) in the unknown-sensor and unsure-sensor maps
    only when it has one of them; an entry under its path in the
    35mm-estimation map only when it carries the 35mm-equivalent value. *)
Definition addsOnlyItsOwn (view : View) (s s' : PassState) : Prop :=
  (forall path, path ∈ noMetadataImagePaths s' ->
     path ∈ noMetadataImagePaths s
     \/ (path = getImagePath view /\ hasCameraMetadata view = false))
  /\ (forall key path, unknownSensors s' !! key = Some path ->
        unknownSensors s !! key = Some path
        \/ (key = (getMetadataMake view, getMetadataModel view)
            /\ path = getImagePath view /\ hasCameraMetadata view = true))
  /\ (forall key entry, unsureSensors s' !! key = Some entry ->
        unsureSensors s !! key = Some entry
        \/ (key = (getMetadataMake view, getMetadataModel view)
            /\ entry.1 = getImagePath view /\ hasCameraMetadata view = true
            /\ _model entry.2 ≠ getMetadataModel view))
  /\ (forall key values, intrinsicsSetFromFocal35mm s' !! key = Some values ->
        intrinsicsSetFromFocal35mm s !! key = Some values
        \/ (key = getImagePath view /\ is_Some (focalIn35mmMetadata view))).

(** The intrinsic "build intrinsic" hands to the intrinsics map, [built]
    being the one the builder gave it: the initialization mode of the
    iteration, then the serial-number overrides. *)
Definition groupedIntrinsic (ext : Externals) (cfg : Config) (view : View) (l : Locals)
    (built : Pinhole) : Pinhole :=
  let intrinsic1 := setInitializationMode (l_intrinsicInitMode l) built in
  if negb (l_hasCameraMetadata l) then
    let intrinsic' :=
      if groupCameraModel cfg =? 2 then
        setSerialNumber (Path.parent_path (getImagePath view)) intrinsic1
      else intrinsic1 in
    if isPartOfRig ext view then
      setSerialNumber
        ("no_metadata_rig_" +:+ to_string (getRigId view) +:+ "_"
           +:+ to_string (getSubPoseId view)) intrinsic'
    else intrinsic'
  else intrinsic1.
(** ** Readings of the K-matrix option *)

(** The specification's "valid number": the field, as a whole, is a
    decimal floating-point number (an optional sign, digits with an
    optional point, an optional exponent). *)
Definition validNumber (field : string) : bool :=
  match IStream.strtod (list_ascii_of_string field) with
  | Some (_, []) => true
  | _ => false
  end.

(** A character that cannot be part of a number nor of the white space
    before it. *)
Definition notOfANumber (c : ascii) : bool :=
  negb (IStream.is_digit c || IStream.is_sign c || IStream.is_point c
        || IStream.is_exponent c || Stoi.isspace c).

(** Every detected rig has, after the validation, a record with its
    number of sub-poses. *)
Definition rigsMaterialized (detected : gmap Z (gmap Z nat)) (rigs : gmap Z Rig) : Prop :=
  forall rigId subPoses,
    detected !! rigId = Some subPoses ->
    rigs !! rigId = Some {| getNbSubPoses := size subPoses |}.

(** * Properties *)

(** ** Comparisons of binary64 values *)

Lemma positive_is_not_minus_one (x : float) :
  (0 <? x)%float = true -> (x =? -1)%float = false.
Proof.
  rewrite FloatAxioms.ltb_spec, FloatAxioms.eqb_spec.
  replace (Prim2SF 0%float) with (S754_zero false) by reflexivity.
  replace (Prim2SF (-1)%float) with (S754_finite true 4503599627370496 (-52)) by reflexivity.
  unfold SFltb, SFeqb.
  destruct (Prim2SF x) as [sg | sg | | sg m e]; try destruct sg;
    cbv [SFcompare]; congruence.
Qed.

Lemma nonpositive_is_not_positive (x : float) :
  (x <=? 0)%float = true -> (0 <? x)%float = false.
Proof.
  rewrite FloatAxioms.ltb_spec, FloatAxioms.leb_spec.
  replace (Prim2SF 0%float) with (S754_zero false) by reflexivity.
  unfold SFltb, SFleb.
  destruct (Prim2SF x) as [sg | sg | | sg m e]; try destruct sg;
    cbv [SFcompare]; congruence.
Qed.

(** ** The library models on examples *)

Example stoi_plain : Stoi.stoi "000005" = Some 5.
Proof. reflexivity. Qed.
Example stoi_trailing : Stoi.stoi "2cam" = Some 2.
Proof. reflexivity. Qed.
Example stoi_signed : Stoi.stoi " -7" = Some (-7).
Proof. reflexivity. Qed.
Example stoi_invalid : Stoi.stoi "cam2" = None.
Proof. reflexivity. Qed.
Example stoi_out_of_range : Stoi.stoi "99999999999" = None.
Proof. reflexivity. Qed.

Example parent_path_file : Path.parent_path "/data/rig/2/000005.jpg" = "/data/rig/2".
Proof. reflexivity. Qed.
Example parent_path_twice :
  Path.parent_path (Path.parent_path "/data/rig/2/000005.jpg") = "/data/rig".
Proof. reflexivity. Qed.
Example parent_path_root : Path.parent_path "/a" = "/".
Proof. reflexivity. Qed.
Example parent_path_relative : Path.parent_path "a.jpg" = "".
Proof. reflexivity. Qed.
Example stem_file : Path.stem "/data/rig/2/000005.jpg" = "000005".
Proof. reflexivity. Qed.
Example stem_directory : Path.stem "/data/rig" = "rig".
Proof. reflexivity. Qed.
Example stem_dotted_directory : Path.stem "/data/rig.old" = "rig".
Proof. reflexivity. Qed.
Example to_string_examples : to_string 42 = "42" /\ to_string (-3) = "-3" /\ to_string 0 = "0".
Proof. repeat split. Qed.

(** ** The 35mm-equivalent estimator *)

(** With the 35mm-equivalent value present, the block always marks the
    view as estimated and stores its entry, whatever it computed. *)
Lemma estimateFromFocal35mm_present (ext : Externals) (view : View)
    (focalIn35mm focalLength sensorWidth : float) (mode : EIntrinsicInitMode) (s : PassState) :
  focalIn35mmMetadata view = Some focalIn35mm ->
  let values :=
    focal35mmFormulas ext sensorWidth focalLength focalIn35mm
      (to_double (getWidth view) / to_double (getHeight view))%float in
  estimateFromFocal35mm ext view focalLength sensorWidth mode s =
    {| r_sensorWidth := fst values; r_focalLength := snd values;
       r_intrinsicInitMode := ESTIMATED_FROM_METADATA;
       r_state :=
         logWrite IntrinsicsSetFromFocal35mm Unguarded
           (set_intrinsicsSetFromFocal35mm
              (emplace (getImagePath view) values (intrinsicsSetFromFocal35mm s)) s) |}.
Proof.
  intros Hmeta values. unfold estimateFromFocal35mm. rewrite Hmeta.
  fold values. destruct values as [w f]. reflexivity.
Qed.

(** C1. For a view that carries a 35mm-equivalent focal length, with
    ratio = width / height and D = sqrt(36^2 + 24^2): an unresolved sensor
    width with a known focal length becomes
    (focalLength * D / focal35mm) * sqrt(1 / (1 + (1/ratio)^2)); when both
    are unresolved the sensor width becomes
    D * sqrt(1 / (1 + (1/ratio)^2)) and the focal length
    sensorWidth * focal35mm / 36; a resolved sensor width with an unknown
    focal length gives focalLength =
    sqrt(sensorWidth^2 + (sensorWidth/ratio)^2) * focal35mm / D, the two
    squares being what the library's [std::pow(x, 2)] returns: the
    binary64 product x * x wherever [std::pow] is exact on these two
    squares. *)
Theorem focal35mm_estimation (ext : Externals) (view : View)
    (focalIn35mm focalLength sensorWidth : float) (mode : EIntrinsicInitMode) (s : PassState) :
  focalIn35mmMetadata view = Some focalIn35mm ->
  let ratio := (to_double (getWidth view) / to_double (getHeight view))%float in
  let D := (PrimFloat.sqrt (36 * 36 + 24 * 24))%float in
  let k := (PrimFloat.sqrt (1 / (1 + (1 / ratio) * (1 / ratio))))%float in
  let after := estimateFromFocal35mm ext view focalLength sensorWidth mode s in
  (sensorWidthUnresolved sensorWidth -> focalLengthKnown focalLength ->
     r_sensorWidth after = ((focalLength * D / focalIn35mm) * k)%float
     /\ r_focalLength after = focalLength)
  /\ (sensorWidthUnresolved sensorWidth -> focalLengthUnknown focalLength ->
     r_sensorWidth after = (D * k)%float
     /\ r_focalLength after = (r_sensorWidth after * focalIn35mm / 36)%float)
  /\ (sensorWidthResolved sensorWidth -> focalLengthUnknown focalLength ->
     r_sensorWidth after = sensorWidth
     /\ r_focalLength after =
          (PrimFloat.sqrt (std_pow ext sensorWidth 2 + std_pow ext (sensorWidth / ratio) 2)
             * focalIn35mm / D)%float
     /\ (std_pow ext sensorWidth 2 = (sensorWidth * sensorWidth)%float ->
         std_pow ext (sensorWidth / ratio) 2
         = ((sensorWidth / ratio) * (sensorWidth / ratio))%float ->
         r_focalLength after =
           (PrimFloat.sqrt (sensorWidth * sensorWidth
                            + (sensorWidth / ratio) * (sensorWidth / ratio))
              * focalIn35mm / D)%float)).
Proof.
  intros Hmeta ratio D k after.
  subst after. rewrite (estimateFromFocal35mm_present _ _ _ _ _ _ _ Hmeta).
  cbn [r_sensorWidth r_focalLength].
  fold ratio. unfold focal35mmFormulas, sensorWidthUnresolved, sensorWidthResolved,
    focalLengthKnown, focalLengthUnknown.
  split; [|split].
  - intros Hwidth Hfocal. rewrite Hwidth, Hfocal. split; reflexivity.
  - intros Hwidth Hfocal.
    rewrite Hwidth, (nonpositive_is_not_positive _ Hfocal). split; reflexivity.
  - intros Hwidth Hfocal.
    rewrite (positive_is_not_minus_one _ Hwidth), Hwidth, Hfocal. cbn [andb fst snd].
    split; [reflexivity|]. split; [reflexivity|].
    intros Hsquare Hsquare'. rewrite Hsquare, Hsquare'. reflexivity.
Qed.

(** A 3:2 image with 35mm-equivalent 35.  Without camera metadata the
    sensor width and the focal length come from the ratio alone; with a
    sensor width of 36 and no focal length, the focal length comes from
    the squares, which the example platform computes exactly. *)
Lemma focal35mm_estimation_witness :
  let view := Reference.photo "/data/a.jpg" "" "" (-1)%float (Some 35%float) in
  let after :=
    estimateFromFocal35mm Reference.platform view (-1)%float (-1)%float SET_FROM_DEFAULT_FOV
      Reference.start in
  let after' :=
    estimateFromFocal35mm Reference.platform view (-1)%float 36%float SET_FROM_DEFAULT_FOV
      Reference.start in
  focalIn35mmMetadata view = Some 35%float
  /\ r_sensorWidth after = 0x1.2000000000001p+5%float
  /\ r_focalLength after = 0x1.1800000000001p+5%float
  /\ r_sensorWidth after' = 36%float
  /\ r_focalLength after' = 35%float.
Proof.
  intros view after after'. split; [reflexivity|].
  destruct (focal35mm_estimation Reference.platform view 35%float (-1)%float (-1)%float
              SET_FROM_DEFAULT_FOV Reference.start eq_refl) as (_ & Hboth & _).
  destruct (Hboth eq_refl eq_refl) as [Hw Hf].
  destruct (focal35mm_estimation Reference.platform view 35%float (-1)%float 36%float
              SET_FROM_DEFAULT_FOV Reference.start eq_refl) as (_ & _ & Hfocal).
  destruct (Hfocal eq_refl eq_refl) as (Hw' & _ & Hf').
  fold after in Hw, Hf. fold after' in Hw', Hf'.
  rewrite Hf, Hw, Hw', (Hf' eq_refl eq_refl). repeat split; reflexivity.
Defined.

(** When the sensor width is resolved and the focal length known, the
    formulas change neither. *)
Lemma focal35mmFormulas_both_known (ext : Externals)
    (sensorWidth focalLength focalIn35mm ratio : float) :
  sensorWidthResolved sensorWidth -> focalLengthKnown focalLength ->
  focal35mmFormulas ext sensorWidth focalLength focalIn35mm ratio = (sensorWidth, focalLength).
Proof.
  unfold sensorWidthResolved, focalLengthKnown, focal35mmFormulas.
  intros Hwidth Hfocal. rewrite (positive_is_not_minus_one _ Hwidth), Hwidth.
  destruct (focalLength <=? 0)%float eqn:Hle; [|reflexivity].
  rewrite (nonpositive_is_not_positive _ Hle) in Hfocal. discriminate.
Qed.

(** C2, on the code.  A view found in the sensor table, with a focal
    length of 50 and a 35mm-equivalent value: the lookup resolves the
    sensor width and sets "computed from metadata"; the estimator then
    keeps the sensor width and the focal length, and still overwrites the
    initialization mode with "estimated from metadata" and adds the view
    to the 35mm-estimation bucket. *)
Theorem focal35mm_marks_resolved_view :
  let view := Reference.photo "/data/a.jpg" "Canon" "EOS 5D" 50%float (Some 50%float) in
  let found :=
    findInSensorDatabase Reference.platform Reference.sensorTable view 50%float (-1)%float
      SET_FROM_DEFAULT_FOV Reference.start in
  let after :=
    estimateFromFocal35mm Reference.platform view (r_focalLength found) (r_sensorWidth found)
      (r_intrinsicInitMode found) (r_state found) in
  (sensorWidthResolved (r_sensorWidth found) /\ focalLengthKnown (r_focalLength found))
  /\ r_intrinsicInitMode found = COMPUTED_FROM_METADATA
  /\ intrinsicsSetFromFocal35mm (r_state found) !! "/data/a.jpg" = None
  /\ r_sensorWidth after = r_sensorWidth found
  /\ r_focalLength after = r_focalLength found
  /\ r_intrinsicInitMode after = ESTIMATED_FROM_METADATA
  /\ intrinsicsSetFromFocal35mm (r_state after) !! "/data/a.jpg" = Some (36%float, 50%float)
  /\ sharedWrites (r_state after)
     = (IntrinsicsSetFromFocal35mm, Unguarded) :: sharedWrites (r_state found).
Proof.
  intros view found after.
  assert (Hfound : found =
            {| r_sensorWidth := 36%float; r_focalLength := 50%float;
               r_intrinsicInitMode := COMPUTED_FROM_METADATA;
               r_state := Reference.start |}) by reflexivity.
  assert (Hwidth : sensorWidthResolved 36%float) by reflexivity.
  assert (Hfocal : focalLengthKnown 50%float) by reflexivity.
  subst after. rewrite Hfound. cbn [r_sensorWidth r_focalLength r_intrinsicInitMode r_state].
  rewrite (estimateFromFocal35mm_present Reference.platform view 50%float _ _ _ _ eq_refl).
  rewrite (focal35mmFormulas_both_known _ _ _ _ _ Hwidth Hfocal).
  cbn [r_sensorWidth r_focalLength r_intrinsicInitMode r_state fst snd].
  repeat split; vm_compute; reflexivity.
Qed.

(** ** The sensor lookup *)

Lemma lookup_emplace_absent `{Countable K} {V : Type} (k : K) (v : V) (m : gmap K V) :
  m !! k = None -> emplace k v m !! k = Some v.
Proof. intros Hk. unfold emplace. rewrite Hk. apply lookup_insert_eq. Qed.

Lemma lookup_emplace_present `{Countable K} {V : Type} (k : K) (v w : V) (m : gmap K V) :
  m !! k = Some w -> emplace k v m = m.
Proof. intros Hk. unfold emplace. rewrite Hk. reflexivity. Qed.

Lemma lookup_emplace_other `{Countable K} {V : Type} (k k' : K) (v : V) (m : gmap K V) :
  k ≠ k' -> emplace k v m !! k' = m !! k'.
Proof.
  intros Hne. unfold emplace. destruct (m !! k); [reflexivity|].
  apply lookup_insert_ne, Hne.
Qed.

Lemma emplace_is_Some `{Countable K} {V : Type} (k : K) (v : V) (m : gmap K V) :
  is_Some (emplace k v m !! k).
Proof.
  destruct (m !! k) as [w|] eqn:Hk.
  - rewrite (lookup_emplace_present k v w m Hk), Hk. eauto.
  - rewrite (lookup_emplace_absent k v m Hk). eauto.
Qed.

Lemma string_eqb_false (a b : string) : String.eqb a b = false <-> a ≠ b.
Proof. apply String.eqb_neq. Qed.

(** C3. For a view with a make or a model that the sensor table matches,
    the resolved sensor width is the datasheet's; the unsure-sensor map is
    written exactly when the datasheet's model string differs from the
    view's, under the key (make, model), with the image path and the
    datasheet, and an entry already stored under that key stays (the first
    image is kept). *)
Theorem sensor_lookup (ext : Externals) (sensorDatabase : list Datasheet) (view : View)
    (datasheet : Datasheet) (focalLength sensorWidth : float) (mode : EIntrinsicInitMode)
    (s : PassState) :
  getMetadataMake view ≠ "" \/ getMetadataModel view ≠ "" ->
  getInfo ext (getMetadataMake view) (getMetadataModel view) sensorDatabase = Some datasheet ->
  let key := (getMetadataMake view, getMetadataModel view) in
  let after := findInSensorDatabase ext sensorDatabase view focalLength sensorWidth mode s in
  r_sensorWidth after = _sensorSize datasheet
  /\ (_model datasheet = getMetadataModel view -> r_state after = s)
  /\ (_model datasheet ≠ getMetadataModel view ->
        unsureSensors (r_state after)
        = emplace key (getImagePath view, datasheet) (unsureSensors s)
        /\ (unsureSensors s !! key = None ->
            unsureSensors (r_state after) !! key = Some (getImagePath view, datasheet))
        /\ (forall first, unsureSensors s !! key = Some first ->
            unsureSensors (r_state after) !! key = Some first))
  /\ (sharedWrites (r_state after) = (UnsureSensors, Unguarded) :: sharedWrites s
      <-> _model datasheet ≠ getMetadataModel view)
  /\ (is_Some (unsureSensors (r_state after) !! key)
      <-> is_Some (unsureSensors s !! key) \/ _model datasheet ≠ getMetadataModel view).
Proof.
  intros Hmeta Hinfo key after.
  assert (Hhas : negb (String.eqb (getMetadataMake view) "")
                 || negb (String.eqb (getMetadataModel view) "") = true).
  { destruct Hmeta as [Hm | Hm]; apply string_eqb_false in Hm; rewrite Hm;
      [reflexivity | apply orb_true_r]. }
  subst after. unfold findInSensorDatabase. rewrite Hhas, Hinfo.
  cbn [r_sensorWidth r_state]. fold key.
  destruct (String.eqb (_model datasheet) (getMetadataModel view)) eqn:Hsame; cbn [negb].
  - apply String.eqb_eq in Hsame.
    split; [reflexivity|]. split; [reflexivity|]. split; [congruence|]. split.
    + split; [|congruence]. intros Hlog.
      apply (f_equal (@length _)) in Hlog. cbn in Hlog. lia.
    + split; [auto | intros [Hold | Hdiff]; [assumption | congruence]].
  - apply String.eqb_neq in Hsame.
    split; [reflexivity|]. split; [congruence|]. split; [|split].
    + intros _. cbn. split; [reflexivity|]. split.
      * apply lookup_emplace_absent.
      * intros first Hfirst. rewrite (lookup_emplace_present _ _ _ _ Hfirst). exact Hfirst.
    + split; [intros _; exact Hsame | reflexivity].
    + cbn. split; [auto | intros _; apply emplace_is_Some].
Qed.

(** The table entry "Canon / EOS 5D" found for a view whose model is
    written "eos 5d": same width, and the unsure entry is stored. *)
Lemma sensor_lookup_witness :
  let view := Reference.photo "/data/b.jpg" "Canon" "eos 5d" 50%float None in
  let after :=
    findInSensorDatabase Reference.platform Reference.sensorTable view 50%float (-1)%float
      SET_FROM_DEFAULT_FOV Reference.start in
  (getMetadataMake view ≠ "" \/ getMetadataModel view ≠ "")
  /\ r_sensorWidth after = 36%float
  /\ is_Some (unsureSensors (r_state after) !! ("Canon", "eos 5d")).
Proof.
  intros view after.
  assert (Hmeta : getMetadataMake view ≠ "" \/ getMetadataModel view ≠ "")
    by (left; discriminate).
  split; [exact Hmeta|].
  destruct (sensor_lookup Reference.platform Reference.sensorTable view
              (hd {| _brand := ""; _model := ""; _sensorSize := 0%float |} Reference.sensorTable)
              50%float (-1)%float SET_FROM_DEFAULT_FOV Reference.start Hmeta eq_refl)
    as (Hwidth & _ & _ & _ & Hsome).
  split; [exact Hwidth|].
  apply Hsome. right. discriminate.
Defined.

(** ** Rig detection *)

Lemma observations_increment (rig subPose : Z) (m : gmap Z (gmap Z nat)) :
  observations rig subPose (incrementDetectedRigs rig subPose m)
  = S (observations rig subPose m).
Proof.
  unfold observations, incrementDetectedRigs.
  rewrite lookup_insert_eq. cbn. rewrite lookup_insert_eq. reflexivity.
Qed.

Lemma observations_increment_other (rig subPose rig' subPose' : Z) (m : gmap Z (gmap Z nat)) :
  (rig', subPose') ≠ (rig, subPose) ->
  observations rig' subPose' (incrementDetectedRigs rig subPose m)
  = observations rig' subPose' m.
Proof.
  intros Hne. unfold observations, incrementDetectedRigs.
  destruct (decide (rig = rig')) as [-> | Hrig].
  - rewrite lookup_insert_eq. cbn.
    rewrite lookup_insert_ne by congruence. reflexivity.
  - rewrite lookup_insert_ne by assumption. reflexivity.
Qed.

(** C4 as stated fails: the directory name "2cam" is not purely numeric,
    yet [std::stoi] reads 2 from it and the view is recorded in the rig,
    with sub-pose 2, frame 5 and one observation. *)
Lemma rig_recorded_for_non_numeric_directory :
  let view := Reference.photo "/data/rig/2cam/000005.jpg" "" "" (-1)%float None in
  let r := detectRig Reference.platform view Reference.start in
  followsRigConvention (getImagePath view) = false
  /\ isPartOfRig Reference.platform view = false
  /\ isPartOfRig Reference.platform (fst r) = true
  /\ getSubPoseId (fst r) = 2 /\ getFrameId (fst r) = 5
  /\ observations (getRigId (fst r)) 2 (detectedRigs (snd r)) = 1%nat
  /\ ~ (isPartOfRig Reference.platform (fst r) = true
        <-> followsRigConvention (getImagePath view) = true).
Proof.
  intros view r.
  assert (Hconv : followsRigConvention (getImagePath view) = false) by reflexivity.
  assert (Hrig : isPartOfRig Reference.platform (fst r) = true) by reflexivity.
  repeat split; try reflexivity.
  intros [Hthen _]. rewrite (Hthen Hrig) in Hconv. discriminate.
Qed.

(** The other direction fails too: a purely numeric directory name that
    does not fit an [int] makes [std::stoi] throw, and a directory named
    "rig.old" has the stem "rig". *)
Example rig_not_recorded_for_large_index :
  let view := Reference.photo "/data/rig/99999999999/1.jpg" "" "" (-1)%float None in
  followsRigConvention (getImagePath view) = true
  /\ detectRig Reference.platform view Reference.start
     = (view, set_rigWarnings [getImagePath view] Reference.start).
Proof. split; reflexivity. Qed.

Example rig_recorded_under_dotted_directory :
  let view := Reference.photo "/data/rig.old/2/000005.jpg" "" "" (-1)%float None in
  let r := detectRig Reference.platform view Reference.start in
  followsRigConvention (getImagePath view) = false
  /\ getSubPoseId (fst r) = 2 /\ getFrameId (fst r) = 5.
Proof. repeat split; reflexivity. Qed.

(** The path of the specification: sub-pose 2, frame 5, and the rig
    identity is the hash of the rig root. *)
Example rig_path_of_the_specification :
  let view := Reference.photo "/data/rig/2/000005.jpg" "" "" (-1)%float None in
  let r := detectRig Reference.platform view Reference.start in
  followsRigConvention (getImagePath view) = true
  /\ getSubPoseId (fst r) = 2 /\ getFrameId (fst r) = 5
  /\ getRigId (fst r) = Reference.to_uint32 (Reference.stringHash "/data/rig")
  /\ rigWarnings (snd r) = [].
Proof. repeat split; reflexivity. Qed.

(** C4, amended.  The detector records a view in a rig exactly when the
    stem of the directory two levels above the image is "rig" and
    [std::stoi] reads an integer from the file stem and from the stem of
    the image's directory (optional white space and sign, then digits,
    later characters ignored, value within [int]).  The view then gets
    the hash of the rig-root path as rig identity and the two integers,
    converted to [IndexT], as sub-pose and frame, and the count of that
    (rig, sub-pose) grows by one, all others staying.  When the stem is
    "rig" and a parse fails, the view is unchanged and only a warning is
    kept; otherwise nothing happens. *)
Theorem rig_detection (ext : Externals) (view : View) (s : PassState) :
  let path := getImagePath view in
  let parentPath := Path.parent_path path in
  let rigRoot := Path.parent_path parentPath in
  let r := detectRig ext view s in
  (forall frameId subPoseId,
      Path.stem rigRoot = "rig" ->
      Stoi.stoi (Path.stem path) = Some frameId ->
      Stoi.stoi (Path.stem parentPath) = Some subPoseId ->
      let rig := to_IndexT ext (std_hash ext rigRoot) in
      let subPose := IndexT_to_int ext (to_IndexT ext subPoseId) in
      fst r = setFrameId (to_IndexT ext frameId)
                (setRigAndSubPoseId rig (to_IndexT ext subPoseId) view)
      /\ observations rig subPose (detectedRigs (snd r))
         = S (observations rig subPose (detectedRigs s))
      /\ (forall rig' subPose', (rig', subPose') ≠ (rig, subPose) ->
          observations rig' subPose' (detectedRigs (snd r))
          = observations rig' subPose' (detectedRigs s))
      /\ rigWarnings (snd r) = rigWarnings s)
  /\ (Path.stem rigRoot = "rig" ->
      Stoi.stoi (Path.stem path) = None \/ Stoi.stoi (Path.stem parentPath) = None ->
      r = (view, set_rigWarnings (path :: rigWarnings s) s))
  /\ (Path.stem rigRoot ≠ "rig" -> r = (view, s))
  /\ (detectedRigs (snd r) ≠ detectedRigs s
      <-> Path.stem rigRoot = "rig"
          /\ is_Some (Stoi.stoi (Path.stem path))
          /\ is_Some (Stoi.stoi (Path.stem parentPath))).
Proof.
  intros path parentPath rigRoot r. subst r. unfold detectRig.
  fold path. fold parentPath. fold rigRoot.
  destruct (String.eqb (Path.stem rigRoot) "rig") eqn:Hrig.
  - apply String.eqb_eq in Hrig.
    destruct (Stoi.stoi (Path.stem path)) as [frameId|] eqn:Hframe.
    + destruct (Stoi.stoi (Path.stem parentPath)) as [subPoseId|] eqn:Hsub.
      * cbn [fst snd]. split; [|split; [|split]].
        -- intros f sp _ Hf Hsp. injection Hf as <-. injection Hsp as <-.
           cbn [detectedRigs logWrite set_detectedRigs rigWarnings getRigId getSubPoseId
                  setFrameId setRigAndSubPoseId].
           split; [reflexivity|]. split; [apply observations_increment|].
           split; [|reflexivity].
           intros rig' subPose' Hne. apply observations_increment_other, Hne.
        -- intros _ [Hnone | Hnone]; discriminate.
        -- intros Hne. contradiction.
        -- cbn [detectedRigs logWrite set_detectedRigs getRigId getSubPoseId
                  setFrameId setRigAndSubPoseId].
           split; [intros _; eauto|]. intros _ Heq.
           pose proof (observations_increment
                         (to_IndexT ext (std_hash ext rigRoot))
                         (IndexT_to_int ext (to_IndexT ext subPoseId)) (detectedRigs s)) as Hinc.
           rewrite Heq in Hinc. lia.
      * cbn [fst snd]. split; [|split; [|split]].
        -- intros f sp _ _ Hsp. discriminate.
        -- reflexivity.
        -- intros Hne. contradiction.
        -- cbn. split; [intros Hne; contradiction | intros (_ & _ & [x Hx]); discriminate].
    + cbn [fst snd]. split; [|split; [|split]].
      * intros f sp _ Hf. discriminate.
      * reflexivity.
      * intros Hne. contradiction.
      * cbn. split; [intros Hne; contradiction | intros (_ & [x Hx] & _); discriminate].
  - apply String.eqb_neq in Hrig. cbn [fst snd]. split; [|split; [|split]].
    + intros f sp Hstem. contradiction.
    + intros Hstem. contradiction.
    + reflexivity.
    + split; [intros Hne; contradiction | intros (Hstem & _); contradiction].
Qed.

(** ** Rig validation *)

Lemma in_key_order_Permutation {A : Type} (m : gmap Z A) :
  in_key_order m ≡ₚ map_to_list m.
Proof. apply merge_sort_Permutation. Qed.

Lemma elem_of_in_key_order {A : Type} (m : gmap Z A) (k : Z) (x : A) :
  (k, x) ∈ in_key_order m <-> m !! k = Some x.
Proof. rewrite in_key_order_Permutation. apply elem_of_map_to_list. Qed.

Lemma sequential_iff_in_range (subPoses : gmap Z nat) :
  subPosesAreSequential subPoses
  <-> forall k, is_Some (subPoses !! k) -> 0 <= k < Z.of_nat (size subPoses).
Proof.
  unfold subPosesAreSequential. split.
  - intros Hdom k Hk. apply elem_of_dom in Hk. rewrite Hdom in Hk.
    apply elem_of_list_to_set, elem_of_seqZ in Hk. lia.
  - intros Hrange. apply set_subseteq_size_eq.
    + intros k Hk. apply elem_of_list_to_set, elem_of_seqZ.
      apply elem_of_dom in Hk. specialize (Hrange k Hk). lia.
    + rewrite size_list_to_set by apply NoDup_seqZ.
      rewrite length_seqZ, size_dom. lia.
Qed.

Lemma to_size_t_of_int (k : Z) :
  0 <= k <= Stoi.INT_MAX -> to_size_t k = k.
Proof.
  unfold to_size_t, Stoi.INT_MAX. intros Hk. apply Z.mod_small. lia.
Qed.

Lemma checkSubPoses_None (nbSubPose nbPoses : nat) (entries : list (Z * nat)) :
  Forall (fun e => Stoi.INT_MIN <= e.1 <= Stoi.INT_MAX) entries ->
  checkSubPoses nbSubPose nbPoses entries = None
  <-> Forall (fun e => 0 <= e.1 < Z.of_nat nbSubPose /\ e.2 = nbPoses) entries.
Proof.
  induction entries as [|[k c] entries IH]; intros Hint.
  - split; [constructor | reflexivity].
  - apply Forall_cons in Hint as [Hk Hrest]. cbn [fst] in Hk. specialize (IH Hrest).
    cbn [checkSubPoses]. rewrite Forall_cons. cbn [fst snd].
    destruct (k <? 0) eqn:Hneg.
    + rewrite orb_true_r. apply Z.ltb_lt in Hneg. split; [discriminate | lia].
    + apply Z.ltb_ge in Hneg. rewrite orb_false_r.
      rewrite to_size_t_of_int by lia.
      destruct (Z.of_nat nbSubPose <=? k) eqn:Hhigh.
      * apply Z.leb_le in Hhigh. split; [discriminate | lia].
      * apply Z.leb_gt in Hhigh.
        destruct (c =? nbPoses)%nat eqn:Hcount; cbn [negb].
        -- apply Nat.eqb_eq in Hcount. rewrite IH. intuition lia.
        -- apply Nat.eqb_neq in Hcount. split; [discriminate | intros [[_ Hc] _]; contradiction].
Qed.

(** The check of one rig passes exactly for sequential sub-poses that were
    all observed as often as the first. *)
Lemma checkRig_None (subPoses : gmap Z nat) :
  intKeys subPoses ->
  checkRig subPoses = None <-> subPosesAreSequential subPoses /\ sameNbPoses subPoses.
Proof.
  intros Hint. unfold checkRig.
  rewrite checkSubPoses_None.
  - rewrite sequential_iff_in_range. unfold sameNbPoses. rewrite Forall_forall. split.
    + intros Hall. split.
      * intros k [c Hc]. apply elem_of_in_key_order in Hc. apply (Hall _ Hc).
      * intros k c Hc. apply elem_of_in_key_order in Hc. apply (Hall _ Hc).
    + intros [Hrange Hcount] [k c] Hin. apply elem_of_in_key_order in Hin. cbn [fst snd].
      split; [apply Hrange; eauto | apply (Hcount k), Hin].
  - apply Forall_forall. intros [k c] Hin. apply elem_of_in_key_order in Hin.
    apply (Hint k c Hin).
Qed.

Lemma createRigsFrom_valid (detected : list (Z * gmap Z nat)) (rigs : gmap Z Rig) :
  Forall (fun e => checkRig e.2 = None) detected ->
  createRigsFrom detected rigs = inr (foldl addRig rigs detected).
Proof.
  revert rigs. induction detected as [|[rigId subPoses] detected IH]; intros rigs Hall.
  - reflexivity.
  - apply Forall_cons in Hall as [Hhead Hrest]. cbn [snd] in Hhead.
    cbn [createRigsFrom foldl]. rewrite Hhead. apply IH, Hrest.
Qed.

Lemma createRigsFrom_invalid (detected : list (Z * gmap Z nat)) (rigs : gmap Z Rig) :
  Exists (fun e => checkRig e.2 ≠ None) detected ->
  exists e, createRigsFrom detected rigs = inl e.
Proof.
  revert rigs. induction detected as [|[rigId subPoses] detected IH]; intros rigs Hex.
  - inversion Hex.
  - cbn [createRigsFrom]. destruct (checkRig subPoses) as [e|] eqn:Hcheck; [eauto|].
    apply IH. apply Exists_cons in Hex as [Hhead | Hrest]; [|exact Hrest].
    cbn [snd] in Hhead. contradiction.
Qed.

Lemma lookup_foldl_addRig (detected : list (Z * gmap Z nat)) (rigs : gmap Z Rig) (rigId : Z) :
  foldl addRig rigs detected !! rigId
  = match rigs !! rigId with
    | Some rig => Some rig
    | None =>
        (fun subPoses => {| getNbSubPoses := size subPoses |})
          <$> (list_to_map detected : gmap Z (gmap Z nat)) !! rigId
    end.
Proof.
  revert rigs. induction detected as [|[id subPoses] detected IH]; intros rigs.
  - cbn. rewrite lookup_empty. destruct (rigs !! rigId); reflexivity.
  - cbn [foldl list_to_map foldr]. rewrite IH. unfold addRig. cbn [fst snd].
    destruct (decide (id = rigId)) as [-> | Hne].
    + rewrite lookup_insert_eq. cbn.
      destruct (rigs !! rigId) as [rig|] eqn:Hold.
      * rewrite (lookup_emplace_present _ _ _ _ Hold), Hold. reflexivity.
      * rewrite (lookup_emplace_absent _ _ _ Hold). reflexivity.
    + rewrite lookup_emplace_other by assumption.
      rewrite lookup_insert_ne by assumption. reflexivity.
Qed.

Lemma list_to_map_in_key_order {A : Type} (m : gmap Z A) :
  list_to_map (in_key_order m) = m.
Proof.
  rewrite <- (list_to_map_to_list m) at 2.
  apply list_to_map_proper; [|apply in_key_order_Permutation].
  rewrite in_key_order_Permutation. apply NoDup_fst_map_to_list.
Qed.

(** The two failures of the specification: sub-pose 0 observed twice and
    sub-pose 1 once is a pose-count mismatch; sub-poses 0 and 2 without 1
    is an index out of range. *)
Example rig_with_unequal_counts :
  checkRig {[ 0 := 2%nat; 1 := 1%nat ]} = Some WrongNbPoses.
Proof. vm_compute. reflexivity. Qed.

Example rig_with_missing_sub_pose :
  checkRig {[ 0 := 1%nat; 2 := 1%nat ]} = Some WrongSubPoseId.
Proof. vm_compute. reflexivity. Qed.

Example rig_with_negative_sub_pose :
  checkRig {[ (-1) := 1%nat; 0 := 1%nat ]} = Some WrongSubPoseId.
Proof. vm_compute. reflexivity. Qed.

Example rigs_created :
  createRigs {[ 7 := {[ 0 := 2%nat; 1 := 2%nat ]}; 9 := {[ 0 := 3%nat ]} ]} ∅
  = inr {[ 7 := {| getNbSubPoses := 2 |}; 9 := {| getNbSubPoses := 1 |} ]}.
Proof. vm_compute. reflexivity. Qed.

(** ** The intrinsic options *)

Lemma readKMatrixFields_accepts (ext : Externals) (vec_str : list string) :
  forall (i : nat) (focal ppx ppy : float),
    fst (readKMatrixFields ext i vec_str focal ppx ppy) = true
    <-> Forall (fun field => is_Some (extractDouble ext field)) vec_str.
Proof.
  induction vec_str as [|field rest IH]; intros i focal ppx ppy; cbn [readKMatrixFields].
  - split; [constructor | reflexivity].
  - rewrite Forall_cons. destruct (extractDouble ext field) as [readvalue|] eqn:Hread.
    + rewrite IH. split; [eauto | tauto].
    + cbn [fst]. split; [discriminate | intros [[x Hx] _]; discriminate].
Qed.

Lemma checkIntrinsicStringValidity_accepts (ext : Externals) (Kmatrix : string)
    (focal ppx ppy : float) :
  fst (checkIntrinsicStringValidity ext Kmatrix focal ppx ppy) = true
  <-> length (split_fields ";" Kmatrix) = 9%nat
      /\ Forall (fun field => is_Some (extractDouble ext field)) (split_fields ";" Kmatrix).
Proof.
  unfold checkIntrinsicStringValidity.
  destruct (length (split_fields ";" Kmatrix) =? 9)%nat eqn:Hlen; cbn [negb].
  - apply Nat.eqb_eq in Hlen. rewrite readKMatrixFields_accepts. tauto.
  - apply Nat.eqb_neq in Hlen. cbn [fst]. split; [discriminate | tauto].
Qed.

Lemma checkIntrinsicStringValidity_values (ext : Externals) (Kmatrix : string)
    (focal ppx ppy : float) (values : list float) :
  length (split_fields ";" Kmatrix) = 9%nat ->
  Forall2 (fun field value => extractDouble ext field = Some value)
    (split_fields ";" Kmatrix) values ->
  checkIntrinsicStringValidity ext Kmatrix focal ppx ppy
  = (true, (nth 0 values focal, nth 2 values ppx, nth 5 values ppy)).
Proof.
  intros Hlen Hread. unfold checkIntrinsicStringValidity. rewrite Hlen. cbn [Nat.eqb negb].
  destruct (split_fields ";" Kmatrix) as [|f0 [|f1 [|f2 [|f3 [|f4 [|f5 [|f6 [|f7 [|f8 [|f9 l]]]]]]]]]];
    try discriminate Hlen.
  repeat match goal with
         | H : Forall2 _ (_ :: _) _ |- _ =>
             apply Forall2_cons_inv_l in H as (? & ? & ? & H & ->)
         | H : Forall2 _ [] _ |- _ => apply Forall2_nil_inv_l in H as ->
         end.
  cbn [readKMatrixFields].
  repeat match goal with
         | H : extractDouble ext _ = Some _ |- _ => rewrite H; clear H
         end.
  reflexivity.
Qed.

Lemma main_stops_on_invalid_options (ext : Externals) (cfg : Config)
    (sensorDatabase : option (list Datasheet)) (input : option SfMData) (now : Z)
    (saveOk : bool) :
  checkIntrinsicOptions ext cfg = None ->
  main ext cfg sensorDatabase input now saveOk = EXIT_FAILURE InvalidConfiguration.
Proof. intros Hcheck. unfold main. rewrite Hcheck. reflexivity. Qed.

(** The option checks over any stream extraction: the run stops with the
    configuration failure, whatever the views are, when two of the three
    intrinsic options are set or when the K-matrix string does not split
    into exactly 9 fields from each of which the extraction reads a value;
    a K-matrix of 9 such fields is accepted and what is read from its
    fields 0, 2 and 5 is the focal length, ppx and ppy. *)
Lemma intrinsic_options (ext : Externals) (cfg : Config) :
  let K := defaultIntrinsicKMatrix cfg in
  let fields := split_fields ";" K in
  let hasK := K ≠ "" in
  let hasFocal := (0 <? defaultFocalLengthPixel cfg)%float = true in
  let hasFieldOfView := (0 <? defaultFieldOfView cfg)%float = true in
  let malformed :=
    length fields ≠ 9%nat \/ Exists (fun field => extractDouble ext field = None) fields in
  ((hasK /\ hasFocal) \/ (hasK /\ hasFieldOfView) \/ (hasFocal /\ hasFieldOfView)
   \/ (hasK /\ malformed) ->
   forall sensorDatabase input now saveOk,
     main ext cfg sensorDatabase input now saveOk = EXIT_FAILURE InvalidConfiguration)
  /\ (forall focal ppx ppy,
        fst (checkIntrinsicStringValidity ext K focal ppx ppy) = false <-> malformed)
  /\ (forall focal ppx ppy values,
        length fields = 9%nat ->
        Forall2 (fun field value => extractDouble ext field = Some value) fields values ->
        checkIntrinsicStringValidity ext K focal ppx ppy
        = (true, (nth 0 values focal, nth 2 values ppx, nth 5 values ppy)))
  /\ (forall values,
        hasK -> ~ hasFocal -> ~ hasFieldOfView -> length fields = 9%nat ->
        Forall2 (fun field value => extractDouble ext field = Some value) fields values ->
        checkIntrinsicOptions ext cfg
        = Some (nth 0 values (defaultFocalLengthPixel cfg),
                nth 2 values (-1)%float, nth 5 values (-1)%float)).
Proof.
  intros K fields hasK hasFocal hasFieldOfView malformed.
  assert (Hmalformed : forall focal ppx ppy,
             fst (checkIntrinsicStringValidity ext K focal ppx ppy) = false <-> malformed).
  { intros focal ppx ppy. rewrite <- not_true_iff_false, checkIntrinsicStringValidity_accepts.
    fold fields. unfold malformed.
    split.
    - intros Hnot. destruct (decide (length fields = 9%nat)) as [Hlen|Hlen]; [|tauto].
      right.
      assert (Hsome : ~ Forall (fun field => is_Some (extractDouble ext field)) fields)
        by tauto.
      apply not_Forall_Exists in Hsome; [|apply _].
      eapply Exists_impl; [exact Hsome|]. intros field Hfield. cbn in Hfield.
      destruct (extractDouble ext field); [exfalso; apply Hfield; eauto | reflexivity].
    - intros [Hlen | Hex] [Hlen' Hall]; [contradiction|].
      apply Exists_exists in Hex as (field & Hin & Hnone).
      rewrite Forall_forall in Hall. specialize (Hall field Hin).
      rewrite Hnone in Hall. destruct Hall as [x Hx]. discriminate. }
  split; [|split; [exact Hmalformed|split]].
  - intros Hbad sensorDatabase input now saveOk. apply main_stops_on_invalid_options.
    unfold checkIntrinsicOptions. fold K.
    destruct (String.eqb K "") eqn:HK; cbn [negb andb].
    + apply String.eqb_eq in HK.
      destruct Hbad as [[HhasK _] | [[HhasK _] | [[Hf Hv] | [HhasK _]]]];
        try contradiction.
      rewrite Hf, Hv. reflexivity.
    + destruct (0 <? defaultFocalLengthPixel cfg)%float eqn:Hf; [reflexivity|].
      destruct (0 <? defaultFieldOfView cfg)%float eqn:Hv; [reflexivity|].
      cbn [andb].
      destruct Hbad as [[_ Hf'] | [[_ Hv'] | [[Hf' _] | [_ Hmal]]]]; try discriminate.
      apply (Hmalformed (defaultFocalLengthPixel cfg) (-1)%float (-1)%float) in Hmal.
      destruct (checkIntrinsicStringValidity ext K _ _ _) as [[|] r]; [discriminate | reflexivity].
  - intros focal ppx ppy values. apply checkIntrinsicStringValidity_values.
  - intros values HhasK Hf Hv Hlen Hread. unfold checkIntrinsicOptions. fold K.
    apply String.eqb_neq in HhasK. rewrite HhasK. cbn [negb andb].
    apply not_true_is_false in Hf, Hv. rewrite Hf, Hv. cbn [andb].
    rewrite (checkIntrinsicStringValidity_values ext K _ _ _ values Hlen Hread). reflexivity.
Qed.

(** The K-matrix of the option's documentation, and some rejected
    configurations. *)
Example k_matrix_accepted :
  checkIntrinsicStringValidity Reference.platform "8000;0;2880;0;8000;1920;0;0;1"
    (-1)%float (-1)%float (-1)%float
  = (true, (8000%float, 2880%float, 1920%float)).
Proof. reflexivity. Qed.

Example k_matrix_too_short :
  fst (checkIntrinsicStringValidity Reference.platform "8000;0;2880;0;8000;1920"
         (-1)%float (-1)%float (-1)%float) = false.
Proof. reflexivity. Qed.

Example k_matrix_not_a_number :
  checkIntrinsicStringValidity Reference.platform "8000;0;2880;0;f;1920;0;0;1"
    (-1)%float (-1)%float (-1)%float
  = (false, (8000%float, 2880%float, (-1)%float)).
Proof. reflexivity. Qed.

Example conflicting_options_stop_the_run :
  main Reference.platform
    {| defaultIntrinsicKMatrix := "";
       defaultCameraModel := PINHOLE_CAMERA_START;
       defaultFocalLengthPixel := 8000%float;
       defaultFieldOfView := 45%float;
       groupCameraModel := 2;
       allowIncompleteOutput := false;
       allowSingleView := false |}
    (Some Reference.sensorTable) None 0 true
  = EXIT_FAILURE InvalidConfiguration.
Proof. reflexivity. Qed.

(** ** The pass/fail policy *)

Lemma passFailPolicy_stops (cfg : Config) (s : PassState) :
  let minimum := if allowSingleView cfg then 1%nat else 2%nat in
  is_Some (passFailPolicy cfg s)
  <-> (unknownSensors s ≠ ∅ /\ allowIncompleteOutput cfg = false)
      \/ ((completeViewCount s < minimum)%nat /\ allowIncompleteOutput cfg = false).
Proof.
  intros minimum. subst minimum. unfold passFailPolicy.
  assert (Hempty : (size (unknownSensors s) =? 0)%nat = true <-> unknownSensors s = ∅)
    by (rewrite Nat.eqb_eq; apply map_size_empty_iff).
  destruct (size (unknownSensors s) =? 0)%nat;
    destruct (allowIncompleteOutput cfg); destruct (allowSingleView cfg);
    destruct (Nat.ltb_spec (completeViewCount s) 1);
    destruct (Nat.ltb_spec (completeViewCount s) 2);
    cbn [negb andb orb];
    (split;
     [ intros [x Hx]; try discriminate Hx;
       first [ left; split; [intros Hnone; apply Hempty in Hnone; discriminate | reflexivity]
             | right; split; [lia | reflexivity] ]
     | intros [[Hunknown Hallow] | [Hcount Hallow]];
       try discriminate Hallow; try lia; try (exfalso; apply Hunknown, Hempty; reflexivity);
       eauto ]).
Qed.

Lemma passFailPolicy_reason (cfg : Config) (s : PassState) (why : Failure) :
  passFailPolicy cfg s = Some why -> why = UnknownSensor \/ why = InsufficientCompleteViews.
Proof.
  unfold passFailPolicy.
  destruct (_ && _); [intros [= <-]; tauto|].
  destruct (_ && _); [intros [= <-]; tauto | discriminate].
Qed.

(** C8. After the loop and a successful rig validation, the run stops
    before saving exactly when unknown-sensor images exist or fewer
    complete views were counted than required (one when a single view is
    allowed, two otherwise), incomplete output being disallowed in both
    cases; otherwise the views, intrinsics and rigs are handed to
    [sfmDataIO::Save], whose result is the exit status. *)
Theorem pass_fail_policy (ext : Externals) (cfg : Config) (defaults : float * float * float)
    (sensorDatabase : list Datasheet) (sfmData : SfMData) (now : Z) (saveOk : bool)
    (views' : list View) (s : PassState) (rigs : gmap Z Rig) :
  checkIntrinsicOptions ext cfg = Some defaults ->
  getViews sfmData ≠ [] ->
  processViews ext cfg defaults sensorDatabase (getViews sfmData)
    (initialState (getIntrinsics sfmData) (std_srand ext now)) = Ok (views', s) ->
  createRigs (detectedRigs s) (getRigs sfmData) = inr rigs ->
  let minimum := if allowSingleView cfg then 1%nat else 2%nat in
  let stops :=
    (unknownSensors s ≠ ∅ /\ allowIncompleteOutput cfg = false)
    \/ ((completeViewCount s < minimum)%nat /\ allowIncompleteOutput cfg = false) in
  let run := main ext cfg (Some sensorDatabase) (Some sfmData) now saveOk in
  (run = EXIT_FAILURE UnknownSensor \/ run = EXIT_FAILURE InsufficientCompleteViews <-> stops)
  /\ (~ stops ->
      run = if saveOk then
              EXIT_SUCCESS {| getViews := views'; getIntrinsics := intrinsics s; getRigs := rigs |}
            else EXIT_FAILURE SaveFailed).
Proof.
  intros Hoptions Hviews Hpass Hrigs minimum stops run.
  assert (Hrun : run = match passFailPolicy cfg s with
                       | Some why => EXIT_FAILURE why
                       | None =>
                           if saveOk then
                             EXIT_SUCCESS {| getViews := views'; getIntrinsics := intrinsics s;
                                             getRigs := rigs |}
                           else EXIT_FAILURE SaveFailed
                       end).
  { subst run. unfold main. rewrite Hoptions.
    destruct (getViews sfmData) as [|view rest] eqn:Hlist; [contradiction|].
    rewrite Hpass, Hrigs. reflexivity. }
  pose proof (passFailPolicy_stops cfg s) as Hstops. cbn zeta in Hstops.
  fold minimum in Hstops. fold stops in Hstops.
  rewrite Hrun. destruct (passFailPolicy cfg s) as [why|] eqn:Hpolicy.
  - assert (His : stops) by (apply Hstops; eauto).
    split; [|intros Hnot; contradiction].
    split; [intros _; exact His|]. intros _.
    destruct (passFailPolicy_reason _ _ _ Hpolicy) as [-> | ->]; [left | right]; reflexivity.
  - assert (Hnot : ~ stops) by (intros His; apply Hstops in His as [x Hx]; discriminate).
    split; [|intros _; reflexivity].
    split; [|intros His; contradiction].
    destruct saveOk; intros [Hrun' | Hrun']; discriminate.
Qed.

(** Two photographs of a camera of the sensor table: both complete,
    nothing unknown, so the scene is saved. *)
Lemma pass_fail_policy_witness :
  let cfg := Reference.options 1 false false in
  let sfmData :=
    {| getViews :=
         [ Reference.photo "/data/a.jpg" "Canon" "EOS 5D" 50%float None;
           Reference.photo "/data/b.jpg" "Canon" "EOS 5D" 35%float None ];
       getIntrinsics := ∅; getRigs := ∅ |} in
  exists views' s,
    processViews Reference.platform cfg Reference.noDefaults Reference.sensorTable
      (getViews sfmData) (initialState ∅ (Reference.srand 0)) = Ok (views', s)
    /\ completeViewCount s = 2%nat
    /\ main Reference.platform cfg (Some Reference.sensorTable) (Some sfmData) 0 true
       = EXIT_SUCCESS {| getViews := views'; getIntrinsics := intrinsics s; getRigs := ∅ |}.
Proof.
  intros cfg sfmData. eexists _, _.
  assert (Hpass : processViews Reference.platform cfg Reference.noDefaults
                    Reference.sensorTable (getViews sfmData)
                    (initialState (getIntrinsics sfmData)
                       (std_srand Reference.platform 0)) = Ok _)
    by (vm_compute; reflexivity).
  split; [exact Hpass|]. split; [reflexivity|].
  assert (Hviews : getViews sfmData ≠ []) by discriminate.
  destruct (pass_fail_policy Reference.platform cfg Reference.noDefaults
              Reference.sensorTable sfmData 0 true _ _ ∅ eq_refl Hviews Hpass eq_refl)
    as [_ Hsave].
  apply Hsave. intros [[Hunknown _] | [Hcount _]].
  - apply Hunknown. reflexivity.
  - cbn in Hcount. lia.
Defined.

(** ** Grouping mode 0 *)

(** C6, on the code.  Two photographs with different focal lengths,
    grouping mode 0, and the generator seeded with the time 1530009035:
    [std::rand] returns 31993 twice, both views get the intrinsic
    identity 31993, and the second [emplace] finds the key taken, so the
    two views share one intrinsic. *)
Theorem never_share_assigns_equal_identities :
  let cfg := Reference.options 0 false false in
  let a := Reference.photo "/data/a.jpg" "Canon" "EOS 5D" 50%float None in
  let b := Reference.photo "/data/b.jpg" "Canon" "EOS 5D" 35%float None in
  exists a' b' s,
    processViews Reference.platform cfg Reference.noDefaults Reference.sensorTable [a; b]
      (initialState ∅ (std_srand Reference.platform 1530009035)) = Ok ([a'; b'], s)
    /\ getImagePath a' ≠ getImagePath b'
    /\ getIntrinsicId a' = 31993 /\ getIntrinsicId b' = 31993
    /\ size (intrinsics s) = 1%nat.
Proof.
  intros cfg a b. eexists _, _, _.
  split; [vm_compute; reflexivity|].
  split; [discriminate|]. repeat split; vm_compute; reflexivity.
Qed.

(** Whatever the generator, its values lie in [0, RAND_MAX]: views that
    have no intrinsic yet all reach [std::rand] in mode 0, so more than
    RAND_MAX + 1 of them cannot get distinct identities. *)
Section NeverShare.

Variable ext : Externals.
Variable cfg : Config.
Variable defaults : float * float * float.
Variable sensorDatabase : list Datasheet.
Variable RAND_MAX : Z.

Hypothesis mode0 : groupCameraModel cfg = 0.
Hypothesis complete_output : allowIncompleteOutput cfg = false.
Hypothesis rand_range : forall st, 0 <= fst (std_rand ext st) <= RAND_MAX.
Hypothesis rand_fits : forall r, 0 <= r <= RAND_MAX -> to_IndexT ext r = r.

Lemma detectRig_intrinsicId (view : View) (s : PassState) :
  getIntrinsicId (fst (detectRig ext view s)) = getIntrinsicId view.
Proof.
  unfold detectRig. destruct (String.eqb _ "rig"); [|reflexivity].
  destruct (Stoi.stoi _); [|reflexivity]. destruct (Stoi.stoi _); reflexivity.
Qed.

Lemma buildIntrinsic_mode0 (view view' : View) (l : Locals) (s s' : PassState) :
  buildIntrinsic ext cfg defaults view l s = Ok (view', s') ->
  0 <= getIntrinsicId view' <= RAND_MAX.
Proof.
  unfold buildIntrinsic. destruct defaults as [[dfp dppx] dppy].
  destruct (dynamic_cast_Pinhole _) as [intrinsic|]; [|discriminate].
  rewrite mode0. cbn [Z.eqb].
  destruct (std_rand ext _) as [r next] eqn:Hrand.
  intros [= <- _]. cbn [getIntrinsicId setIntrinsicId].
  pose proof (rand_range (randState
    (if (0 <? getFocalLengthPix (setInitializationMode (l_intrinsicInitMode l) intrinsic))%float
     then logWrite CompleteViewCount Atomic (set_completeViewCount (S (completeViewCount s)) s)
     else s))) as Hrange.
  rewrite Hrand in Hrange. cbn [fst] in Hrange.
  rewrite rand_fits; assumption.
Qed.

Lemma processView_mode0 (view view' : View) (s s' : PassState) :
  getIntrinsicId view = UndefinedIndexT ext ->
  processView ext cfg defaults sensorDatabase view s = Ok (view', s') ->
  0 <= getIntrinsicId view' <= RAND_MAX.
Proof.
  intros Hid. unfold processView, beforeBuild.
  pose proof (detectRig_intrinsicId view s) as Hdetect.
  destruct (detectRig ext view s) as [view1 s1]. cbn [fst] in Hdetect.
  unfold intrinsicAlreadyInitialized. rewrite Hdetect, Hid, Z.eqb_refl.
  rewrite complete_output.
  destruct (_ =? -1)%float; apply buildIntrinsic_mode0.
Qed.

Lemma processViews_mode0 (views views' : list View) (s s' : PassState) :
  Forall (fun view => getIntrinsicId view = UndefinedIndexT ext) views ->
  processViews ext cfg defaults sensorDatabase views s = Ok (views', s') ->
  length views' = length views
  /\ Forall (fun view' => 0 <= getIntrinsicId view' <= RAND_MAX) views'.
Proof.
  revert views' s s'. induction views as [|view rest IH]; intros views' s s' Hfresh.
  - intros [= <- <-]. split; [reflexivity | constructor].
  - apply Forall_cons in Hfresh as [Hview Hrest]. cbn [processViews].
    destruct (processView ext cfg defaults sensorDatabase view s) as [[view1 s1]|] eqn:Hstep;
      [|discriminate].
    destruct (processViews ext cfg defaults sensorDatabase rest s1) as [[rest1 s2]|] eqn:Hloop;
      [|discriminate].
    intros [= <- <-]. destruct (IH _ _ _ Hrest Hloop) as [Hlen Hall].
    split; [cbn; congruence|].
    constructor; [apply (processView_mode0 _ _ _ _ Hview Hstep) | exact Hall].
Qed.

Lemma never_share_pigeonhole (views views' : list View) (s s' : PassState) :
  Forall (fun view => getIntrinsicId view = UndefinedIndexT ext) views ->
  RAND_MAX + 1 < Z.of_nat (length views) ->
  processViews ext cfg defaults sensorDatabase views s = Ok (views', s') ->
  ~ NoDup (getIntrinsicId <$> views').
Proof.
  intros Hfresh Hmany Hpass Hnodup.
  destruct (processViews_mode0 _ _ _ _ Hfresh Hpass) as [Hlen Hall].
  assert (Hsub : (getIntrinsicId <$> views') ⊆+ seqZ 0 (RAND_MAX + 1)).
  { apply NoDup_submseteq; [exact Hnodup|].
    intros id Hid. apply list_elem_of_fmap in Hid as (view' & -> & Hin).
    rewrite Forall_forall in Hall. specialize (Hall _ Hin).
    apply elem_of_seqZ. lia. }
  apply submseteq_length in Hsub.
  rewrite length_fmap, length_seqZ, Hlen in Hsub.
  pose proof (rand_range 0) as Hrange. lia.
Qed.

End NeverShare.

(** ** Writes to the shared objects *)

(** C9, on the code.  A view whose model is written differently from the
    table entry and that carries a 35mm-equivalent value: the iteration
    writes [unsureSensors] and [intrinsicsSetFromFocal35mm] outside any
    critical section.  With two such views the stored "first image"
    depends on the order in which the iterations run. *)
Theorem shared_writes_without_mutual_exclusion :
  let cfg := Reference.options 1 false false in
  let a := Reference.photo "/data/a.jpg" "Canon" "eos 5d" 50%float (Some 50%float) in
  let b := Reference.photo "/data/b.jpg" "Canon" "eos 5d" 50%float (Some 50%float) in
  let run := processViews Reference.platform cfg Reference.noDefaults Reference.sensorTable in
  let writes (r : Step (View * PassState)) := (fun vs => sharedWrites vs.2) <$> completed r in
  let firstUnsure (r : Step (list View * PassState)) :=
    completed r ≫= (fun vs => fst <$> unsureSensors vs.2 !! ("Canon", "eos 5d")) in
  writes (processView Reference.platform cfg Reference.noDefaults Reference.sensorTable a
            Reference.start)
  = Some [ (Intrinsics, Critical); (CompleteViewCount, Atomic);
           (IntrinsicsSetFromFocal35mm, Unguarded); (UnsureSensors, Unguarded) ]
  /\ firstUnsure (run [a; b] Reference.start) = Some "/data/a.jpg"
  /\ firstUnsure (run [b; a] Reference.start) = Some "/data/b.jpg".
Proof.
  intros cfg a b run writes firstUnsure.
  split; [|split]; vm_compute; reflexivity.
Qed.

(** ** The cast of the built intrinsic *)

(** The member call through the cast pointer comes before the null test:
    the iteration is undefined exactly when the cast fails. *)
Lemma buildIntrinsic_null (ext : Externals) (cfg : Config) (defaults : float * float * float)
    (view : View) (l : Locals) (s : PassState) :
  buildIntrinsic ext cfg defaults view l s = NullPointerDereference
  <-> dynamic_cast_Pinhole
        (Some (getViewIntrinsic ext view (l_focalLength l) (l_sensorWidth l)
                 defaults.1.1 (defaultFieldOfView cfg) (defaultCameraModel cfg)
                 defaults.1.2 defaults.2)) = None.
Proof.
  unfold buildIntrinsic. destruct defaults as [[dfp dppx] dppy]. cbn [fst snd].
  destruct (dynamic_cast_Pinhole _) as [intrinsic|]; [|tauto].
  destruct (groupCameraModel cfg =? 0); [destruct (std_rand ext _)|];
    split; discriminate.
Qed.

(** C10.  With the intrinsic builder of the specification, the object
    built for a view that reaches "build intrinsic" is of the pinhole
    family: the cast is not null and no iteration calls
    [setInitializationMode] or [setSerialNumber] through a null pointer.
    The cast has to succeed, since for any builder the iteration is
    undefined exactly when it fails. *)
Theorem built_intrinsic_is_pinhole (ext : Externals) (fixedDefaultModel : EINTRINSIC)
    (focalFromFieldOfView : float -> View -> float) :
  (forall view focalLength sensorWidth dfp dfov model dppx dppy,
      getViewIntrinsic ext view focalLength sensorWidth dfp dfov model dppx dppy
      = getViewIntrinsic_spec fixedDefaultModel focalFromFieldOfView
          view focalLength sensorWidth dfp dfov model dppx dppy) ->
  forall (cfg : Config) (defaults : float * float * float) (sensorDatabase : list Datasheet)
         (view : View) (s : PassState),
    (forall view' l s',
        beforeBuild ext cfg sensorDatabase view s = Build view' l s' ->
        is_Some (dynamic_cast_Pinhole
                   (Some (getViewIntrinsic ext view' (l_focalLength l) (l_sensorWidth l)
                            defaults.1.1 (defaultFieldOfView cfg) (defaultCameraModel cfg)
                            defaults.1.2 defaults.2)))
        /\ buildIntrinsic ext cfg defaults view' l s' ≠ NullPointerDereference)
    /\ processView ext cfg defaults sensorDatabase view s ≠ NullPointerDereference
    /\ (forall (other : Externals) view' l s',
           buildIntrinsic other cfg defaults view' l s' = NullPointerDereference
           <-> dynamic_cast_Pinhole
                 (Some (getViewIntrinsic other view' (l_focalLength l) (l_sensorWidth l)
                          defaults.1.1 (defaultFieldOfView cfg) (defaultCameraModel cfg)
                          defaults.1.2 defaults.2)) = None).
Proof.
  intros Hbuilder cfg defaults sensorDatabase view s.
  assert (Hcast : forall view' l,
             is_Some (dynamic_cast_Pinhole
                        (Some (getViewIntrinsic ext view' (l_focalLength l) (l_sensorWidth l)
                                 defaults.1.1 (defaultFieldOfView cfg) (defaultCameraModel cfg)
                                 defaults.1.2 defaults.2)))).
  { intros view' l. rewrite Hbuilder. unfold getViewIntrinsic_spec.
    cbn [dynamic_cast_Pinhole]. eauto. }
  assert (Hbuild : forall view' l s',
             buildIntrinsic ext cfg defaults view' l s' ≠ NullPointerDereference).
  { intros view' l s' Hnull. apply buildIntrinsic_null in Hnull.
    destruct (Hcast view' l) as [p Hp]. congruence. }
  split; [|split].
  - intros view' l s' _. split; [apply Hcast | apply Hbuild].
  - unfold processView. destruct (beforeBuild ext cfg sensorDatabase view s);
      [discriminate | apply Hbuild].
  - intros other view' l s'. apply buildIntrinsic_null.
Qed.

(** A photograph found in the sensor table reaches "build intrinsic" on
    the example platform, whose builder is the one of the specification. *)
Lemma built_intrinsic_is_pinhole_witness :
  let view := Reference.photo "/data/a.jpg" "Canon" "EOS 5D" 50%float None in
  (forall view focalLength sensorWidth dfp dfov model dppx dppy,
      getViewIntrinsic Reference.platform view focalLength sensorWidth dfp dfov model dppx dppy
      = getViewIntrinsic_spec PINHOLE_CAMERA_RADIAL3 Reference.noFieldOfView
          view focalLength sensorWidth dfp dfov model dppx dppy)
  /\ reachesBuild (beforeBuild Reference.platform (Reference.options 1 false false)
                     Reference.sensorTable view Reference.start) = true
  /\ processView Reference.platform (Reference.options 1 false false) Reference.noDefaults
       Reference.sensorTable view Reference.start ≠ NullPointerDereference.
Proof.
  intros view.
  assert (Hbuilder : forall view focalLength sensorWidth dfp dfov model dppx dppy,
             getViewIntrinsic Reference.platform view focalLength sensorWidth dfp dfov model
               dppx dppy
             = getViewIntrinsic_spec PINHOLE_CAMERA_RADIAL3 Reference.noFieldOfView
                 view focalLength sensorWidth dfp dfov model dppx dppy)
    by reflexivity.
  split; [exact Hbuilder|]. split.
  - vm_compute. reflexivity.
  - apply (built_intrinsic_is_pinhole Reference.platform PINHOLE_CAMERA_RADIAL3
             Reference.noFieldOfView Hbuilder (Reference.options 1 false false)
             Reference.noDefaults Reference.sensorTable view Reference.start).
Defined.

(** ** Supporting facts *)

(** *** Iteration order of a map with integer keys *)

#[local] Instance key_le_total {A : Type} : Total (@key_le A).
Proof. intros a b. unfold key_le. lia. Qed.

#[local] Instance key_le_transitive {A : Type} : Transitive (@key_le A).
Proof. intros a b c. unfold key_le. lia. Qed.

Lemma in_key_order_sorted {A : Type} (m : gmap Z A) :
  StronglySorted key_le (in_key_order m).
Proof. apply StronglySorted_merge_sort; apply _. Qed.

(** [begin()] is the entry with the least key: [nbPoses] is its count. *)
Lemma firstNbPoses_least (subPoses : gmap Z nat) (subPoseId : Z) (nbPose : nat) :
  subPoses !! subPoseId = Some nbPose ->
  (forall k, is_Some (subPoses !! k) -> subPoseId <= k) ->
  firstNbPoses subPoses = nbPose.
Proof.
  intros Hentry Hleast. unfold firstNbPoses.
  pose proof (in_key_order_sorted subPoses) as Hsorted.
  pose proof (proj2 (elem_of_in_key_order subPoses subPoseId nbPose) Hentry) as Hin.
  destruct (in_key_order subPoses) as [|[k c] rest] eqn:Horder.
  - inversion Hin.
  - assert (Hhead : subPoses !! k = Some c).
    { apply elem_of_in_key_order. rewrite Horder. left. }
    apply StronglySorted_inv in Hsorted as [_ Hrest].
    rewrite Forall_forall in Hrest.
    assert (Hk : k = subPoseId).
    { apply Z.le_antisymm.
      - apply elem_of_cons in Hin as [Heq | Hin]; [injection Heq; lia|].
        apply (Hrest _ Hin).
      - apply Hleast. eauto. }
    subst k. congruence.
Qed.

(** In a rig that passes the check, the first sub-pose is sub-pose 0. *)
Lemma firstNbPoses_sequential (subPoses : gmap Z nat) (nbPose : nat) :
  subPosesAreSequential subPoses ->
  subPoses !! 0 = Some nbPose ->
  firstNbPoses subPoses = nbPose.
Proof.
  intros Hseq Hzero. apply (firstNbPoses_least _ 0); [exact Hzero|].
  intros k Hk. apply (proj1 (sequential_iff_in_range subPoses) Hseq k Hk).
Qed.

(** *** The estimator when nothing is missing *)

(** For every view with a 35mm-equivalent value, a resolved sensor width
    and a known focal length, the block keeps both values and still marks
    the view and stores its entry. *)
Lemma estimateFromFocal35mm_both_known (ext : Externals) (view : View)
    (focalIn35mm focalLength sensorWidth : float) (mode : EIntrinsicInitMode) (s : PassState) :
  focalIn35mmMetadata view = Some focalIn35mm ->
  sensorWidthResolved sensorWidth -> focalLengthKnown focalLength ->
  estimateFromFocal35mm ext view focalLength sensorWidth mode s
  = {| r_sensorWidth := sensorWidth; r_focalLength := focalLength;
       r_intrinsicInitMode := ESTIMATED_FROM_METADATA;
       r_state :=
         logWrite IntrinsicsSetFromFocal35mm Unguarded
           (set_intrinsicsSetFromFocal35mm
              (emplace (getImagePath view) (sensorWidth, focalLength)
                 (intrinsicsSetFromFocal35mm s)) s) |}.
Proof.
  intros Hmeta Hwidth Hfocal.
  rewrite (estimateFromFocal35mm_present _ _ _ _ _ _ _ Hmeta).
  rewrite (focal35mmFormulas_both_known _ _ _ _ _ Hwidth Hfocal). reflexivity.
Qed.

(** Without the 35mm-equivalent value the block does nothing. *)
Lemma estimateFromFocal35mm_absent (ext : Externals) (view : View) (focalLength sensorWidth : float)
    (mode : EIntrinsicInitMode) (s : PassState) :
  focalIn35mmMetadata view = None ->
  estimateFromFocal35mm ext view focalLength sensorWidth mode s
  = {| r_sensorWidth := sensorWidth; r_focalLength := focalLength;
       r_intrinsicInitMode := mode; r_state := s |}.
Proof. intros Hmeta. unfold estimateFromFocal35mm. rewrite Hmeta. reflexivity. Qed.

(** *** Grouping mode 0 with a generator of two values *)

Example three_views_two_identities :
  let cfg := Reference.options 0 false false in
  let views :=
    [ Reference.photo "/data/a.jpg" "Canon" "EOS 5D" 50%float None;
      Reference.photo "/data/b.jpg" "Canon" "EOS 5D" 35%float None;
      Reference.photo "/data/c.jpg" "Canon" "EOS 5D" 24%float None ] in
  exists views' s,
    processViews coin cfg Reference.noDefaults Reference.sensorTable views
      (initialState ∅ 0) = Ok (views', s)
    /\ ~ NoDup (getIntrinsicId <$> views').
Proof.
  intros cfg views. eexists _, _.
  assert (Hpass : processViews coin cfg Reference.noDefaults Reference.sensorTable views
                    (initialState ∅ 0) = Ok _) by (vm_compute; reflexivity).
  split; [exact Hpass|].
  eapply (never_share_pigeonhole coin cfg Reference.noDefaults Reference.sensorTable 1);
    [reflexivity | reflexivity | | | | | exact Hpass].
  - intros st. cbn [std_rand coin fst]. pose proof (Z.mod_pos_bound st 2). lia.
  - intros r Hr. cbn [to_IndexT coin Reference.platform]. unfold Reference.to_uint32.
    apply Z.mod_small. lia.
  - repeat constructor.
  - cbn. lia.
Qed.

(** *** Which writes are synchronised *)

Lemma appends_refl (s : PassState) : appends s s.
Proof. exists []. split; [reflexivity | constructor]. Qed.

Lemma appends_same (s s' s'' : PassState) :
  appends s s' -> sharedWrites s'' = sharedWrites s' -> appends s s''.
Proof. intros (new & Hnew & Hall) Hsame. exists new. rewrite Hsame. tauto. Qed.

Lemma appends_write (s s' s'' : PassState) (w : SharedObject * Guard) :
  appends s s' -> sharedWrites s'' = w :: sharedWrites s' -> guardedExceptTwo w ->
  appends s s''.
Proof.
  intros (new & Hnew & Hall) Hwrite Hw. exists (w :: new).
  rewrite Hwrite, Hnew. split; [reflexivity | constructor; assumption].
Qed.

Lemma appends_trans (s s' s'' : PassState) :
  appends s s' -> appends s' s'' -> appends s s''.
Proof.
  intros (new & Hnew & Hall) (new' & Hnew' & Hall'). exists (new' ++ new)%list.
  rewrite Hnew', Hnew, app_assoc. split; [reflexivity | apply Forall_app; tauto].
Qed.

Ltac appends_step :=
  first
    [ apply appends_refl
    | eapply appends_same; [apply appends_refl | reflexivity]
    | eapply appends_write;
      [ apply appends_refl | reflexivity
      | unfold guardedExceptTwo; cbn [fst snd]; intros; first [discriminate | tauto] ] ].

Lemma detectRig_appends (ext : Externals) (view : View) (s : PassState) :
  appends s (snd (detectRig ext view s)).
Proof.
  unfold detectRig. destruct (String.eqb _ "rig"); [|appends_step].
  destruct (Stoi.stoi _); [|appends_step]. destruct (Stoi.stoi _); appends_step.
Qed.

Lemma findInSensorDatabase_appends (ext : Externals) (sensorDatabase : list Datasheet)
    (view : View) (focalLength sensorWidth : float) (mode : EIntrinsicInitMode)
    (s : PassState) :
  appends s (r_state (findInSensorDatabase ext sensorDatabase view focalLength sensorWidth mode s)).
Proof.
  unfold findInSensorDatabase. destruct (_ || _); [|appends_step].
  destruct (getInfo ext _ _ _); [|appends_step].
  destruct (negb _); appends_step.
Qed.

Lemma estimateFromFocal35mm_appends (ext : Externals) (view : View) (focalLength sensorWidth : float)
    (mode : EIntrinsicInitMode) (s : PassState) :
  appends s (r_state (estimateFromFocal35mm ext view focalLength sensorWidth mode s)).
Proof.
  unfold estimateFromFocal35mm. destruct (focalIn35mmMetadata view); [|appends_step].
  destruct (focal35mmFormulas _ _ _ _ _). appends_step.
Qed.

Lemma beforeBuild_appends (ext : Externals) (cfg : Config) (sensorDatabase : list Datasheet)
    (view : View) (s : PassState) :
  match beforeBuild ext cfg sensorDatabase view s with
  | Continue _ s' => appends s s'
  | Build _ _ s' => appends s s'
  end.
Proof.
  unfold beforeBuild. pose proof (detectRig_appends ext view s) as Hrig.
  destruct (detectRig ext view s) as [view1 s1]. cbn [snd] in Hrig.
  destruct (intrinsicAlreadyInitialized ext view1 s1).
  { eapply appends_trans; [exact Hrig|]. appends_step. }
  pose proof (findInSensorDatabase_appends ext sensorDatabase view1
                (getMetadataFocalLength view1) (-1)%float SET_FROM_DEFAULT_FOV s1) as Hfound.
  set (found := findInSensorDatabase _ _ _ _ _ _ _) in *.
  pose proof (estimateFromFocal35mm_appends ext view1 (r_focalLength found) (r_sensorWidth found)
                (r_intrinsicInitMode found) (r_state found)) as Hestimated.
  set (estimated := estimateFromFocal35mm _ _ _ _ _ _) in *.
  assert (Hs2 : appends s (r_state estimated))
    by (eapply appends_trans; [eapply appends_trans|]; eassumption).
  destruct (_ =? -1)%float; [|exact Hs2].
  destruct (_ || _); destruct (allowIncompleteOutput cfg);
    (eapply appends_trans; [exact Hs2|]); appends_step.
Qed.

Lemma buildIntrinsic_appends (ext : Externals) (cfg : Config)
    (defaults : float * float * float) (view view' : View) (l : Locals) (s s' : PassState) :
  buildIntrinsic ext cfg defaults view l s = Ok (view', s') -> appends s s'.
Proof.
  unfold buildIntrinsic. destruct defaults as [[dfp dppx] dppy].
  destruct (dynamic_cast_Pinhole _) as [intrinsic|]; [|discriminate].
  set (s1 := if (0 <? _)%float then _ else s).
  assert (Hs1 : appends s s1) by (subst s1; destruct (0 <? _)%float; appends_step).
  destruct (groupCameraModel cfg =? 0); [destruct (std_rand ext _)|];
    intros [= _ <-]; (eapply appends_trans; [exact Hs1|]); appends_step.
Qed.

(** Every write of an iteration is inside a critical section or atomic,
    except those to [unsureSensors] and [intrinsicsSetFromFocal35mm]. *)
Lemma processView_appends (ext : Externals) (cfg : Config) (defaults : float * float * float)
    (sensorDatabase : list Datasheet) (view view' : View) (s s' : PassState) :
  processView ext cfg defaults sensorDatabase view s = Ok (view', s') -> appends s s'.
Proof.
  unfold processView. pose proof (beforeBuild_appends ext cfg sensorDatabase view s) as Hbefore.
  destruct (beforeBuild ext cfg sensorDatabase view s) as [v1 s1 | v1 l s1].
  - intros [= _ <-]. exact Hbefore.
  - intros Hbuild. eapply appends_trans; [exact Hbefore|].
    apply (buildIntrinsic_appends _ _ _ _ _ _ _ _ Hbuild).
Qed.

(** * Further properties of the program *)

(** ** [listFiles] *)

(** Induction over a file tree, with the property known for every entry
    of a directory. *)
Lemma FsNode_induction (P : FsNode -> Prop) :
  (forall path, P (RegularFile path)) ->
  (forall path entries, Forall P entries -> P (Directory path entries)) ->
  (forall path, P (OtherNode path)) ->
  forall node, P node.
Proof.
  intros Hfile Hdir Hother. fix IH 1. intros [path | path entries | path].
  - apply Hfile.
  - apply Hdir. induction entries as [|entry entries IHentries]; constructor.
    + apply IH.
    + exact IHentries.
  - apply Hother.
Qed.

Lemma listFiles_spec (folderOrFile : FsNode) (extensions resources : list string) :
  listFiles folderOrFile extensions resources
  = (existsb (hasListedExtension extensions) (regularFiles folderOrFile),
     (resources
        ++ List.filter (hasListedExtension extensions) (regularFiles folderOrFile))%list).
Proof.
  revert resources. induction folderOrFile as [path | path entries IH | path]
    using FsNode_induction; intros resources.
  - cbn [listFiles regularFiles existsb List.filter].
    destruct (hasListedExtension extensions path); cbn [orb];
      [reflexivity | rewrite app_nil_r; reflexivity].
  - cbn [listFiles regularFiles].
    match goal with
    | |- ?visit entries false resources = (existsb ?m (?all entries), _) =>
        enough (Hloop : forall hasFile res,
                   visit entries hasFile res
                   = (hasFile || existsb m (all entries),
                      (res ++ List.filter m (all entries))%list))
          by apply (Hloop false resources)
    end.
    induction IH as [|entry entries Hentry _ IHentries]; intros hasFile res.
    + cbn [existsb List.filter]. rewrite orb_false_r, app_nil_r. reflexivity.
    + rewrite Hentry, IHentries.
      rewrite existsb_app, List.filter_app, app_assoc.
      destruct (existsb (hasListedExtension extensions) (regularFiles entry)), hasFile;
        reflexivity.
  - cbn [listFiles regularFiles existsb List.filter]. rewrite app_nil_r. reflexivity.
Qed.

(** X1. The paths appended by [listFiles] are the regular files below the
    node whose lowered extension is listed, in the order of the
    traversal; what [resources] held stays in front; and the result is
    [true] exactly when there is such a file. *)
Theorem listFiles_lists_matching_files (folderOrFile : FsNode) (extensions resources : list string) :
  listFiles folderOrFile extensions resources
  = (existsb (hasListedExtension extensions) (regularFiles folderOrFile),
     (resources
        ++ List.filter (hasListedExtension extensions) (regularFiles folderOrFile))%list).
Proof. apply listFiles_spec. Qed.

(** X2. The result tells whether [resources] grew, and growing is all the
    call does to it. *)
Theorem listFiles_true_iff_appended (folderOrFile : FsNode) (extensions resources : list string) :
  let r := listFiles folderOrFile extensions resources in
  (exists found, snd r = (resources ++ found)%list
                 /\ (fst r = true <-> found <> [])
                 /\ (fst r = false <-> snd r = resources))
  /\ (length resources <= length (snd r))%nat.
Proof.
  intros r. subst r. rewrite listFiles_spec. cbn [fst snd].
  set (m := hasListedExtension extensions). set (files := regularFiles folderOrFile).
  assert (Hfound : existsb m files = true <-> List.filter m files <> []).
  { induction files as [|file files IHfiles]; cbn [existsb List.filter].
    - split; [discriminate | congruence].
    - destruct (m file); cbn [orb]; [split; [discriminate | reflexivity] | exact IHfiles]. }
  split; [|rewrite length_app; lia].
  exists (List.filter m files). split; [reflexivity|]. split; [exact Hfound|].
  rewrite <- not_true_iff_false, Hfound. split.
  - intros Hnone. destruct (List.filter m files); [apply app_nil_r | exfalso; apply Hnone; discriminate].
  - intros Hsame Hsome. apply Hsome.
    apply (f_equal (@length _)) in Hsame. rewrite length_app in Hsame.
    destruct (List.filter m files); [reflexivity | cbn in Hsame; lia].
Qed.

Lemma tolower_string_no_upper (s : string) : hasUpper (tolower_string s) = false.
Proof.
  induction s as [|c s IH]; [reflexivity|].
  cbn [tolower_string hasUpper]. rewrite IH, orb_false_r.
  unfold isupper, tolower.
  destruct ((65 <=? N_of_ascii c)%N && (N_of_ascii c <=? 90)%N) eqn:Hup; [|exact Hup].
  apply andb_true_iff in Hup as [Hlow Hhigh].
  apply N.leb_le in Hlow, Hhigh.
  assert (Hlt : (N_of_ascii c + 32 < 256)%N) by lia.
  rewrite N_ascii_embedding by exact Hlt.
  apply andb_false_iff. right. apply N.leb_gt. lia.
Qed.

(** X3. The extension of the file is lowered before the comparison and the
    listed extensions are not: an entry with an upper-case letter matches
    no file, so a filter made of such entries lists nothing. *)
Theorem listFiles_upper_case_filter (folderOrFile : FsNode) (extensions resources : list string) :
  Forall (fun e => hasUpper e = true) extensions ->
  listFiles folderOrFile extensions resources = (false, resources).
Proof.
  intros Hupper.
  assert (Hnone : forall path, hasListedExtension extensions path = false).
  { intros path. unfold hasListedExtension.
    apply not_true_iff_false. intros Hex. apply existsb_exists in Hex as (e & Hin & Heq).
    apply String.eqb_eq in Heq. rewrite Forall_forall in Hupper.
    specialize (Hupper e (proj2 (list_elem_of_In _ _) Hin)).
    rewrite <- Heq, tolower_string_no_upper in Hupper. discriminate. }
  rewrite listFiles_spec.
  induction (regularFiles folderOrFile) as [|file files IH]; cbn [existsb List.filter].
  - rewrite app_nil_r. reflexivity.
  - rewrite Hnone. cbn [orb]. exact IH.
Qed.

Lemma listFiles_upper_case_filter_witness :
  Forall (fun e => hasUpper e = true) [".JPG"; ".Tif"]
  /\ listFiles (Directory "/data" [RegularFile "/data/a.JPG"; RegularFile "/data/b.jpg"])
       [".JPG"; ".Tif"] []
     = (false, []).
Proof.
  assert (Hupper : Forall (fun e => hasUpper e = true) [".JPG"; ".Tif"])
    by (repeat constructor).
  split; [exact Hupper|].
  apply (listFiles_upper_case_filter _ _ _ Hupper).
Defined.

Example listFiles_image_folder :
  listFiles
    (Directory "/data"
       [ RegularFile "/data/a.JPG";
         Directory "/data/rig" [Directory "/data/rig/0" [RegularFile "/data/rig/0/1.tiff"]];
         RegularFile "/data/notes.txt";
         OtherNode "/data/link";
         RegularFile "/data/b.jpeg" ])
    imageExtensions ["/old.exr"]
  = (true, ["/old.exr"; "/data/a.JPG"; "/data/rig/0/1.tiff"; "/data/b.jpeg"]).
Proof. reflexivity. Qed.

(** ** [checkIntrinsicStringValidity] and the intrinsic options *)

Lemma split_fields_length (sep : ascii) (s : string) :
  length (split_fields sep s) = S (count_char sep s).
Proof.
  induction s as [|c s IH]; [reflexivity|].
  cbn [split_fields count_char]. destruct (Ascii.eqb c sep).
  - simpl. rewrite IH. reflexivity.
  - destruct (split_fields sep s) as [|f fs]; [discriminate IH|]. simpl in *. exact IH.
Qed.

Lemma readPrefix_all (ext : Externals) (fields : list string) :
  length (readPrefix ext fields) = length fields
  <-> Forall (fun field => is_Some (extractDouble ext field)) fields.
Proof.
  induction fields as [|field rest IH]; cbn [readPrefix].
  - split; [constructor | reflexivity].
  - rewrite Forall_cons. destruct (extractDouble ext field) as [value|].
    + cbn [length]. split.
      * intros [= Hlen]. split; [eauto | apply IH, Hlen].
      * intros [_ Hrest]. f_equal. apply IH, Hrest.
    + cbn [length]. split; [discriminate | intros [[x Hx] _]; discriminate].
Qed.

(** The loop of the function, started at field [i]: the output of index
    [j] is overwritten exactly when field [j] is reached and reads. *)
Lemma readKMatrixFields_outputs (ext : Externals) (fields : list string) :
  forall (i : nat) (focal ppx ppy : float),
    let values := readPrefix ext fields in
    let output (j : nat) (old : float) :=
      if (i <=? j)%nat then nth (j - i) values old else old in
    readKMatrixFields ext i fields focal ppx ppy
    = ((length values =? length fields)%nat, (output 0%nat focal, output 2%nat ppx, output 5%nat ppy)).
Proof.
  induction fields as [|field rest IH]; intros i focal ppx ppy; cbn [readKMatrixFields readPrefix].
  - cbn zeta. cbn [length Nat.eqb].
    repeat match goal with |- context [nth ?n [] ?d] => replace (nth n [] d) with d by (destruct n; reflexivity) end.
    repeat match goal with |- context [if ?b then ?x else ?x] => replace (if b then x else x) with x by (destruct b; reflexivity) end.
    reflexivity.
  - destruct (extractDouble ext field) as [value|].
    + rewrite IH. cbn zeta. cbn [length Nat.eqb]. f_equal. 
      assert (Hstep : forall j old,
                 (if (S i <=? j)%nat
                  then nth (j - S i) (readPrefix ext rest) (if (i =? j)%nat then value else old)
                  else if (i =? j)%nat then value else old)
                 = (if (i <=? j)%nat then nth (j - i) (value :: readPrefix ext rest) old else old)).
      { intros j old.
        destruct (Nat.leb_spec (S i) j) as [Hlt | Hge].
        - assert (Hne : (i =? j)%nat = false) by (apply Nat.eqb_neq; lia).
          assert (Hle : (i <=? j)%nat = true) by (apply Nat.leb_le; lia).
          rewrite Hne, Hle. replace (j - i)%nat with (S (j - S i)) by lia. reflexivity.
        - destruct (Nat.eqb_spec i j) as [-> | Hne].
          + rewrite Nat.leb_refl, Nat.sub_diag. reflexivity.
          + assert (Hgt : (i <=? j)%nat = false) by (apply Nat.leb_gt; lia).
            rewrite Hgt. reflexivity. }
      rewrite <- !Hstep. reflexivity.
    + cbn zeta. cbn [length Nat.eqb].
      repeat match goal with |- context [nth ?n [] ?d] => replace (nth n [] d) with d by (destruct n; reflexivity) end.
      repeat match goal with |- context [if ?b then ?x else ?x] => replace (if b then x else x) with x by (destruct b; reflexivity) end.
      reflexivity.
Qed.

(** X4. What the function leaves in its three output parameters, accepted or
    not: with a field count other than 9 they are untouched; otherwise
    focal, ppx and ppy are overwritten by fields 0, 2 and 5 as far as the
    fields read as numbers from the first one on, also when a later field
    makes the function return [false].  The string is accepted when all 9
    read. *)
Theorem checkIntrinsicStringValidity_outputs (ext : Externals) (Kmatrix : string)
    (focal ppx ppy : float) :
  let fields := split_fields ";" Kmatrix in
  let values := readPrefix ext fields in
  checkIntrinsicStringValidity ext Kmatrix focal ppx ppy
  = if (length fields =? 9)%nat then
      ((length values =? 9)%nat, (nth 0 values focal, nth 2 values ppx, nth 5 values ppy))
    else (false, (focal, ppx, ppy)).
Proof.
  intros fields values. unfold checkIntrinsicStringValidity. fold fields.
  destruct (length fields =? 9)%nat eqn:Hlen; cbn [negb]; [|reflexivity].
  rewrite readKMatrixFields_outputs. fold values. cbn zeta.
  apply Nat.eqb_eq in Hlen. rewrite Hlen. reflexivity.
Qed.

(** X5. An accepted K-matrix string holds exactly eight semicolons. *)
Theorem accepted_kmatrix_has_eight_separators (ext : Externals) (Kmatrix : string)
    (focal ppx ppy : float) :
  fst (checkIntrinsicStringValidity ext Kmatrix focal ppx ppy) = true
  <-> count_char ";" Kmatrix = 8%nat
      /\ Forall (fun field => is_Some (extractDouble ext field)) (split_fields ";" Kmatrix).
Proof.
  rewrite checkIntrinsicStringValidity_accepts, split_fields_length. intuition lia.
Qed.

Lemma checkIntrinsicOptions_None (ext : Externals) (cfg : Config) :
  let K := defaultIntrinsicKMatrix cfg in
  let hasFocal := (0 <? defaultFocalLengthPixel cfg)%float = true in
  let hasFieldOfView := (0 <? defaultFieldOfView cfg)%float = true in
  checkIntrinsicOptions ext cfg = None
  <-> (K ≠ "" /\ hasFocal) \/ (K ≠ "" /\ hasFieldOfView) \/ (hasFocal /\ hasFieldOfView)
      \/ (K ≠ ""
          /\ ~ (length (split_fields ";" K) = 9%nat
                /\ Forall (fun field => is_Some (extractDouble ext field))
                     (split_fields ";" K))).
Proof.
  intros K hasFocal hasFieldOfView. subst hasFocal hasFieldOfView.
  unfold checkIntrinsicOptions. fold K.
  pose proof (checkIntrinsicStringValidity_accepts ext K (defaultFocalLengthPixel cfg)
                (-1)%float (-1)%float) as Haccept.
  destruct (String.eqb K "") eqn:HK;
    [apply String.eqb_eq in HK | apply String.eqb_neq in HK];
    destruct (0 <? defaultFocalLengthPixel cfg)%float;
    destruct (0 <? defaultFieldOfView cfg)%float; cbn [negb andb];
    try (split; [intros _; tauto | reflexivity]);
    try (split; [discriminate | intros [[? ?] | [[? ?] | [[? ?] | [? ?]]]]; congruence]).
  destruct (checkIntrinsicStringValidity ext K _ _ _) as [[|] r]; cbn [fst] in Haccept.
  - split; [discriminate|].
    intros [[_ H] | [[_ H] | [[H _] | [_ H]]]]; try discriminate.
    exfalso. apply H, Haccept. reflexivity.
  - split; [|reflexivity]. intros _. right. right. right. split; [exact HK|].
    intros H. apply Haccept in H. discriminate.
Qed.

(** X6. [main] reports the configuration failure exactly when two of the
    three intrinsic options are set or the K-matrix, being set, is not 9
    fields that all read as numbers: no later stage of the run ends with
    that failure. *)
Theorem invalid_configuration_iff (ext : Externals) (cfg : Config)
    (sensorDatabase : option (list Datasheet)) (input : option SfMData) (now : Z)
    (saveOk : bool) :
  let K := defaultIntrinsicKMatrix cfg in
  let hasFocal := (0 <? defaultFocalLengthPixel cfg)%float = true in
  let hasFieldOfView := (0 <? defaultFieldOfView cfg)%float = true in
  main ext cfg sensorDatabase input now saveOk = EXIT_FAILURE InvalidConfiguration
  <-> (K ≠ "" /\ hasFocal) \/ (K ≠ "" /\ hasFieldOfView) \/ (hasFocal /\ hasFieldOfView)
      \/ (K ≠ ""
          /\ ~ (length (split_fields ";" K) = 9%nat
                /\ Forall (fun field => is_Some (extractDouble ext field))
                     (split_fields ";" K))).
Proof.
  intros K hasFocal hasFieldOfView.
  pose proof (checkIntrinsicOptions_None ext cfg) as Hnone. cbn zeta in Hnone.
  fold K hasFocal hasFieldOfView in Hnone.
  etransitivity; [|exact Hnone]. split.
  - unfold main. destruct (checkIntrinsicOptions ext cfg) as [defaults|]; [|reflexivity].
    destruct sensorDatabase as [database|]; [|discriminate].
    destruct input as [sfmData|]; [|discriminate].
    destruct (getViews sfmData) as [|view views]; [discriminate|].
    destruct (processViews _ _ _ _ _ _) as [[views' s]|]; [|discriminate].
    destruct (createRigs _ _) as [e|rigs]; [discriminate|].
    destruct (passFailPolicy cfg s) as [why|] eqn:Hpolicy.
    + destruct (passFailPolicy_reason _ _ _ Hpolicy) as [-> | ->]; discriminate.
    + destruct saveOk; discriminate.
  - apply main_stops_on_invalid_options.
Qed.

(** ** What an iteration of the loop keeps *)

Lemma sameImage_refl (v : View) : sameImage v v.
Proof. repeat split. Qed.

Lemma sameImage_trans (v v' v'' : View) : sameImage v v' -> sameImage v' v'' -> sameImage v v''.
Proof. unfold sameImage. intuition congruence. Qed.

Lemma detectRig_sameImage (ext : Externals) (view : View) (s : PassState) :
  sameImage view (fst (detectRig ext view s)).
Proof.
  unfold detectRig. destruct (String.eqb _ "rig"); [|apply sameImage_refl].
  destruct (Stoi.stoi _); [|apply sameImage_refl].
  destruct (Stoi.stoi _); [|apply sameImage_refl]. repeat split.
Qed.

(** The rig detection writes the rig table and the warnings only. *)
Lemma detectRig_frame (ext : Externals) (view : View) (s : PassState) :
  let s' := snd (detectRig ext view s) in
  intrinsics s' = intrinsics s /\ completeViewCount s' = completeViewCount s
  /\ randState s' = randState s /\ noMetadataImagePaths s' = noMetadataImagePaths s
  /\ unknownSensors s' = unknownSensors s /\ unsureSensors s' = unsureSensors s
  /\ intrinsicsSetFromFocal35mm s' = intrinsicsSetFromFocal35mm s.
Proof.
  unfold detectRig. destruct (String.eqb _ "rig"); [|repeat split].
  destruct (Stoi.stoi _); [|repeat split]. destruct (Stoi.stoi _); repeat split.
Qed.

(** The sensor lookup writes the unsure-sensor map only. *)
Lemma findInSensorDatabase_frame (ext : Externals) (sensorDatabase : list Datasheet)
    (view : View) (focalLength sensorWidth : float) (mode : EIntrinsicInitMode)
    (s : PassState) :
  let s' := r_state (findInSensorDatabase ext sensorDatabase view focalLength sensorWidth mode s) in
  intrinsics s' = intrinsics s /\ completeViewCount s' = completeViewCount s
  /\ randState s' = randState s /\ noMetadataImagePaths s' = noMetadataImagePaths s
  /\ unknownSensors s' = unknownSensors s /\ detectedRigs s' = detectedRigs s
  /\ rigWarnings s' = rigWarnings s
  /\ intrinsicsSetFromFocal35mm s' = intrinsicsSetFromFocal35mm s.
Proof.
  unfold findInSensorDatabase. destruct (_ || _); [|repeat split].
  destruct (getInfo ext _ _ _); [|repeat split]. destruct (negb _); repeat split.
Qed.

(** The estimator writes the 35mm-estimation map only. *)
Lemma estimateFromFocal35mm_frame (ext : Externals) (view : View) (focalLength sensorWidth : float)
    (mode : EIntrinsicInitMode) (s : PassState) :
  let s' := r_state (estimateFromFocal35mm ext view focalLength sensorWidth mode s) in
  intrinsics s' = intrinsics s /\ completeViewCount s' = completeViewCount s
  /\ randState s' = randState s /\ noMetadataImagePaths s' = noMetadataImagePaths s
  /\ unknownSensors s' = unknownSensors s /\ unsureSensors s' = unsureSensors s
  /\ detectedRigs s' = detectedRigs s /\ rigWarnings s' = rigWarnings s.
Proof.
  unfold estimateFromFocal35mm. destruct (focalIn35mmMetadata view); [|repeat split].
  destruct (focal35mmFormulas _ _ _ _ _). repeat split.
Qed.

(** Up to "build intrinsic" an iteration leaves the intrinsics and the
    generator alone, changes the rig table only by the rig detection, and
    counts a view only when it ends there with an initialized intrinsic. *)
Lemma beforeBuild_frame (ext : Externals) (cfg : Config) (sensorDatabase : list Datasheet)
    (view : View) (s : PassState) :
  let detected := detectRig ext view s in
  match beforeBuild ext cfg sensorDatabase view s with
  | Continue view' s' =>
      intrinsics s' = intrinsics s /\ randState s' = randState s
      /\ detectedRigs s' = detectedRigs (snd detected)
      /\ (view' = fst detected
          /\ completeViewCount s' = S (completeViewCount s)
          /\ intrinsicAlreadyInitialized ext (fst detected) (snd detected) = true
          \/ view' = setIntrinsicId (UndefinedIndexT ext) (fst detected)
             /\ completeViewCount s' = completeViewCount s
             /\ allowIncompleteOutput cfg = true)
  | Build view' l s' =>
      intrinsics s' = intrinsics s /\ randState s' = randState s
      /\ detectedRigs s' = detectedRigs (snd detected)
      /\ view' = fst detected /\ completeViewCount s' = completeViewCount s
      /\ l_intrinsicId l = getIntrinsicId (fst detected)
      /\ l_hasCameraMetadata l = hasCameraMetadata (fst detected)
      /\ intrinsicAlreadyInitialized ext (fst detected) (snd detected) = false
  end.
Proof.
  intros detected. subst detected. unfold beforeBuild.
  pose proof (detectRig_frame ext view s) as Hrig. cbn zeta in Hrig.
  destruct (detectRig ext view s) as [view1 s1]. cbn [fst snd] in *.
  destruct Hrig as (Hi & Hc & Hr & _).
  destruct (intrinsicAlreadyInitialized ext view1 s1) eqn:Hinit.
  { cbn [intrinsics randState detectedRigs completeViewCount logWrite set_completeViewCount].
    rewrite Hi, Hr, Hc. tauto. }
  pose proof (findInSensorDatabase_frame ext sensorDatabase view1
                (getMetadataFocalLength view1) (-1)%float SET_FROM_DEFAULT_FOV s1) as Hfound.
  cbn zeta in Hfound. set (found := findInSensorDatabase _ _ _ _ _ _ _) in *.
  pose proof (estimateFromFocal35mm_frame ext view1 (r_focalLength found) (r_sensorWidth found)
                (r_intrinsicInitMode found) (r_state found)) as Hestimated.
  cbn zeta in Hestimated. set (estimated := estimateFromFocal35mm _ _ _ _ _ _) in *.
  destruct Hfound as (Hi1 & Hc1 & Hr1 & _ & _ & Hd1 & _).
  destruct Hestimated as (Hi2 & Hc2 & Hr2 & _ & _ & _ & Hd2 & _).
  assert (Hi' : intrinsics (r_state estimated) = intrinsics s) by congruence.
  assert (Hr' : randState (r_state estimated) = randState s) by congruence.
  assert (Hc' : completeViewCount (r_state estimated) = completeViewCount s) by congruence.
  assert (Hd' : detectedRigs (r_state estimated) = detectedRigs s1) by congruence.
  destruct (_ =? -1)%float; [|cbn [l_intrinsicId l_hasCameraMetadata]; unfold hasCameraMetadata; tauto].
  destruct (_ || _) eqn:Hmeta; destruct (allowIncompleteOutput cfg);
    cbn [intrinsics randState detectedRigs completeViewCount logWrite set_unknownSensors
           set_noMetadataImagePaths l_intrinsicId l_hasCameraMetadata];
    unfold hasCameraMetadata; rewrite ?Hmeta; tauto.
Qed.

(** "build intrinsic" stores the built intrinsic under the identity it
    gives the view, unless that key is taken, and touches no diagnostics
    bucket and no rig entry. *)
Lemma buildIntrinsic_frame (ext : Externals) (cfg : Config) (defaults : float * float * float)
    (view view' : View) (l : Locals) (s s' : PassState) :
  buildIntrinsic ext cfg defaults view l s = Ok (view', s') ->
  (exists p, intrinsics s' = emplace (getIntrinsicId view') (PinholeObject p) (intrinsics s)
             /\ getInitializationMode p = l_intrinsicInitMode l)
  /\ sameImage view view'
  /\ getRigId view' = getRigId view /\ getSubPoseId view' = getSubPoseId view
  /\ getFrameId view' = getFrameId view
  /\ detectedRigs s' = detectedRigs s
  /\ (completeViewCount s <= completeViewCount s' <= S (completeViewCount s))%nat
  /\ (groupCameraModel cfg ≠ 0 ->
      randState s' = randState s
      /\ (l_intrinsicId l ≠ UndefinedIndexT ext -> getIntrinsicId view' = l_intrinsicId l)).
Proof.
  unfold buildIntrinsic. destruct defaults as [[dfp dppx] dppy].
  destruct (dynamic_cast_Pinhole _) as [intrinsic|]; [|discriminate].
  set (intrinsic1 := setInitializationMode (l_intrinsicInitMode l) intrinsic).
  set (s1 := if (0 <? _)%float then _ else s).
  assert (Hs1 : intrinsics s1 = intrinsics s /\ detectedRigs s1 = detectedRigs s
                /\ randState s1 = randState s
                /\ (completeViewCount s <= completeViewCount s1 <= S (completeViewCount s))%nat).
  { subst s1. destruct (0 <? _)%float; cbn; repeat split; lia. }
  destruct Hs1 as (Hi & Hd & Hr & Hc).
  set (intrinsic2 := if negb (l_hasCameraMetadata l) then _ else intrinsic1).
  assert (Hmode : getInitializationMode intrinsic2 = l_intrinsicInitMode l).
  { subst intrinsic2. destruct (negb _); [|reflexivity].
    destruct (isPartOfRig ext view); destruct (groupCameraModel cfg =? 2); reflexivity. }
  destruct (groupCameraModel cfg =? 0) eqn:Hgroup.
  - destruct (std_rand ext (randState s1)) as [r next]. intros [= <- <-].
    cbn [intrinsics getIntrinsicId setIntrinsicId logWrite set_intrinsics set_randState
           detectedRigs completeViewCount randState getRigId getSubPoseId getFrameId].
    rewrite Hi, Hd. split; [eauto|]. split; [repeat split|].
    repeat split; try lia. all: apply Z.eqb_eq in Hgroup; contradiction.
  - intros [= <- <-].
    cbn [intrinsics getIntrinsicId setIntrinsicId logWrite set_intrinsics
           detectedRigs completeViewCount randState getRigId getSubPoseId getFrameId].
    rewrite Hi, Hd, Hr. split; [eauto|]. split; [repeat split|].
    repeat split; try lia.
    intros Hid. apply Z.eqb_neq in Hid. rewrite Hid. reflexivity.
Qed.

Lemma emplace_preserves `{Countable K} {V : Type} (k k' : K) (v x : V) (m : gmap K V) :
  m !! k = Some x -> emplace k' v m !! k = Some x.
Proof.
  intros Hk. destruct (decide (k' = k)) as [-> | Hne].
  - rewrite (lookup_emplace_present _ _ _ _ Hk). exact Hk.
  - rewrite lookup_emplace_other by exact Hne. exact Hk.
Qed.

Lemma intrinsicAlreadyInitialized_present (ext : Externals) (view : View) (s : PassState) :
  intrinsicAlreadyInitialized ext view s = true ->
  getIntrinsicId view ≠ UndefinedIndexT ext
  /\ exists p, intrinsics s !! getIntrinsicId view = Some (PinholeObject p)
               /\ (0 <? getFocalLengthPix p)%float = true.
Proof.
  unfold intrinsicAlreadyInitialized.
  destruct (getIntrinsicId view =? UndefinedIndexT ext) eqn:Hid; [discriminate|].
  apply Z.eqb_neq in Hid. split; [exact Hid|].
  destruct (intrinsics s !! getIntrinsicId view) as [[p|sn]|]; cbn in *; try discriminate.
  eauto.
Qed.

Lemma detectRig_detectedRigs (ext : Externals) (view : View) (s : PassState) :
  detectedRigs (snd (detectRig ext view s))
  = match detectedRigKey ext view with
    | Some (rig, subPose) => incrementDetectedRigs rig subPose (detectedRigs s)
    | None => detectedRigs s
    end.
Proof.
  unfold detectRig, detectedRigKey. destruct (String.eqb _ "rig"); [|reflexivity].
  destruct (Stoi.stoi _); [|reflexivity]. destruct (Stoi.stoi _); reflexivity.
Qed.

(** One iteration: what it keeps of the view and of the shared state. *)
Lemma processView_frame (ext : Externals) (cfg : Config) (defaults : float * float * float)
    (sensorDatabase : list Datasheet) (view view' : View) (s s' : PassState) :
  processView ext cfg defaults sensorDatabase view s = Ok (view', s') ->
  sameImage view view'
  /\ (forall id i, intrinsics s !! id = Some i -> intrinsics s' !! id = Some i)
  /\ (getIntrinsicId view' = UndefinedIndexT ext
      \/ is_Some (intrinsics s' !! getIntrinsicId view'))
  /\ (completeViewCount s <= completeViewCount s' <= S (completeViewCount s))%nat
  /\ detectedRigs s' = detectedRigs (snd (detectRig ext view s))
  /\ (groupCameraModel cfg ≠ 0 -> randState s' = randState s).
Proof.
  unfold processView. pose proof (beforeBuild_frame ext cfg sensorDatabase view s) as Hbefore.
  cbn zeta in Hbefore. pose proof (detectRig_sameImage ext view s) as Himage.
  pose proof (detectRig_frame ext view s) as Hrig. cbn zeta in Hrig.
  destruct Hrig as (Hrigi & _).
  destruct (beforeBuild ext cfg sensorDatabase view s) as [v1 s1 | v1 l s1].
  - intros [= <- <-]. destruct Hbefore as (Hi & Hr & Hd & Hcases).
    rewrite Hi, Hd. destruct Hcases as [(-> & Hc & Hinit) | (-> & Hc & _)].
    + apply intrinsicAlreadyInitialized_present in Hinit as (_ & p & Hp & _).
      rewrite Hrigi in Hp. rewrite Hc.
      split; [exact Himage|]. split; [auto|]. split; [right; rewrite Hp; eauto|].
      split; [lia|]. split; [reflexivity | intros _; exact Hr].
    + rewrite Hc. split.
      { eapply sameImage_trans; [exact Himage | repeat split]. }
      split; [auto|]. split; [left; reflexivity|].
      split; [lia|]. split; [reflexivity | intros _; exact Hr].
  - intros Hbuild. destruct Hbefore as (Hi & Hr & Hd & -> & Hc & _).
    apply buildIntrinsic_frame in Hbuild
      as ((p & Hp & _) & Himage' & _ & _ & _ & Hd' & Hc' & Hrand).
    split; [eapply sameImage_trans; eassumption|].
    split.
    { intros id i Hid. rewrite Hp. apply emplace_preserves. rewrite Hi. exact Hid. }
    split; [right; rewrite Hp; apply emplace_is_Some|].
    split; [lia|]. split; [congruence|].
    intros Hmode. destruct (Hrand Hmode) as [Hr' _]. congruence.
Qed.

(** ** What the loop keeps *)

Lemma processViews_sameImage (ext : Externals) (cfg : Config) (defaults : float * float * float)
    (sensorDatabase : list Datasheet) (views views' : list View) (s s' : PassState) :
  processViews ext cfg defaults sensorDatabase views s = Ok (views', s') ->
  Forall2 sameImage views views'.
Proof.
  revert views' s s'. induction views as [|view rest IH]; intros views' s s'; cbn [processViews].
  - intros [= <- <-]. constructor.
  - destruct (processView ext cfg defaults sensorDatabase view s) as [[view1 s1]|] eqn:Hstep;
      [|discriminate].
    destruct (processViews ext cfg defaults sensorDatabase rest s1) as [[rest1 s2]|] eqn:Hloop;
      [|discriminate].
    intros [= <- <-]. constructor; [|apply (IH _ _ _ Hloop)].
    apply (processView_frame _ _ _ _ _ _ _ _ Hstep).
Qed.

(** X8. The loop returns as many views as it was given, in the same order,
    each with the image path, size and metadata it came with: only the
    intrinsic identity and the rig, sub-pose and frame of a view change. *)
Theorem pass_keeps_the_views (ext : Externals) (cfg : Config) (defaults : float * float * float)
    (sensorDatabase : list Datasheet) (views views' : list View) (s s' : PassState) :
  processViews ext cfg defaults sensorDatabase views s = Ok (views', s') ->
  Forall2 sameImage views views'.
Proof. apply processViews_sameImage. Qed.

Lemma processViews_intrinsics (ext : Externals) (cfg : Config)
    (defaults : float * float * float) (sensorDatabase : list Datasheet)
    (views views' : list View) (s s' : PassState) :
  processViews ext cfg defaults sensorDatabase views s = Ok (views', s') ->
  forall id intrinsic, intrinsics s !! id = Some intrinsic -> intrinsics s' !! id = Some intrinsic.
Proof.
  revert views' s s'. induction views as [|view rest IH]; intros views' s s'; cbn [processViews].
  - intros [= <- <-]. auto.
  - destruct (processView ext cfg defaults sensorDatabase view s) as [[view1 s1]|] eqn:Hstep;
      [|discriminate].
    destruct (processViews ext cfg defaults sensorDatabase rest s1) as [[rest1 s2]|] eqn:Hloop;
      [|discriminate].
    intros [= <- <-] id intrinsic Hid. apply (IH _ _ _ Hloop).
    apply (processView_frame _ _ _ _ _ _ _ _ Hstep), Hid.
Qed.

(** X9. The loop never removes or replaces an intrinsic: every record of the
    intrinsics map before the loop is there, unchanged, after it. *)
Theorem pass_keeps_the_intrinsics (ext : Externals) (cfg : Config)
    (defaults : float * float * float) (sensorDatabase : list Datasheet)
    (views views' : list View) (s s' : PassState) :
  processViews ext cfg defaults sensorDatabase views s = Ok (views', s') ->
  forall id intrinsic, intrinsics s !! id = Some intrinsic -> intrinsics s' !! id = Some intrinsic.
Proof. apply processViews_intrinsics. Qed.

Lemma processViews_references (ext : Externals) (cfg : Config)
    (defaults : float * float * float) (sensorDatabase : list Datasheet)
    (views views' : list View) (s s' : PassState) :
  processViews ext cfg defaults sensorDatabase views s = Ok (views', s') ->
  Forall (fun view' => getIntrinsicId view' = UndefinedIndexT ext
                       \/ is_Some (intrinsics s' !! getIntrinsicId view')) views'.
Proof.
  revert views' s s'. induction views as [|view rest IH]; intros views' s s'; cbn [processViews].
  - intros [= <- <-]. constructor.
  - destruct (processView ext cfg defaults sensorDatabase view s) as [[view1 s1]|] eqn:Hstep;
      [|discriminate].
    destruct (processViews ext cfg defaults sensorDatabase rest s1) as [[rest1 s2]|] eqn:Hloop;
      [|discriminate].
    intros [= <- <-]. constructor; [|apply (IH _ _ _ Hloop)].
    destruct (processView_frame _ _ _ _ _ _ _ _ Hstep) as (_ & _ & [Hundef | [i Hi]] & _);
      [left; exact Hundef | right].
    rewrite (processViews_intrinsics _ _ _ _ _ _ _ _ Hloop _ _ Hi). eauto.
Qed.

(** X10. After the loop the intrinsic identity of every view is
    [UndefinedIndexT] or the key of a record of the intrinsics map,
    whatever identities the views came with. *)
Theorem pass_leaves_no_dangling_intrinsic (ext : Externals) (cfg : Config)
    (defaults : float * float * float) (sensorDatabase : list Datasheet)
    (views views' : list View) (s s' : PassState) :
  processViews ext cfg defaults sensorDatabase views s = Ok (views', s') ->
  Forall (fun view' => getIntrinsicId view' = UndefinedIndexT ext
                       \/ is_Some (intrinsics s' !! getIntrinsicId view')) views'.
Proof. apply processViews_references. Qed.

(** X11. [completeViewCount] grows by at most one per view: after the loop it
    exceeds its value before by no more than the number of views. *)
Theorem pass_counts_a_view_at_most_once (ext : Externals) (cfg : Config)
    (defaults : float * float * float) (sensorDatabase : list Datasheet)
    (views views' : list View) (s s' : PassState) :
  processViews ext cfg defaults sensorDatabase views s = Ok (views', s') ->
  (completeViewCount s <= completeViewCount s' <= completeViewCount s + length views)%nat.
Proof.
  revert views' s s'. induction views as [|view rest IH]; intros views' s s'; cbn [processViews].
  - intros [= <- <-]. cbn. lia.
  - destruct (processView ext cfg defaults sensorDatabase view s) as [[view1 s1]|] eqn:Hstep;
      [|discriminate].
    destruct (processViews ext cfg defaults sensorDatabase rest s1) as [[rest1 s2]|] eqn:Hloop;
      [|discriminate].
    intros [= <- <-]. specialize (IH _ _ _ Hloop).
    destruct (processView_frame _ _ _ _ _ _ _ _ Hstep) as (_ & _ & _ & Hc & _).
    cbn [length]. lia.
Qed.

(** X12. The rig table counts, for every (rig, sub-pose), the views the rig
    detection places there, views with an initialized intrinsic included:
    nothing else in the loop writes it. *)
Theorem pass_counts_rig_observations (ext : Externals) (cfg : Config)
    (defaults : float * float * float) (sensorDatabase : list Datasheet)
    (views views' : list View) (s s' : PassState) (rig subPose : Z) :
  processViews ext cfg defaults sensorDatabase views s = Ok (views', s') ->
  observations rig subPose (detectedRigs s')
  = (observations rig subPose (detectedRigs s)
     + length (List.filter
                 (fun view => bool_decide (detectedRigKey ext view = Some (rig, subPose)))
                 views))%nat.
Proof.
  revert views' s s'. induction views as [|view rest IH]; intros views' s s'; cbn [processViews].
  - intros [= <- <-]. cbn. lia.
  - destruct (processView ext cfg defaults sensorDatabase view s) as [[view1 s1]|] eqn:Hstep;
      [|discriminate].
    destruct (processViews ext cfg defaults sensorDatabase rest s1) as [[rest1 s2]|] eqn:Hloop;
      [|discriminate].
    intros [= <- <-]. rewrite (IH _ _ _ Hloop).
    destruct (processView_frame _ _ _ _ _ _ _ _ Hstep) as (_ & _ & _ & _ & Hd & _).
    rewrite Hd, detectRig_detectedRigs. cbn [List.filter].
    destruct (detectedRigKey ext view) as [[rig1 subPose1]|].
    + destruct (decide ((rig1, subPose1) = (rig, subPose))) as [Heq | Hne].
      * rewrite bool_decide_eq_true_2 by congruence. injection Heq as -> ->.
        rewrite observations_increment. cbn [length]. lia.
      * rewrite bool_decide_eq_false_2 by congruence.
        rewrite observations_increment_other by congruence. reflexivity.
    + rewrite bool_decide_eq_false_2 by discriminate. reflexivity.
Qed.

(** X13. With grouping mode 1 or 2 the loop never calls [std::rand]: the state
    of the generator after the loop is the one [std::srand] left. *)
Theorem pass_without_random_numbers (ext : Externals) (cfg : Config)
    (defaults : float * float * float) (sensorDatabase : list Datasheet)
    (views views' : list View) (s s' : PassState) :
  groupCameraModel cfg ≠ 0 ->
  processViews ext cfg defaults sensorDatabase views s = Ok (views', s') ->
  randState s' = randState s.
Proof.
  intros Hmode. revert views' s s'.
  induction views as [|view rest IH]; intros views' s s'; cbn [processViews].
  - intros [= <- <-]. reflexivity.
  - destruct (processView ext cfg defaults sensorDatabase view s) as [[view1 s1]|] eqn:Hstep;
      [|discriminate].
    destruct (processViews ext cfg defaults sensorDatabase rest s1) as [[rest1 s2]|] eqn:Hloop;
      [|discriminate].
    intros [= <- <-]. rewrite (IH _ _ _ Hloop).
    apply (processView_frame _ _ _ _ _ _ _ _ Hstep), Hmode.
Qed.

(** The sample run, for the properties of the loop. *)
Lemma pass_keeps_the_views_witness :
  exists views' s',
    Sample.run = Ok (views', s') /\ Forall2 sameImage Sample.views views'.
Proof.
  eexists _, _.
  assert (Hpass : processViews Reference.platform Sample.cfg Reference.noDefaults
                    Reference.sensorTable Sample.views Sample.start = Ok _)
    by (vm_compute; reflexivity).
  split; [exact Hpass|]. exact (pass_keeps_the_views _ _ _ _ _ _ _ _ Hpass).
Defined.

Lemma pass_keeps_the_intrinsics_witness :
  exists views' s',
    Sample.run = Ok (views', s')
    /\ intrinsics Sample.start !! 5 = Some (OtherObject "loaded")
    /\ intrinsics s' !! 5 = Some (OtherObject "loaded").
Proof.
  eexists _, _.
  assert (Hpass : processViews Reference.platform Sample.cfg Reference.noDefaults
                    Reference.sensorTable Sample.views Sample.start = Ok _)
    by (vm_compute; reflexivity).
  assert (Hloaded : intrinsics Sample.start !! 5 = Some (OtherObject "loaded"))
    by reflexivity.
  split; [exact Hpass|]. split; [exact Hloaded|].
  exact (pass_keeps_the_intrinsics _ _ _ _ _ _ _ _ Hpass _ _ Hloaded).
Defined.

Lemma pass_leaves_no_dangling_intrinsic_witness :
  exists views' s',
    Sample.run = Ok (views', s')
    /\ Forall (fun view' => getIntrinsicId view' = UndefinedIndexT Reference.platform
                            \/ is_Some (intrinsics s' !! getIntrinsicId view')) views'.
Proof.
  eexists _, _.
  assert (Hpass : processViews Reference.platform Sample.cfg Reference.noDefaults
                    Reference.sensorTable Sample.views Sample.start = Ok _)
    by (vm_compute; reflexivity).
  split; [exact Hpass|]. exact (pass_leaves_no_dangling_intrinsic _ _ _ _ _ _ _ _ Hpass).
Defined.

Lemma pass_counts_a_view_at_most_once_witness :
  exists views' s',
    Sample.run = Ok (views', s')
    /\ (completeViewCount Sample.start <= completeViewCount s'
        <= completeViewCount Sample.start + length Sample.views)%nat.
Proof.
  eexists _, _.
  assert (Hpass : processViews Reference.platform Sample.cfg Reference.noDefaults
                    Reference.sensorTable Sample.views Sample.start = Ok _)
    by (vm_compute; reflexivity).
  split; [exact Hpass|]. exact (pass_counts_a_view_at_most_once _ _ _ _ _ _ _ _ Hpass).
Defined.

Lemma pass_counts_rig_observations_witness :
  let rig := Reference.to_uint32 (Reference.stringHash "/data/rig") in
  exists views' s',
    Sample.run = Ok (views', s')
    /\ observations rig 0 (detectedRigs s') = 2%nat.
Proof.
  intros rig. eexists _, _.
  assert (Hpass : processViews Reference.platform Sample.cfg Reference.noDefaults
                    Reference.sensorTable Sample.views Sample.start = Ok _)
    by (vm_compute; reflexivity).
  split; [exact Hpass|].
  rewrite (pass_counts_rig_observations _ _ _ _ _ _ _ _ rig 0 Hpass). reflexivity.
Defined.

Lemma pass_without_random_numbers_witness :
  exists views' s',
    Sample.run = Ok (views', s') /\ randState s' = randState Sample.start.
Proof.
  eexists _, _.
  assert (Hpass : processViews Reference.platform Sample.cfg Reference.noDefaults
                    Reference.sensorTable Sample.views Sample.start = Ok _)
    by (vm_compute; reflexivity).
  assert (Hmode : groupCameraModel Sample.cfg ≠ 0) by discriminate.
  split; [exact Hpass|]. exact (pass_without_random_numbers _ _ _ _ _ _ _ _ Hmode Hpass).
Defined.

(** ** What the estimator never changes *)

(** X18. With or without the 35mm-equivalent value, the estimator never
    changes a known focal length, and never changes a sensor width other
    than the initial [-1]. *)
Theorem estimator_keeps_what_is_known (ext : Externals) (view : View) (focalLength sensorWidth : float)
    (mode : EIntrinsicInitMode) (s : PassState) :
  let after := estimateFromFocal35mm ext view focalLength sensorWidth mode s in
  (focalLengthKnown focalLength -> r_focalLength after = focalLength)
  /\ ((sensorWidth =? -1)%float = false -> r_sensorWidth after = sensorWidth).
Proof.
  intros after. subst after. unfold estimateFromFocal35mm.
  destruct (focalIn35mmMetadata view) as [focalIn35mm|]; [|split; reflexivity].
  set (ratio := (to_double (getWidth view) / to_double (getHeight view))%float).
  assert (Hformulas :
            (focalLengthKnown focalLength ->
             snd (focal35mmFormulas ext sensorWidth focalLength focalIn35mm ratio) = focalLength)
            /\ ((sensorWidth =? -1)%float = false ->
                fst (focal35mmFormulas ext sensorWidth focalLength focalIn35mm ratio) = sensorWidth)).
  { unfold focal35mmFormulas, focalLengthKnown. split.
    - intros Hknown. rewrite Hknown.
      destruct (sensorWidth =? -1)%float; [reflexivity|].
      destruct (focalLength <=? 0)%float eqn:Hle.
      + rewrite (nonpositive_is_not_positive _ Hle) in Hknown. discriminate.
      + rewrite andb_false_r. reflexivity.
    - intros Hwidth. rewrite Hwidth. destruct (_ && _); reflexivity. }
  destruct (focal35mmFormulas ext sensorWidth focalLength focalIn35mm ratio) as [w f].
  exact Hformulas.
Qed.

(** ** Which rig error is reported *)

Lemma in_key_order_head_least {A : Type} (m : gmap Z A) (k k' : Z) (x : A)
    (rest : list (Z * A)) :
  in_key_order m = (k, x) :: rest -> is_Some (m !! k') -> k <= k'.
Proof.
  intros Horder [y Hy]. pose proof (in_key_order_sorted m) as Hsorted.
  apply elem_of_in_key_order in Hy. rewrite Horder in Hy, Hsorted.
  apply StronglySorted_inv in Hsorted as [_ Hrest].
  apply elem_of_cons in Hy as [Heq | Hin]; [injection Heq; lia|].
  rewrite Forall_forall in Hrest. apply (Hrest _ Hin).
Qed.

(** X21. A rig with a negative sub-pose index fails on the index, whatever the
    counts are: the map is visited in key order, so a negative key comes
    first. *)
Theorem negative_sub_pose_is_a_wrong_index (subPoses : gmap Z nat) (subPoseId : Z) :
  is_Some (subPoses !! subPoseId) -> subPoseId < 0 ->
  checkRig subPoses = Some WrongSubPoseId.
Proof.
  intros Hkey Hneg. unfold checkRig.
  destruct (in_key_order subPoses) as [|[k c] rest] eqn:Horder.
  - destruct Hkey as [c Hc]. apply elem_of_in_key_order in Hc. rewrite Horder in Hc.
    inversion Hc.
  - pose proof (in_key_order_head_least _ _ _ _ _ Horder Hkey) as Hleast.
    cbn [checkSubPoses]. assert (Hk : (k <? 0) = true) by (apply Z.ltb_lt; lia).
    rewrite Hk, orb_true_r. reflexivity.
Qed.

Lemma negative_sub_pose_is_a_wrong_index_witness :
  is_Some (({[ (-1) := 3%nat; 0 := 3%nat ]} : gmap Z nat) !! (-1))
  /\ checkRig {[ (-1) := 3%nat; 0 := 3%nat ]} = Some WrongSubPoseId.
Proof.
  assert (Hkey : is_Some (({[ (-1) := 3%nat; 0 := 3%nat ]} : gmap Z nat) !! (-1)))
    by (rewrite lookup_insert_eq; eauto).
  split; [exact Hkey|].
  apply (negative_sub_pose_is_a_wrong_index _ (-1) Hkey). lia.
Defined.

Lemma checkSubPoses_in_range (nbSubPose nbPoses : nat) (entries : list (Z * nat)) :
  Forall (fun e => 0 <= e.1 < Z.of_nat nbSubPose /\ e.1 <= Stoi.INT_MAX) entries ->
  checkSubPoses nbSubPose nbPoses entries ≠ Some WrongSubPoseId.
Proof.
  induction entries as [|[k c] entries IH]; intros Hrange; [discriminate|].
  apply Forall_cons in Hrange as [[Hk Hmax] Hrest]. cbn [fst] in Hk, Hmax.
  cbn [checkSubPoses]. rewrite to_size_t_of_int by lia.
  assert (Hhigh : (Z.of_nat nbSubPose <=? k) = false) by (apply Z.leb_gt; lia).
  assert (Hlow : (k <? 0) = false) by (apply Z.ltb_ge; lia).
  rewrite Hhigh, Hlow. cbn [orb].
  destruct (negb _); [discriminate | apply IH, Hrest].
Qed.

(** X22. A rig whose sub-pose indices are 0 .. nbSubPose-1 but whose sub-poses
    were not all observed as often as the first fails on the number of
    poses. *)
Theorem unequal_counts_are_a_wrong_number_of_poses (subPoses : gmap Z nat) :
  intKeys subPoses -> subPosesAreSequential subPoses -> ~ sameNbPoses subPoses ->
  checkRig subPoses = Some WrongNbPoses.
Proof.
  intros Hint Hseq Hcounts.
  destruct (checkRig subPoses) as [[|]|] eqn:Hcheck; [|reflexivity|].
  - exfalso. revert Hcheck. apply checkSubPoses_in_range, Forall_forall.
    intros [k c] Hin. apply elem_of_in_key_order in Hin. cbn [fst]. split.
    + apply (proj1 (sequential_iff_in_range subPoses) Hseq). eauto.
    + apply (Hint k c Hin).
  - exfalso. apply Hcounts. apply (proj1 (checkRig_None subPoses Hint) Hcheck).
Qed.

Lemma unequal_counts_are_a_wrong_number_of_poses_witness :
  let subPoses : gmap Z nat := {[ 0 := 2%nat; 1 := 1%nat ]} in
  intKeys subPoses /\ subPosesAreSequential subPoses /\ ~ sameNbPoses subPoses
  /\ checkRig subPoses = Some WrongNbPoses.
Proof.
  intros subPoses.
  assert (Hint : intKeys subPoses).
  { unfold intKeys, subPoses.
    apply map_Forall_insert_2; [unfold Stoi.INT_MIN, Stoi.INT_MAX; lia|].
    apply map_Forall_singleton. unfold Stoi.INT_MIN, Stoi.INT_MAX. lia. }
  assert (Hseq : subPosesAreSequential subPoses).
  { apply sequential_iff_in_range. intros k [c Hc].
    replace (size subPoses) with 2%nat by (vm_compute; reflexivity).
    unfold subPoses in Hc. apply lookup_insert_Some in Hc as [[<- _] | [_ Hc]]; [lia|].
    apply lookup_singleton_Some in Hc as [<- _]. lia. }
  assert (Hcounts : ~ sameNbPoses subPoses).
  { intros Hsame. specialize (Hsame 1 1%nat eq_refl).
    replace (firstNbPoses subPoses) with 2%nat in Hsame by (vm_compute; reflexivity).
    discriminate. }
  repeat (split; [assumption|]).
  exact (unequal_counts_are_a_wrong_number_of_poses subPoses Hint Hseq Hcounts).
Defined.

(** ** The input and output options *)

(** X7. On a file system where a directory or a regular file exists, the
    options are accepted exactly when one of the image folder and the
    scene file is given and exists (the folder need not be a directory,
    nor the scene file a regular file), the output path is not empty, and
    its folder is the current one, exists, or can be created. *)
Theorem input_options_accepted (fs : FileSystem) (sfmFilePath imageFolder outputFilePath : string) :
  (forall p, fs_is_directory fs p = true -> fs_exists fs p = true) ->
  (forall p, fs_is_regular_file fs p = true -> fs_exists fs p = true) ->
  let outputFolderPart := Path.parent_path outputFilePath in
  checkInputOptions fs sfmFilePath imageFolder outputFilePath = true
  <-> ((imageFolder ≠ "" /\ sfmFilePath = "" /\ fs_exists fs imageFolder = true)
       \/ (imageFolder = "" /\ sfmFilePath ≠ "" /\ fs_exists fs sfmFilePath = true))
      /\ outputFilePath ≠ ""
      /\ (outputFolderPart = "" \/ fs_exists fs outputFolderPart = true
          \/ fs_create_directory fs outputFolderPart = true).
Proof.
  intros Hdir Hfile outputFolderPart. unfold checkInputOptions. fold outputFolderPart.
  specialize (Hdir imageFolder). specialize (Hfile sfmFilePath).
  destruct (String.eqb imageFolder "") eqn:Hfolder;
    [apply String.eqb_eq in Hfolder | apply String.eqb_neq in Hfolder];
    destruct (String.eqb sfmFilePath "") eqn:Hsfm;
    [apply String.eqb_eq in Hsfm | apply String.eqb_neq in Hsfm | apply String.eqb_eq in Hsfm
     | apply String.eqb_neq in Hsfm];
    cbn [negb andb];
    try (split; [discriminate | intros [[(? & ? & _) | (? & ? & _)] _]; congruence]).
  - (* the scene file alone *)
    destruct (fs_exists fs sfmFilePath) eqn:Hexists; cbn [negb andb].
    + destruct (String.eqb outputFilePath "") eqn:Hout;
        [apply String.eqb_eq in Hout | apply String.eqb_neq in Hout].
      * split; [discriminate | intros (_ & Hne & _); contradiction].
      * destruct (String.eqb outputFolderPart "") eqn:Hpart;
          [apply String.eqb_eq in Hpart | apply String.eqb_neq in Hpart]; cbn [negb andb].
        -- split; [intros _|reflexivity]. split; [right; tauto | split; [assumption | tauto]].
        -- destruct (fs_exists fs outputFolderPart); cbn [negb].
           ++ split; [intros _|reflexivity]. split; [right; tauto | split; [assumption | tauto]].
           ++ split.
              ** intros Hcreate. split; [right; tauto | split; [assumption | tauto]].
              ** intros (_ & _ & [Hempty | [Hex | Hcreate]]);
                   [contradiction | discriminate | exact Hcreate].
    + destruct (fs_is_regular_file fs sfmFilePath) eqn:Hregular;
        [specialize (Hfile eq_refl); discriminate|]. cbn [negb].
      split; [discriminate | intros [[(? & ? & _) | (_ & _ & ?)] _]; congruence].
  - (* the image folder alone *)
    destruct (fs_exists fs imageFolder) eqn:Hexists; cbn [negb andb].
    + destruct (String.eqb outputFilePath "") eqn:Hout;
        [apply String.eqb_eq in Hout | apply String.eqb_neq in Hout].
      * split; [discriminate | intros (_ & Hne & _); contradiction].
      * destruct (String.eqb outputFolderPart "") eqn:Hpart;
          [apply String.eqb_eq in Hpart | apply String.eqb_neq in Hpart]; cbn [negb andb].
        -- split; [intros _|reflexivity]. split; [left; tauto | split; [assumption | tauto]].
        -- destruct (fs_exists fs outputFolderPart); cbn [negb].
           ++ split; [intros _|reflexivity]. split; [left; tauto | split; [assumption | tauto]].
           ++ split.
              ** intros Hcreate. split; [left; tauto | split; [assumption | tauto]].
              ** intros (_ & _ & [Hempty | [Hex | Hcreate]]);
                   [contradiction | discriminate | exact Hcreate].
    + destruct (fs_is_directory fs imageFolder) eqn:Hisdir;
        [specialize (Hdir eq_refl); discriminate|]. cbn [negb].
      split; [discriminate | intros [[(_ & _ & ?) | (? & ? & _)] _]; congruence].
Qed.

Lemma input_options_accepted_witness :
  (forall p, fs_is_directory Disk.disk p = true -> fs_exists Disk.disk p = true)
  /\ (forall p, fs_is_regular_file Disk.disk p = true -> fs_exists Disk.disk p = true)
  /\ checkInputOptions Disk.disk "" "/data" "/out/cameraInit.sfm" = true.
Proof.
  assert (Hdir : forall p, fs_is_directory Disk.disk p = true -> fs_exists Disk.disk p = true)
    by (intros p Hp; exact Hp).
  assert (Hfile : forall p, fs_is_regular_file Disk.disk p = true
                            -> fs_exists Disk.disk p = true)
    by (intros p Hp; discriminate Hp).
  split; [exact Hdir|]. split; [exact Hfile|].
  apply (input_options_accepted Disk.disk "" "/data" "/out/cameraInit.sfm" Hdir Hfile).
  split; [left; repeat split; discriminate|]. split; [discriminate|].
  right. left. reflexivity.
Defined.

(** ** The diagnostics buckets *)

Lemma lookup_emplace_Some `{Countable K} {V : Type} (k k' : K) (v x : V) (m : gmap K V) :
  emplace k v m !! k' = Some x -> m !! k' = Some x \/ (k' = k /\ x = v).
Proof.
  unfold emplace. destruct (m !! k) eqn:Hk; [tauto|].
  intros Hx. apply lookup_insert_Some in Hx as [[-> ->] | [_ Hx]]; tauto.
Qed.

Lemma addsOnlyItsOwn_refl (view : View) (s : PassState) : addsOnlyItsOwn view s s.
Proof. repeat split; tauto. Qed.

Lemma addsOnlyItsOwn_same (view : View) (s s' s'' : PassState) :
  addsOnlyItsOwn view s s' ->
  noMetadataImagePaths s'' = noMetadataImagePaths s' ->
  unknownSensors s'' = unknownSensors s' -> unsureSensors s'' = unsureSensors s' ->
  intrinsicsSetFromFocal35mm s'' = intrinsicsSetFromFocal35mm s' ->
  addsOnlyItsOwn view s s''.
Proof.
  unfold addsOnlyItsOwn. intros H Hn Hk Hu Hf. rewrite Hn, Hk, Hu, Hf. exact H.
Qed.

Lemma addsOnlyItsOwn_trans (view : View) (s s' s'' : PassState) :
  addsOnlyItsOwn view s s' -> addsOnlyItsOwn view s' s'' -> addsOnlyItsOwn view s s''.
Proof.
  intros (Hn & Hk & Hu & Hf) (Hn' & Hk' & Hu' & Hf'). repeat split.
  - intros path Hp. destruct (Hn' _ Hp) as [Hold | Hnew]; [apply Hn, Hold | tauto].
  - intros key path Hp. destruct (Hk' _ _ Hp) as [Hold | Hnew]; [apply Hk, Hold | tauto].
  - intros key entry Hp. destruct (Hu' _ _ Hp) as [Hold | Hnew]; [apply Hu, Hold | tauto].
  - intros key values Hp. destruct (Hf' _ _ Hp) as [Hold | Hnew]; [apply Hf, Hold | tauto].
Qed.

Lemma addsOnlyItsOwn_sameImage (view view1 : View) (s s' : PassState) :
  sameImage view view1 -> addsOnlyItsOwn view1 s s' -> addsOnlyItsOwn view s s'.
Proof.
  intros (Hp & _ & _ & Hmake & Hmodel & _ & Hf35) H.
  unfold addsOnlyItsOwn, hasCameraMetadata in *.
  rewrite Hp, Hmake, Hmodel, Hf35 in H. exact H.
Qed.

Lemma findInSensorDatabase_adds (ext : Externals) (sensorDatabase : list Datasheet)
    (view : View) (focalLength sensorWidth : float) (mode : EIntrinsicInitMode)
    (s : PassState) :
  addsOnlyItsOwn view s
    (r_state (findInSensorDatabase ext sensorDatabase view focalLength sensorWidth mode s)).
Proof.
  unfold findInSensorDatabase. fold (hasCameraMetadata view).
  destruct (hasCameraMetadata view) eqn:Hmeta; [|apply addsOnlyItsOwn_refl].
  destruct (getInfo ext _ _ _) as [datasheet|]; [|apply addsOnlyItsOwn_refl].
  destruct (String.eqb (_model datasheet) (getMetadataModel view)) eqn:Hmodel;
    cbn [negb r_state]; [apply addsOnlyItsOwn_refl|].
  apply String.eqb_neq in Hmodel. repeat split; try tauto.
  cbn [unsureSensors logWrite set_unsureSensors]. intros key entry Hentry.
  apply lookup_emplace_Some in Hentry as [Hold | [-> ->]]; [tauto|].
  right. cbn [fst snd]. rewrite Hmeta. tauto.
Qed.

Lemma estimateFromFocal35mm_adds (ext : Externals) (view : View) (focalLength sensorWidth : float)
    (mode : EIntrinsicInitMode) (s : PassState) :
  addsOnlyItsOwn view s (r_state (estimateFromFocal35mm ext view focalLength sensorWidth mode s)).
Proof.
  unfold estimateFromFocal35mm.
  destruct (focalIn35mmMetadata view) as [focalIn35mm|] eqn:Hmeta; [|apply addsOnlyItsOwn_refl].
  destruct (focal35mmFormulas _ _ _ _ _) as [w f]. cbn [r_state].
  repeat split; try tauto.
  cbn [intrinsicsSetFromFocal35mm logWrite set_intrinsicsSetFromFocal35mm].
  intros key values Hvalues.
  apply lookup_emplace_Some in Hvalues as [Hold | [-> _]]; [tauto | right; rewrite Hmeta; eauto].
Qed.

Lemma beforeBuild_adds (ext : Externals) (cfg : Config) (sensorDatabase : list Datasheet)
    (view : View) (s : PassState) :
  match beforeBuild ext cfg sensorDatabase view s with
  | Continue _ s' => addsOnlyItsOwn view s s'
  | Build _ _ s' => addsOnlyItsOwn view s s'
  end.
Proof.
  unfold beforeBuild. pose proof (detectRig_sameImage ext view s) as Himage.
  pose proof (detectRig_frame ext view s) as Hrig. cbn zeta in Hrig.
  destruct (detectRig ext view s) as [view1 s1]. cbn [fst snd] in *.
  destruct Hrig as (_ & _ & _ & Hn & Hk & Hu & Hf).
  assert (Hs1 : addsOnlyItsOwn view s s1)
    by (apply (addsOnlyItsOwn_same view s s s1 (addsOnlyItsOwn_refl _ _)); assumption).
  destruct (intrinsicAlreadyInitialized ext view1 s1).
  { eapply addsOnlyItsOwn_same; [exact Hs1|..]; reflexivity. }
  pose proof (findInSensorDatabase_adds ext sensorDatabase view1
                (getMetadataFocalLength view1) (-1)%float SET_FROM_DEFAULT_FOV s1) as Hfound.
  set (found := findInSensorDatabase _ _ _ _ _ _ _) in *.
  pose proof (estimateFromFocal35mm_adds ext view1 (r_focalLength found) (r_sensorWidth found)
                (r_intrinsicInitMode found) (r_state found)) as Hestimated.
  set (estimated := estimateFromFocal35mm _ _ _ _ _ _) in *.
  assert (Hs2 : addsOnlyItsOwn view s (r_state estimated)).
  { eapply addsOnlyItsOwn_trans; [exact Hs1|]. apply (addsOnlyItsOwn_sameImage _ _ _ _ Himage).
    eapply addsOnlyItsOwn_trans; eassumption. }
  assert (Herror : addsOnlyItsOwn view (r_state estimated)
            (if negb (String.eqb (getMetadataMake view1) "")
                || negb (String.eqb (getMetadataModel view1) "")
             then logWrite UnknownSensors Critical
                    (set_unknownSensors
                       (emplace (getMetadataMake view1, getMetadataModel view1)
                          (getImagePath view1) (unknownSensors (r_state estimated)))
                       (r_state estimated))
             else logWrite NoMetadataImagePaths Critical
                    (set_noMetadataImagePaths
                       (noMetadataImagePaths (r_state estimated) ++ [getImagePath view1])
                       (r_state estimated)))).
  { apply (addsOnlyItsOwn_sameImage _ _ _ _ Himage). fold (hasCameraMetadata view1).
    destruct (hasCameraMetadata view1) eqn:Hmeta; repeat split; try tauto.
    - cbn [unknownSensors logWrite set_unknownSensors]. intros key path Hpath.
      apply lookup_emplace_Some in Hpath as [Hold | [-> ->]]; tauto.
    - cbn [noMetadataImagePaths logWrite set_noMetadataImagePaths]. intros path Hpath.
      apply elem_of_app in Hpath as [Hold | Hnew]; [tauto|].
      apply list_elem_of_singleton in Hnew. tauto. }
  destruct (_ =? -1)%float; [|exact Hs2].
  destruct (allowIncompleteOutput cfg); eapply addsOnlyItsOwn_trans; eassumption.
Qed.

Lemma buildIntrinsic_diagnostics (ext : Externals) (cfg : Config)
    (defaults : float * float * float) (view view' : View) (l : Locals) (s s' : PassState) :
  buildIntrinsic ext cfg defaults view l s = Ok (view', s') ->
  noMetadataImagePaths s' = noMetadataImagePaths s
  /\ unknownSensors s' = unknownSensors s /\ unsureSensors s' = unsureSensors s
  /\ intrinsicsSetFromFocal35mm s' = intrinsicsSetFromFocal35mm s.
Proof.
  unfold buildIntrinsic. destruct defaults as [[dfp dppx] dppy].
  destruct (dynamic_cast_Pinhole _) as [intrinsic|]; [|discriminate].
  destruct (0 <? _)%float; (destruct (groupCameraModel cfg =? 0); [destruct (std_rand ext _)|]);
    intros [= _ <-]; repeat split.
Qed.

Lemma processView_adds (ext : Externals) (cfg : Config) (defaults : float * float * float)
    (sensorDatabase : list Datasheet) (view view' : View) (s s' : PassState) :
  processView ext cfg defaults sensorDatabase view s = Ok (view', s') ->
  addsOnlyItsOwn view s s'.
Proof.
  unfold processView. pose proof (beforeBuild_adds ext cfg sensorDatabase view s) as Hbefore.
  destruct (beforeBuild ext cfg sensorDatabase view s) as [v1 s1 | v1 l s1].
  - intros [= _ <-]. exact Hbefore.
  - intros Hbuild. apply buildIntrinsic_diagnostics in Hbuild as (Hn & Hk & Hu & Hf).
    eapply addsOnlyItsOwn_same; eassumption.
Qed.

(** X14. Every entry the loop adds to a diagnostics bucket names one of the
    views it was given: a path added to the no-metadata list is that of a
    view with neither make nor model, a key added to the unknown-sensor or
    unsure-sensor map is the (make, model) of a view that has one and the
    stored image is that view's, and a key added to the 35mm-estimation
    map is the path of a view that carries the 35mm-equivalent value. *)
Theorem diagnostics_name_their_views (ext : Externals) (cfg : Config)
    (defaults : float * float * float) (sensorDatabase : list Datasheet)
    (views views' : list View) (s s' : PassState) :
  processViews ext cfg defaults sensorDatabase views s = Ok (views', s') ->
  (forall path, path ∈ noMetadataImagePaths s' ->
     path ∈ noMetadataImagePaths s
     \/ exists view, view ∈ views /\ path = getImagePath view
                     /\ hasCameraMetadata view = false)
  /\ (forall key path, unknownSensors s' !! key = Some path ->
        unknownSensors s !! key = Some path
        \/ exists view, view ∈ views
                        /\ key = (getMetadataMake view, getMetadataModel view)
                        /\ path = getImagePath view /\ hasCameraMetadata view = true)
  /\ (forall key entry, unsureSensors s' !! key = Some entry ->
        unsureSensors s !! key = Some entry
        \/ exists view, view ∈ views
                        /\ key = (getMetadataMake view, getMetadataModel view)
                        /\ entry.1 = getImagePath view /\ hasCameraMetadata view = true
                        /\ _model entry.2 ≠ getMetadataModel view)
  /\ (forall key values, intrinsicsSetFromFocal35mm s' !! key = Some values ->
        intrinsicsSetFromFocal35mm s !! key = Some values
        \/ exists view, view ∈ views /\ key = getImagePath view
                        /\ is_Some (focalIn35mmMetadata view)).
Proof.
  revert views' s s'. induction views as [|view rest IH]; intros views' s s'; cbn [processViews].
  - intros [= <- <-]. repeat split; tauto.
  - destruct (processView ext cfg defaults sensorDatabase view s) as [[view1 s1]|] eqn:Hstep;
      [|discriminate].
    destruct (processViews ext cfg defaults sensorDatabase rest s1) as [[rest1 s2]|] eqn:Hloop;
      [|discriminate].
    intros [= <- <-]. destruct (IH _ _ _ Hloop) as (Hn & Hk & Hu & Hf).
    destruct (processView_adds _ _ _ _ _ _ _ _ Hstep) as (Hn1 & Hk1 & Hu1 & Hf1).
    repeat split.
    + intros path Hpath. destruct (Hn _ Hpath) as [Hold | (v & Hin & Hv)].
      * destruct (Hn1 _ Hold) as [Hold' | Hnew]; [tauto|].
        right. exists view. split; [left | exact Hnew].
      * right. exists v. split; [right; exact Hin | exact Hv].
    + intros key path Hpath. destruct (Hk _ _ Hpath) as [Hold | (v & Hin & Hv)].
      * destruct (Hk1 _ _ Hold) as [Hold' | Hnew]; [tauto|].
        right. exists view. split; [left | exact Hnew].
      * right. exists v. split; [right; exact Hin | exact Hv].
    + intros key entry Hentry. destruct (Hu _ _ Hentry) as [Hold | (v & Hin & Hv)].
      * destruct (Hu1 _ _ Hold) as [Hold' | Hnew]; [tauto|].
        right. exists view. split; [left | exact Hnew].
      * right. exists v. split; [right; exact Hin | exact Hv].
    + intros key values Hvalues. destruct (Hf _ _ Hvalues) as [Hold | (v & Hin & Hv)].
      * destruct (Hf1 _ _ Hold) as [Hold' | Hnew]; [tauto|].
        right. exists view. split; [left | exact Hnew].
      * right. exists v. split; [right; exact Hin | exact Hv].
Qed.

Lemma diagnostics_name_their_views_witness :
  exists views' s',
    Sample.run = Ok (views', s')
    /\ forall path, path ∈ noMetadataImagePaths s' ->
         path ∈ noMetadataImagePaths Sample.start
         \/ exists view, view ∈ Sample.views /\ path = getImagePath view
                         /\ hasCameraMetadata view = false.
Proof.
  eexists _, _.
  assert (Hpass : processViews Reference.platform Sample.cfg Reference.noDefaults
                    Reference.sensorTable Sample.views Sample.start = Ok _)
    by (vm_compute; reflexivity).
  split; [exact Hpass|].
  exact (proj1 (diagnostics_name_their_views _ _ _ _ _ _ _ _ Hpass)).
Defined.

(** ** Views that come with an intrinsic *)

(** X15. A view whose intrinsic is an initialized pinhole is reused: the
    iteration ends after the rig detection, counts the view, keeps its
    identity, and writes neither the intrinsics nor a diagnostics bucket,
    whatever the options and the sensor table are. *)
Theorem initialized_view_is_reused (ext : Externals) (cfg : Config)
    (defaults : float * float * float) (sensorDatabase : list Datasheet)
    (view : View) (s : PassState) (p : Pinhole) :
  getIntrinsicId view ≠ UndefinedIndexT ext ->
  intrinsics s !! getIntrinsicId view = Some (PinholeObject p) ->
  (0 <? getFocalLengthPix p)%float = true ->
  exists view' s',
    processView ext cfg defaults sensorDatabase view s = Ok (view', s')
    /\ view' = fst (detectRig ext view s)
    /\ getIntrinsicId view' = getIntrinsicId view
    /\ completeViewCount s' = S (completeViewCount s)
    /\ intrinsics s' = intrinsics s
    /\ noMetadataImagePaths s' = noMetadataImagePaths s
    /\ unknownSensors s' = unknownSensors s /\ unsureSensors s' = unsureSensors s
    /\ intrinsicsSetFromFocal35mm s' = intrinsicsSetFromFocal35mm s.
Proof.
  intros Hid Hintrinsic Hfocal. unfold processView, beforeBuild.
  pose proof (detectRig_frame ext view s) as Hrig. cbn zeta in Hrig.
  pose proof (detectRig_intrinsicId ext view s) as Hsame.
  destruct (detectRig ext view s) as [view1 s1]. cbn [fst snd] in *.
  destruct Hrig as (Hi & Hc & _ & Hn & Hk & Hu & Hf).
  assert (Hinit : intrinsicAlreadyInitialized ext view1 s1 = true).
  { unfold intrinsicAlreadyInitialized. rewrite Hsame, Hi, Hintrinsic.
    apply Z.eqb_neq in Hid. rewrite Hid. exact Hfocal. }
  rewrite Hinit. eexists _, _. split; [reflexivity|].
  cbn [completeViewCount intrinsics noMetadataImagePaths unknownSensors unsureSensors
         intrinsicsSetFromFocal35mm logWrite set_completeViewCount].
  rewrite Hc. tauto.
Qed.

Lemma initialized_view_is_reused_witness :
  let p := {| getType := PINHOLE_CAMERA; getFocalLengthPix := 8000%float;
              getPrincipalPoint := (2880%float, 1920%float); serialNumber := "";
              getInitializationMode := COMPUTED_FROM_METADATA |} in
  let view := setIntrinsicId 5 (Reference.photo "/data/a.jpg" "Canon" "EOS 5D" 50%float None) in
  let s := initialState {[ 5 := PinholeObject p ]} 0 in
  exists view' s',
    processView Reference.platform Sample.cfg Reference.noDefaults Reference.sensorTable
      view s = Ok (view', s')
    /\ getIntrinsicId view' = 5 /\ completeViewCount s' = 1%nat.
Proof.
  intros p view s.
  assert (Hid : getIntrinsicId view ≠ UndefinedIndexT Reference.platform) by discriminate.
  destruct (initialized_view_is_reused Reference.platform Sample.cfg Reference.noDefaults
              Reference.sensorTable view s p Hid eq_refl eq_refl)
    as (view' & s' & Hstep & _ & Hview & Hcount & _).
  exists view', s'. split; [exact Hstep|]. split; [exact Hview | exact Hcount].
Defined.

(** X16. With grouping mode 1 or 2, a view that comes with the identity of a
    record of the intrinsics map never has another intrinsic stored for
    it: the map is the same after the iteration, also when the record is
    not an initialized pinhole and a new intrinsic was built; the view
    keeps its identity, or loses it when its sensor width is unresolved
    and incomplete output is allowed. *)
Theorem taken_identity_keeps_its_record (ext : Externals) (cfg : Config)
    (defaults : float * float * float) (sensorDatabase : list Datasheet)
    (view view' : View) (s s' : PassState) (record : IntrinsicBase) :
  groupCameraModel cfg ≠ 0 ->
  getIntrinsicId view ≠ UndefinedIndexT ext ->
  intrinsics s !! getIntrinsicId view = Some record ->
  processView ext cfg defaults sensorDatabase view s = Ok (view', s') ->
  intrinsics s' = intrinsics s
  /\ (getIntrinsicId view' = getIntrinsicId view
      \/ (getIntrinsicId view' = UndefinedIndexT ext /\ allowIncompleteOutput cfg = true)).
Proof.
  intros Hmode Hid Hrecord. unfold processView.
  pose proof (beforeBuild_frame ext cfg sensorDatabase view s) as Hbefore.
  cbn zeta in Hbefore. pose proof (detectRig_intrinsicId ext view s) as Hsame.
  destruct (beforeBuild ext cfg sensorDatabase view s) as [v1 s1 | v1 l s1].
  - intros [= <- <-]. destruct Hbefore as (Hi & _ & _ & [(-> & _) | (-> & _ & Hallow)]).
    + split; [exact Hi | left; exact Hsame].
    + split; [exact Hi | right; split; [reflexivity | exact Hallow]].
  - intros Hbuild. destruct Hbefore as (Hi & _ & _ & -> & _ & Hl & _).
    apply buildIntrinsic_frame in Hbuild as ((p & Hp & _) & _ & _ & _ & _ & _ & _ & Hgroup).
    destruct (Hgroup Hmode) as [_ Hkeep].
    assert (Hview : getIntrinsicId view' = getIntrinsicId view)
      by (rewrite Hkeep; congruence).
    split; [|left; exact Hview].
    rewrite Hp, Hi, Hview. apply (lookup_emplace_present _ _ _ _ Hrecord).
Qed.

(** A view that points at a pinhole whose focal length is not set: a new
    intrinsic is built and the view is counted as complete, but the map
    keeps the old record. *)
Lemma taken_identity_keeps_its_record_witness :
  let old := PinholeObject
               {| getType := PINHOLE_CAMERA; getFocalLengthPix := (-1)%float;
                  getPrincipalPoint := (2880%float, 1920%float); serialNumber := "";
                  getInitializationMode := SET_FROM_DEFAULT_FOV |} in
  let view := setIntrinsicId 5 (Reference.photo "/data/a.jpg" "Canon" "EOS 5D" 50%float None) in
  let s := initialState {[ 5 := old ]} 0 in
  exists view' s',
    processView Reference.platform Sample.cfg Reference.noDefaults Reference.sensorTable
      view s = Ok (view', s')
    /\ completeViewCount s' = 1%nat
    /\ intrinsics s' = intrinsics s /\ intrinsics s' !! 5 = Some old.
Proof.
  intros old view s. eexists _, _.
  assert (Hstep : processView Reference.platform Sample.cfg Reference.noDefaults
                    Reference.sensorTable view s = Ok _) by (vm_compute; reflexivity).
  assert (Hmode : groupCameraModel Sample.cfg ≠ 0) by discriminate.
  assert (Hid : getIntrinsicId view ≠ UndefinedIndexT Reference.platform) by discriminate.
  assert (Hrecord : intrinsics s !! getIntrinsicId view = Some old) by reflexivity.
  split; [exact Hstep|]. split; [reflexivity|].
  destruct (taken_identity_keeps_its_record _ _ _ _ _ _ _ _ _ Hmode Hid Hrecord Hstep)
    as [Hkept _].
  split; [exact Hkept | rewrite Hkept; exact Hrecord].
Defined.

(** ** Views whose sensor width stays unresolved *)

(** X17. A view without an intrinsic, without the 35mm-equivalent value, and
    that the sensor table does not know (or that has no make and model):
    with incomplete output allowed the iteration ends with the identity
    [UndefinedIndexT], builds no intrinsic and counts nothing, and files
    the view under its (make, model) in the unknown-sensor map, or in the
    no-metadata list when it has neither; with incomplete output
    disallowed the iteration goes on to the builder with the sensor width
    [-1]. *)
Theorem unresolved_sensor_width (ext : Externals) (cfg : Config)
    (defaults : float * float * float) (sensorDatabase : list Datasheet)
    (view : View) (s : PassState) :
  getIntrinsicId view = UndefinedIndexT ext ->
  focalIn35mmMetadata view = None ->
  (hasCameraMetadata view = true ->
   getInfo ext (getMetadataMake view) (getMetadataModel view) sensorDatabase = None) ->
  let detected := fst (detectRig ext view s) in
  (allowIncompleteOutput cfg = true ->
   exists s',
     processView ext cfg defaults sensorDatabase view s
     = Ok (setIntrinsicId (UndefinedIndexT ext) detected, s')
     /\ intrinsics s' = intrinsics s /\ completeViewCount s' = completeViewCount s
     /\ (if hasCameraMetadata view then
           unknownSensors s'
           = emplace (getMetadataMake view, getMetadataModel view) (getImagePath view)
               (unknownSensors s)
           /\ noMetadataImagePaths s' = noMetadataImagePaths s
         else
           noMetadataImagePaths s' = (noMetadataImagePaths s ++ [getImagePath view])%list
           /\ unknownSensors s' = unknownSensors s))
  /\ (allowIncompleteOutput cfg = false ->
      exists l s',
        beforeBuild ext cfg sensorDatabase view s = Build detected l s'
        /\ l_sensorWidth l = (-1)%float
        /\ l_focalLength l = getMetadataFocalLength view
        /\ l_intrinsicInitMode l = SET_FROM_DEFAULT_FOV).
Proof.
  intros Hid Hf35 Hinfo detected. subst detected.
  unfold processView, beforeBuild.
  pose proof (detectRig_frame ext view s) as Hrig. cbn zeta in Hrig.
  pose proof (detectRig_intrinsicId ext view s) as Hsame.
  pose proof (detectRig_sameImage ext view s) as Himage.
  destruct (detectRig ext view s) as [view1 s1]. cbn [fst snd] in *.
  destruct Hrig as (Hi & Hc & _ & Hn & Hk & _).
  destruct Himage as (Hpath & _ & _ & Hmake & Hmodel & Hfocal & Hf35').
  assert (Hinit : intrinsicAlreadyInitialized ext view1 s1 = false).
  { unfold intrinsicAlreadyInitialized. rewrite Hsame, Hid, Z.eqb_refl. reflexivity. }
  rewrite Hinit.
  assert (Hfound : findInSensorDatabase ext sensorDatabase view1 (getMetadataFocalLength view1)
                     (-1)%float SET_FROM_DEFAULT_FOV s1
                   = {| r_sensorWidth := (-1)%float;
                        r_focalLength := getMetadataFocalLength view1;
                        r_intrinsicInitMode := SET_FROM_DEFAULT_FOV; r_state := s1 |}).
  { unfold findInSensorDatabase. rewrite Hmake, Hmodel. fold (hasCameraMetadata view).
    destruct (hasCameraMetadata view); [rewrite (Hinfo eq_refl)|]; reflexivity. }
  rewrite Hfound. cbn [r_sensorWidth r_focalLength r_intrinsicInitMode r_state].
  rewrite estimateFromFocal35mm_absent by congruence.
  cbn [r_sensorWidth r_focalLength r_intrinsicInitMode r_state].
  replace ((-1) =? -1)%float with true by reflexivity.
  rewrite Hmake, Hmodel, Hpath. fold (hasCameraMetadata view).
  split; intros Hallow; rewrite Hallow.
  - eexists. split; [reflexivity|].
    destruct (hasCameraMetadata view);
      cbn [intrinsics completeViewCount unknownSensors noMetadataImagePaths logWrite
             set_unknownSensors set_noMetadataImagePaths];
      rewrite Hi, Hc, Hn, Hk; tauto.
  - eexists _, _. split; [reflexivity|].
    cbn [l_sensorWidth l_focalLength l_intrinsicInitMode]. rewrite Hfocal. tauto.
Qed.

Lemma unresolved_sensor_width_witness :
  let view := Reference.photo "/data/a.jpg" "" "" (-1)%float None in
  let cfg := Reference.options 1 true false in
  getIntrinsicId view = UndefinedIndexT Reference.platform
  /\ exists s',
       processView Reference.platform cfg Reference.noDefaults Reference.sensorTable view
         Reference.start = Ok (view, s')
       /\ noMetadataImagePaths s' = ["/data/a.jpg"].
Proof.
  intros view cfg.
  assert (Hid : getIntrinsicId view = UndefinedIndexT Reference.platform) by reflexivity.
  split; [exact Hid|].
  assert (Hinfo : hasCameraMetadata view = true ->
                  getInfo Reference.platform (getMetadataMake view) (getMetadataModel view)
                    Reference.sensorTable = None) by (intros _; reflexivity).
  destruct (unresolved_sensor_width Reference.platform cfg Reference.noDefaults
              Reference.sensorTable view Reference.start Hid eq_refl Hinfo)
    as [Hallowed _].
  destruct (Hallowed eq_refl) as (s' & Hstep & _ & _ & Hbucket).
  exists s'. split; [exact Hstep|]. apply Hbucket.
Defined.


(** ** The intrinsic that is stored, and its identity *)

(** "build intrinsic" when the builder gives a pinhole. *)
Lemma buildIntrinsic_pinhole (ext : Externals) (cfg : Config) (defaults : float * float * float)
    (view : View) (l : Locals) (s : PassState) (built : Pinhole) :
  getViewIntrinsic ext view (l_focalLength l) (l_sensorWidth l) defaults.1.1
    (defaultFieldOfView cfg) (defaultCameraModel cfg) defaults.1.2 defaults.2
  = PinholeObject built ->
  groupCameraModel cfg ≠ 0 ->
  exists s',
    let intrinsic := groupedIntrinsic ext cfg view l built in
    let id := if l_intrinsicId l =? UndefinedIndexT ext
              then to_IndexT ext (hashValue ext intrinsic) else l_intrinsicId l in
    buildIntrinsic ext cfg defaults view l s = Ok (setIntrinsicId id view, s')
    /\ intrinsics s' = emplace id (PinholeObject intrinsic) (intrinsics s).
Proof.
  intros Hbuilt Hmode. unfold buildIntrinsic. destruct defaults as [[dfp dppx] dppy].
  cbn [fst snd] in Hbuilt. rewrite Hbuilt. cbn [dynamic_cast_Pinhole].
  apply Z.eqb_neq in Hmode. rewrite Hmode.
  fold (groupedIntrinsic ext cfg view l built).
  eexists. cbn zeta. split; [reflexivity|].
  cbn [intrinsics logWrite set_intrinsics].
  destruct (0 <? _)%float; reflexivity.
Qed.

Lemma groupedIntrinsic_fields (ext : Externals) (cfg : Config) (view : View) (l : Locals)
    (built : Pinhole) :
  let intrinsic := groupedIntrinsic ext cfg view l built in
  getType intrinsic = getType built
  /\ getFocalLengthPix intrinsic = getFocalLengthPix built
  /\ getPrincipalPoint intrinsic = getPrincipalPoint built
  /\ getInitializationMode intrinsic = l_intrinsicInitMode l
  /\ (l_hasCameraMetadata l = hasCameraMetadata view ->
      serialNumber intrinsic = overriddenSerialNumber ext cfg view (serialNumber built)).
Proof.
  unfold groupedIntrinsic, overriddenSerialNumber.
  destruct (l_hasCameraMetadata l); cbn [negb].
  - repeat split. intros <-. reflexivity.
  - destruct (isPartOfRig ext view); destruct (groupCameraModel cfg =? 2);
      repeat split; intros <-; reflexivity.
Qed.

(** X19. With grouping mode 1 or 2, the intrinsic stored under a free identity
    is the builder's with the initialization mode of the iteration and
    this serial number: the builder's for a view with a make or model;
    otherwise "no_metadata_rig_<rig>_<sub-pose>" for a view of a rig,
    which wins over the folder; otherwise the folder of the image in mode
    2 and the builder's in mode 1. *)
Theorem stored_intrinsic (ext : Externals) (cfg : Config) (defaults : float * float * float)
    (view view' : View) (l : Locals) (s s' : PassState) (built : Pinhole) :
  getViewIntrinsic ext view (l_focalLength l) (l_sensorWidth l) defaults.1.1
    (defaultFieldOfView cfg) (defaultCameraModel cfg) defaults.1.2 defaults.2
  = PinholeObject built ->
  groupCameraModel cfg ≠ 0 ->
  l_hasCameraMetadata l = hasCameraMetadata view ->
  buildIntrinsic ext cfg defaults view l s = Ok (view', s') ->
  intrinsics s !! getIntrinsicId view' = None ->
  exists intrinsic,
    intrinsics s' !! getIntrinsicId view' = Some (PinholeObject intrinsic)
    /\ serialNumber intrinsic = overriddenSerialNumber ext cfg view (serialNumber built)
    /\ getInitializationMode intrinsic = l_intrinsicInitMode l
    /\ getType intrinsic = getType built
    /\ getFocalLengthPix intrinsic = getFocalLengthPix built
    /\ getPrincipalPoint intrinsic = getPrincipalPoint built.
Proof.
  intros Hbuilt Hmode Hmeta Hbuild Hfree.
  destruct (buildIntrinsic_pinhole ext cfg defaults view l s built Hbuilt Hmode)
    as (s0 & Heq & Hstored). cbn zeta in Heq, Hstored.
  rewrite Heq in Hbuild. injection Hbuild as <- <-.
  cbn [getIntrinsicId setIntrinsicId] in *.
  exists (groupedIntrinsic ext cfg view l built).
  destruct (groupedIntrinsic_fields ext cfg view l built) as (Ht & Hf & Hp & Hm & Hs).
  rewrite Hstored, (lookup_emplace_absent _ _ _ Hfree).
  split; [reflexivity|]. split; [apply Hs, Hmeta|]. tauto.
Qed.

(** X20. Two views without make and model, outside any rig, in the same
    folder, for which the builder gives the same intrinsic: with grouping
    mode 2 they get the same identity. *)
Theorem same_folder_same_identity (ext : Externals) (cfg : Config)
    (defaults : float * float * float) (view1 view2 view1' view2' : View) (l1 l2 : Locals)
    (s1 s2 s1' s2' : PassState) (built : Pinhole) :
  groupCameraModel cfg = 2 ->
  getViewIntrinsic ext view1 (l_focalLength l1) (l_sensorWidth l1) defaults.1.1
    (defaultFieldOfView cfg) (defaultCameraModel cfg) defaults.1.2 defaults.2
  = PinholeObject built ->
  getViewIntrinsic ext view2 (l_focalLength l2) (l_sensorWidth l2) defaults.1.1
    (defaultFieldOfView cfg) (defaultCameraModel cfg) defaults.1.2 defaults.2
  = PinholeObject built ->
  l_hasCameraMetadata l1 = false -> l_hasCameraMetadata l2 = false ->
  isPartOfRig ext view1 = false -> isPartOfRig ext view2 = false ->
  l_intrinsicId l1 = UndefinedIndexT ext -> l_intrinsicId l2 = UndefinedIndexT ext ->
  l_intrinsicInitMode l1 = l_intrinsicInitMode l2 ->
  Path.parent_path (getImagePath view1) = Path.parent_path (getImagePath view2) ->
  buildIntrinsic ext cfg defaults view1 l1 s1 = Ok (view1', s1') ->
  buildIntrinsic ext cfg defaults view2 l2 s2 = Ok (view2', s2') ->
  getIntrinsicId view1' = getIntrinsicId view2'.
Proof.
  intros Hmode Hbuilt1 Hbuilt2 Hmeta1 Hmeta2 Hrig1 Hrig2 Hid1 Hid2 Hinit Hfolder Hbuild1 Hbuild2.
  assert (Hmode' : groupCameraModel cfg ≠ 0) by (rewrite Hmode; discriminate).
  destruct (buildIntrinsic_pinhole ext cfg defaults view1 l1 s1 built Hbuilt1 Hmode')
    as (t1 & Heq1 & _).
  destruct (buildIntrinsic_pinhole ext cfg defaults view2 l2 s2 built Hbuilt2 Hmode')
    as (t2 & Heq2 & _).
  cbn zeta in Heq1, Heq2. rewrite Heq1 in Hbuild1. rewrite Heq2 in Hbuild2.
  injection Hbuild1 as <- _. injection Hbuild2 as <- _.
  cbn [getIntrinsicId setIntrinsicId]. rewrite Hid1, Hid2, Z.eqb_refl.
  do 2 f_equal. unfold groupedIntrinsic.
  rewrite Hmeta1, Hmeta2, Hrig1, Hrig2, Hmode, Hinit, Hfolder. reflexivity.
Qed.

Lemma stored_intrinsic_witness :
  let view := Reference.photo "/data/video/001.jpg" "" "" (-1)%float None in
  let l := {| l_intrinsicId := UndefinedIndexT Reference.platform;
              l_sensorWidth := (-1)%float; l_focalLength := (-1)%float;
              l_hasCameraMetadata := false;
              l_intrinsicInitMode := SET_FROM_DEFAULT_FOV |} in
  exists view' s' intrinsic,
    buildIntrinsic Reference.platform Sample.cfg Reference.noDefaults view l Reference.start
    = Ok (view', s')
    /\ intrinsics s' !! getIntrinsicId view' = Some (PinholeObject intrinsic)
    /\ serialNumber intrinsic = "/data/video".
Proof.
  intros view l.
  assert (Hbuild : exists view' s',
             buildIntrinsic Reference.platform Sample.cfg Reference.noDefaults view l
               Reference.start = Ok (view', s'))
    by (eexists _, _; vm_compute; reflexivity).
  destruct Hbuild as (view' & s' & Hbuild).
  assert (Hmode : groupCameraModel Sample.cfg ≠ 0) by discriminate.
  destruct (stored_intrinsic Reference.platform Sample.cfg Reference.noDefaults view view' l
              Reference.start s' _ eq_refl Hmode eq_refl Hbuild (lookup_empty _))
    as (intrinsic & Hstored & Hserial & _).
  exists view', s', intrinsic. split; [exact Hbuild|]. split; [exact Hstored | exact Hserial].
Defined.

Lemma same_folder_same_identity_witness :
  let view1 := Reference.photo "/data/video/001.jpg" "" "" (-1)%float None in
  let view2 := Reference.photo "/data/video/002.jpg" "" "" (-1)%float None in
  let l := {| l_intrinsicId := UndefinedIndexT Reference.platform;
              l_sensorWidth := (-1)%float; l_focalLength := (-1)%float;
              l_hasCameraMetadata := false;
              l_intrinsicInitMode := SET_FROM_DEFAULT_FOV |} in
  exists view1' view2' s1' s2',
    buildIntrinsic Reference.platform Sample.cfg Reference.noDefaults view1 l Reference.start
    = Ok (view1', s1')
    /\ buildIntrinsic Reference.platform Sample.cfg Reference.noDefaults view2 l Reference.start
       = Ok (view2', s2')
    /\ getIntrinsicId view1' = getIntrinsicId view2'.
Proof.
  intros view1 view2 l.
  assert (Hbuild1 : exists view' s',
             buildIntrinsic Reference.platform Sample.cfg Reference.noDefaults view1 l
               Reference.start = Ok (view', s'))
    by (eexists _, _; vm_compute; reflexivity).
  assert (Hbuild2 : exists view' s',
             buildIntrinsic Reference.platform Sample.cfg Reference.noDefaults view2 l
               Reference.start = Ok (view', s'))
    by (eexists _, _; vm_compute; reflexivity).
  destruct Hbuild1 as (view1' & s1' & Hbuild1). destruct Hbuild2 as (view2' & s2' & Hbuild2).
  exists view1', view2', s1', s2'. split; [exact Hbuild1|]. split; [exact Hbuild2|].
  exact (same_folder_same_identity Reference.platform Sample.cfg Reference.noDefaults
           view1 view2 view1' view2' l l Reference.start Reference.start s1' s2' _
           eq_refl eq_refl eq_refl eq_refl eq_refl eq_refl eq_refl eq_refl eq_refl eq_refl
           eq_refl Hbuild1 Hbuild2).
Defined.

(** ** The run as a whole *)

Lemma passFailPolicy_allowed (cfg : Config) (s : PassState) :
  allowIncompleteOutput cfg = true -> passFailPolicy cfg s = None.
Proof.
  intros Hallow. unfold passFailPolicy. rewrite Hallow. cbn [negb].
  rewrite andb_false_r. reflexivity.
Qed.

(** X23. With incomplete output allowed the run never fails for unknown
    sensors or for too few complete views: it can only fail on the
    options, the sensor database, the input, the rig structure or the
    saving. *)
Theorem incomplete_output_never_fails_the_policy (ext : Externals) (cfg : Config)
    (sensorDatabase : option (list Datasheet)) (input : option SfMData) (now : Z)
    (saveOk : bool) (why : Failure) :
  allowIncompleteOutput cfg = true ->
  main ext cfg sensorDatabase input now saveOk = EXIT_FAILURE why ->
  why = InvalidConfiguration \/ why = InvalidSensorDatabase \/ why = NoInputViews
  \/ (exists e, why = InvalidRigStructure e) \/ (why = SaveFailed /\ saveOk = false).
Proof.
  intros Hallow. unfold main.
  destruct (checkIntrinsicOptions ext cfg) as [defaults|]; [|intros [= <-]; tauto].
  destruct sensorDatabase as [database|]; [|intros [= <-]; tauto].
  destruct input as [sfmData|]; [|intros [= <-]; tauto].
  destruct (getViews sfmData) as [|view views]; [intros [= <-]; tauto|].
  destruct (processViews _ _ _ _ _ _) as [[views' s]|]; [|discriminate].
  destruct (createRigs _ _) as [e|rigs]; [intros [= <-]; eauto 6|].
  rewrite (passFailPolicy_allowed _ _ Hallow).
  destruct saveOk; [discriminate | intros [= <-]; tauto].
Qed.

Lemma incomplete_output_never_fails_the_policy_witness :
  let cfg := Reference.options 1 true false in
  let sfmData :=
    {| getViews := [Reference.photo "/data/a.jpg" "Nokon" "X" 50%float None];
       getIntrinsics := ∅; getRigs := ∅ |} in
  allowIncompleteOutput cfg = true
  /\ main Reference.platform cfg (Some Reference.sensorTable) (Some sfmData) 0 false
     = EXIT_FAILURE SaveFailed.
Proof.
  intros cfg sfmData.
  assert (Hallow : allowIncompleteOutput cfg = true) by reflexivity.
  split; [exact Hallow|].
  destruct (main Reference.platform cfg (Some Reference.sensorTable) (Some sfmData) 0 false)
    as [saved | why |] eqn:Hmain.
  - vm_compute in Hmain. discriminate Hmain.
  - destruct (incomplete_output_never_fails_the_policy _ _ _ _ _ _ _ Hallow Hmain)
      as [-> | [-> | [-> | [[e ->] | [-> _]]]]];
      try (vm_compute in Hmain; discriminate Hmain).
    reflexivity.
  - vm_compute in Hmain. discriminate Hmain.
Defined.

Lemma createRigsFrom_foldl (detected : list (Z * gmap Z nat)) (rigs0 rigs : gmap Z Rig) :
  createRigsFrom detected rigs0 = inr rigs -> rigs = foldl addRig rigs0 detected.
Proof.
  revert rigs0. induction detected as [|[rigId subPoses] detected IH]; intros rigs0.
  - intros [= <-]. reflexivity.
  - cbn [createRigsFrom foldl]. destruct (checkRig subPoses); [discriminate|]. apply IH.
Qed.

Lemma createRigs_keeps (detected : gmap Z (gmap Z nat)) (rigs0 rigs : gmap Z Rig) :
  createRigs detected rigs0 = inr rigs ->
  forall rigId rig, rigs0 !! rigId = Some rig -> rigs !! rigId = Some rig.
Proof.
  intros Hcreate rigId rig Hrig. apply createRigsFrom_foldl in Hcreate. subst rigs.
  rewrite lookup_foldl_addRig, Hrig. reflexivity.
Qed.

(** X24. What a successful run saves: the views of the input, one for one in
    their order, with their images; every intrinsic and rig of the input,
    unchanged; and no view whose intrinsic identity is not
    [UndefinedIndexT] and not in the saved intrinsics.  [Save] was called
    and returned [true]. *)
Theorem saved_scene (ext : Externals) (cfg : Config) (sensorDatabase : option (list Datasheet))
    (input : option SfMData) (now : Z) (saveOk : bool) (saved : SfMData) :
  main ext cfg sensorDatabase input now saveOk = EXIT_SUCCESS saved ->
  saveOk = true
  /\ exists sfmData,
       input = Some sfmData
       /\ Forall2 sameImage (getViews sfmData) (getViews saved)
       /\ (forall id intrinsic, getIntrinsics sfmData !! id = Some intrinsic ->
             getIntrinsics saved !! id = Some intrinsic)
       /\ (forall rigId rig, getRigs sfmData !! rigId = Some rig ->
             getRigs saved !! rigId = Some rig)
       /\ Forall (fun view => getIntrinsicId view = UndefinedIndexT ext
                              \/ is_Some (getIntrinsics saved !! getIntrinsicId view))
            (getViews saved).
Proof.
  unfold main.
  destruct (checkIntrinsicOptions ext cfg) as [defaults|]; [|discriminate].
  destruct sensorDatabase as [database|]; [|discriminate].
  destruct input as [sfmData|]; [|discriminate].
  destruct (getViews sfmData) as [|view views] eqn:Hviews; [discriminate|].
  destruct (processViews _ _ _ _ _ _) as [[views' s]|] eqn:Hpass; [|discriminate].
  destruct (createRigs _ _) as [e|rigs] eqn:Hrigs; [discriminate|].
  destruct (passFailPolicy cfg s); [discriminate|].
  destruct saveOk; [|discriminate]. intros [= <-]. split; [reflexivity|].
  exists sfmData. split; [reflexivity|]. cbn [getViews getIntrinsics getRigs].
  rewrite Hviews. split; [apply (processViews_sameImage _ _ _ _ _ _ _ _ Hpass)|].
  split; [apply (processViews_intrinsics _ _ _ _ _ _ _ _ Hpass)|].
  split; [apply (createRigs_keeps _ _ _ Hrigs)|].
  apply (processViews_references _ _ _ _ _ _ _ _ Hpass).
Qed.

Lemma saved_scene_witness :
  let views := [ Reference.photo "/data/a.jpg" "Canon" "EOS 5D" 50%float None;
                 Reference.photo "/data/b.jpg" "Canon" "EOS 5D" 35%float None ] in
  let sfmData := {| getViews := views; getIntrinsics := Sample.loaded; getRigs := ∅ |} in
  exists saved,
    main Reference.platform Sample.cfg (Some Reference.sensorTable) (Some sfmData) 0 true
    = EXIT_SUCCESS saved
    /\ Forall2 sameImage views (getViews saved)
    /\ getIntrinsics saved !! 5 = Some (OtherObject "loaded").
Proof.
  intros views sfmData. eexists.
  assert (Hmain : main Reference.platform Sample.cfg (Some Reference.sensorTable)
                    (Some sfmData) 0 true = EXIT_SUCCESS _) by (vm_compute; reflexivity).
  split; [exact Hmain|].
  destruct (saved_scene _ _ _ _ _ _ _ Hmain) as (_ & input & Hinput & Hviews & Hkept & _).
  injection Hinput as <-. split; [exact Hviews|]. apply Hkept. reflexivity.
Defined.

(** ** A K-matrix field with text after its number *)

Lemma skip_space_app (l : list ascii) (c : ascii) (rest : list ascii) :
  Stoi.isspace c = false ->
  Stoi.skip_space (l ++ c :: rest)
  = match Stoi.skip_space l with
    | [] => c :: rest
    | l' => (l' ++ c :: rest)%list
    end.
Proof.
  intros Hc. induction l as [|a l IH]; cbn [Stoi.skip_space app].
  - rewrite Hc. reflexivity.
  - destruct (Stoi.isspace a); [exact IH | reflexivity].
Qed.

Lemma skip_zeros_app (l : list ascii) (c : ascii) (rest : list ascii) :
  IStream.is_zero c = false ->
  IStream.skip_zeros (l ++ c :: rest) = (IStream.skip_zeros l ++ c :: rest)%list.
Proof.
  intros Hc. induction l as [|a l IH]; cbn [IStream.skip_zeros app].
  - rewrite Hc. reflexivity.
  - destruct (IStream.is_zero a); [exact IH | reflexivity].
Qed.

(** The loop stops at a character that is not of a number, whatever it
    has accumulated. *)
Lemma extract_digits_app (c : ascii) (rest : list ascii) :
  notOfANumber c = true ->
  forall (l : list ascii) (found_mantissa found_dec found_sci : bool),
    IStream.extract_digits found_mantissa found_dec found_sci (l ++ c :: rest)
    = IStream.extract_digits found_mantissa found_dec found_sci l.
Proof.
  intros Hc. unfold notOfANumber in Hc. apply negb_true_iff in Hc.
  repeat (apply orb_false_iff in Hc as [Hc ?]).
  assert (Hstop : forall m d s, IStream.extract_digits m d s (c :: rest) = []).
  { intros m d s. cbn [IStream.extract_digits].
    repeat match goal with H : _ c = false |- _ => rewrite H; clear H end. reflexivity. }
  intros l. remember (length l) as n eqn:Hn. revert l Hn.
  induction n as [n IH] using lt_wf_ind.
  intros [|a l] Hn found_mantissa found_dec found_sci.
  - apply Hstop.
  - cbn [length] in Hn. cbn [IStream.extract_digits app].
    destruct (IStream.is_digit a); [f_equal; apply (IH (length l)); [lia | reflexivity]|].
    destruct (IStream.is_point a && negb found_dec && negb found_sci);
      [f_equal; apply (IH (length l)); [lia | reflexivity]|].
    destruct (IStream.is_exponent a && negb found_sci && found_mantissa); [|reflexivity].
    f_equal. destruct l as [|a' l]; cbn [app].
    + assert (Hsign : IStream.is_sign c = false) by assumption. rewrite Hsign. apply Hstop.
    + cbn [length] in Hn.
      destruct (IStream.is_sign a');
        [f_equal; apply (IH (length l)); [lia | reflexivity]|].
      apply (IH (length (a' :: l)) ltac:(cbn [length]; lia) (a' :: l) eq_refl).
Qed.

Lemma not_of_a_number (c : ascii) :
  notOfANumber c = true ->
  IStream.is_sign c = false /\ IStream.is_zero c = false /\ Stoi.isspace c = false.
Proof.
  unfold notOfANumber. intros Hc. apply negb_true_iff in Hc.
  repeat (apply orb_false_iff in Hc as [Hc ?]).
  repeat split; try assumption.
  unfold IStream.is_zero. destruct (Ascii.eqb_spec c "0") as [-> | Hne]; [|reflexivity].
  discriminate Hc.
Qed.

Lemma extract_float_app (l : list ascii) (c : ascii) (rest : list ascii) :
  notOfANumber c = true ->
  IStream.extract_float (l ++ c :: rest) = IStream.extract_float l.
Proof.
  intros Hc. destruct (not_of_a_number c Hc) as (Hsign & Hzero & _).
  assert (Hzeros : forall l1,
             IStream.has_leading_zero (l1 ++ c :: rest) = IStream.has_leading_zero l1
             /\ IStream.extract_digits (IStream.has_leading_zero l1) false false
                  (IStream.skip_zeros (l1 ++ c :: rest))
                = IStream.extract_digits (IStream.has_leading_zero l1) false false
                    (IStream.skip_zeros l1)).
  { intros l1. split.
    - destruct l1; [exact Hzero | reflexivity].
    - rewrite (skip_zeros_app l1 c rest Hzero). apply extract_digits_app, Hc. }
  unfold IStream.extract_float.
  destruct l as [|a l].
  - cbn [app IStream.extract_sign]. rewrite Hsign.
    destruct (Hzeros []) as [Hlead Hdigits]. cbn [app] in Hlead, Hdigits.
    rewrite Hlead, Hdigits. reflexivity.
  - cbn [app IStream.extract_sign]. destruct (IStream.is_sign a).
    + destruct (Hzeros l) as [Hlead Hdigits]. rewrite Hlead, Hdigits. reflexivity.
    + destruct (Hzeros (a :: l)) as [Hlead Hdigits]. cbn [app] in Hlead, Hdigits.
      rewrite Hlead, Hdigits. reflexivity.
Qed.

Lemma list_ascii_of_string_app (a b : string) :
  list_ascii_of_string (a +:+ b) = (list_ascii_of_string a ++ list_ascii_of_string b)%list.
Proof.
  induction a as [|c a IH]; [reflexivity|].
  change (String c a +:+ b) with (String c (a +:+ b)).
  cbn [list_ascii_of_string app]. f_equal. exact IH.
Qed.

(** The extraction never looks at what follows the number: text that
    starts with a character that is not of a number can be appended to any
    field without changing what is read from it. *)
Lemma extract_double_ignores_what_follows (field : string) (c : ascii) (rest : string) :
  notOfANumber c = true ->
  IStream.extract_double (field +:+ String c rest) = IStream.extract_double field.
Proof.
  intros Hc. destruct (not_of_a_number c Hc) as (_ & _ & Hspace).
  unfold IStream.extract_double.
  rewrite list_ascii_of_string_app. cbn [list_ascii_of_string].
  rewrite (skip_space_app _ c _ Hspace).
  destruct (Stoi.skip_space (list_ascii_of_string field)) as [|a l].
  - rewrite <- (extract_float_app [] c (list_ascii_of_string rest) Hc). reflexivity.
  - rewrite (extract_float_app (a :: l) c _ Hc). reflexivity.
Qed.

Lemma main_goes_on_with_valid_options (ext : Externals) (cfg : Config)
    (defaults : float * float * float) (sensorDatabase : option (list Datasheet))
    (input : option SfMData) (now : Z) (saveOk : bool) :
  checkIntrinsicOptions ext cfg = Some defaults ->
  main ext cfg sensorDatabase input now saveOk <> EXIT_FAILURE InvalidConfiguration.
Proof.
  intros Hoptions. unfold main. rewrite Hoptions.
  destruct sensorDatabase as [database|]; [|discriminate].
  destruct input as [sfmData|]; [|discriminate].
  destruct (getViews sfmData) as [|view views]; [discriminate|].
  destruct (processViews _ _ _ _ _ _) as [[views' s]|]; [|discriminate].
  destruct (createRigs _ _) as [e|rigs]; [discriminate|].
  destruct (passFailPolicy cfg s) as [why|] eqn:Hpolicy.
  - destruct (passFailPolicy_reason _ _ _ Hpolicy) as [-> | ->]; discriminate.
  - destruct saveOk; discriminate.
Qed.

(** The extraction on some fields. *)
Example extract_double_examples :
  IStream.extract_double "8000" = Some 8000%float
  /\ IStream.extract_double "8000mm" = Some 8000%float
  /\ IStream.extract_double " -1.5e3;" = Some (-1500)%float
  /\ IStream.extract_double "0x10" = Some 0%float
  /\ IStream.extract_double ".5" = Some 0x1p-1%float
  /\ IStream.extract_double "0.1" = Some 0x1.999999999999ap-4%float
  /\ IStream.extract_double "1e23" = Some 0x1.52d02c7e14af6p+76%float
  /\ IStream.extract_double "4.9e-324" = Some 0x1p-1074%float
  /\ IStream.extract_double "1e-400" = Some 0%float
  /\ IStream.extract_double "" = None
  /\ IStream.extract_double "f" = None
  /\ IStream.extract_double "-" = None
  /\ IStream.extract_double "." = None
  /\ IStream.extract_double "1e" = None
  /\ IStream.extract_double "1e999" = None.
Proof. repeat split; vm_compute; reflexivity. Qed.

(** C7, on the code.  The K-matrix "8000mm;0;2880;0;8000;1920;0;0;1" has
    nine fields, and its first field is not a valid number.  The stream
    extraction reads the number at the front of a field and never looks at
    what follows it, so the string is accepted with the focal length 8000,
    and the run does not stop on the configuration. *)
Theorem k_matrix_with_trailing_text_is_accepted :
  let K := "8000mm;0;2880;0;8000;1920;0;0;1" in
  let cfg :=
    {| defaultIntrinsicKMatrix := K;
       defaultCameraModel := PINHOLE_CAMERA_START;
       defaultFocalLengthPixel := (-1)%float;
       defaultFieldOfView := (-1)%float;
       groupCameraModel := 2;
       allowIncompleteOutput := false;
       allowSingleView := false |} in
  split_fields ";" K = ["8000mm"; "0"; "2880"; "0"; "8000"; "1920"; "0"; "0"; "1"]
  /\ validNumber "8000mm" = false
  /\ checkIntrinsicStringValidity Reference.platform K (-1)%float (-1)%float (-1)%float
     = (true, (8000%float, 2880%float, 1920%float))
  /\ checkIntrinsicOptions Reference.platform cfg = Some (8000%float, 2880%float, 1920%float)
  /\ (forall sensorDatabase input now saveOk,
        main Reference.platform cfg sensorDatabase input now saveOk
        <> EXIT_FAILURE InvalidConfiguration)
  /\ (forall field c rest,
        notOfANumber c = true ->
        extractDouble Reference.platform (field +:+ String c rest)
        = extractDouble Reference.platform field).
Proof.
  intros K cfg.
  assert (Hoptions : checkIntrinsicOptions Reference.platform cfg
                     = Some (8000%float, 2880%float, 1920%float))
    by (vm_compute; reflexivity).
  split; [reflexivity|]. split; [reflexivity|].
  split; [vm_compute; reflexivity|]. split; [exact Hoptions|]. split.
  - intros sensorDatabase input now saveOk.
    apply (main_goes_on_with_valid_options _ _ _ _ _ _ _ Hoptions).
  - intros field c rest Hc. apply extract_double_ignores_what_follows, Hc.
Qed.

(** ** The rig validation in [main] *)

(** The rig table only ever holds sub-pose indices that came out of the
    conversion to [int]. *)
Lemma incrementDetectedRigs_intKeys (rig subPose : Z) (m : gmap Z (gmap Z nat)) :
  Stoi.INT_MIN <= subPose <= Stoi.INT_MAX ->
  map_Forall (fun _ subPoses => intKeys subPoses) m ->
  map_Forall (fun _ subPoses => intKeys subPoses) (incrementDetectedRigs rig subPose m).
Proof.
  intros Hint Hm. unfold incrementDetectedRigs. apply map_Forall_insert_2; [|exact Hm].
  apply map_Forall_insert_2; [exact Hint|].
  destruct (m !! rig) as [subPoses|] eqn:Hrig; cbn [default].
  - apply (Hm _ _ Hrig).
  - apply map_Forall_empty.
Qed.

Lemma processViews_intKeys (ext : Externals) (cfg : Config) (defaults : float * float * float)
    (sensorDatabase : list Datasheet) (views views' : list View) (s s' : PassState) :
  (forall id, Stoi.INT_MIN <= IndexT_to_int ext id <= Stoi.INT_MAX) ->
  processViews ext cfg defaults sensorDatabase views s = Ok (views', s') ->
  map_Forall (fun _ subPoses => intKeys subPoses) (detectedRigs s) ->
  map_Forall (fun _ subPoses => intKeys subPoses) (detectedRigs s').
Proof.
  intros Hint. revert views' s s'.
  induction views as [|view rest IH]; intros views' s s'; cbn [processViews].
  - intros [= <- <-] Hs. exact Hs.
  - destruct (processView ext cfg defaults sensorDatabase view s) as [[view1 s1]|] eqn:Hstep;
      [|discriminate].
    destruct (processViews ext cfg defaults sensorDatabase rest s1) as [[rest1 s2]|] eqn:Hloop;
      [|discriminate].
    intros [= <- <-] Hs. apply (IH _ _ _ Hloop).
    destruct (processView_frame _ _ _ _ _ _ _ _ Hstep) as (_ & _ & _ & _ & Hd & _).
    rewrite Hd, detectRig_detectedRigs.
    destruct (detectedRigKey ext view) as [[rig subPose]|] eqn:Hkey; [|exact Hs].
    apply incrementDetectedRigs_intKeys; [|exact Hs].
    unfold detectedRigKey in Hkey. destruct (String.eqb _ "rig"); [|discriminate].
    destruct (Stoi.stoi _); [|discriminate]. destruct (Stoi.stoi _); [|discriminate].
    injection Hkey as _ <-. apply Hint.
Qed.

(** [main] once the loop has completed. *)
Lemma main_after_the_pass (ext : Externals) (cfg : Config) (defaults : float * float * float)
    (sensorDatabase : list Datasheet) (sfmData : SfMData) (now : Z) (saveOk : bool)
    (views' : list View) (s : PassState) :
  checkIntrinsicOptions ext cfg = Some defaults ->
  getViews sfmData <> [] ->
  processViews ext cfg defaults sensorDatabase (getViews sfmData)
    (initialState (getIntrinsics sfmData) (std_srand ext now)) = Ok (views', s) ->
  main ext cfg (Some sensorDatabase) (Some sfmData) now saveOk
  = match createRigs (detectedRigs s) (getRigs sfmData) with
    | inl e => EXIT_FAILURE (InvalidRigStructure e)
    | inr rigs =>
        match passFailPolicy cfg s with
        | Some why => EXIT_FAILURE why
        | None =>
            if saveOk then
              EXIT_SUCCESS {| getViews := views'; getIntrinsics := intrinsics s; getRigs := rigs |}
            else EXIT_FAILURE SaveFailed
        end
    end.
Proof.
  intros Hoptions Hviews Hpass. unfold main. rewrite Hoptions.
  destruct (getViews sfmData) as [|view views] eqn:Hlist; [contradiction|].
  rewrite Hpass. reflexivity.
Qed.

(** C5. After the loop, for every detected rig the check passes exactly
    when the observed sub-pose indices are 0 .. nbSubPose-1 and every
    sub-pose has the count of the first one.  When every detected rig
    passes, the run does not fail on the rig structure, and the rigs it
    goes on with are those of the input, kept as they are, and a Rig with
    nbSubPose sub-poses for every detected rig whose identity the input
    does not hold.  When one rig does not pass, [main] returns
    [EXIT_FAILURE]. *)
Theorem rig_validation (ext : Externals) (cfg : Config) (defaults : float * float * float)
    (sensorDatabase : list Datasheet) (sfmData : SfMData) (now : Z) (saveOk : bool)
    (views' : list View) (s : PassState) :
  (forall id, Stoi.INT_MIN <= IndexT_to_int ext id <= Stoi.INT_MAX) ->
  checkIntrinsicOptions ext cfg = Some defaults ->
  getViews sfmData <> [] ->
  processViews ext cfg defaults sensorDatabase (getViews sfmData)
    (initialState (getIntrinsics sfmData) (std_srand ext now)) = Ok (views', s) ->
  let detected := detectedRigs s in
  let valid (subPoses : gmap Z nat) :=
    subPosesAreSequential subPoses /\ sameNbPoses subPoses in
  let run := main ext cfg (Some sensorDatabase) (Some sfmData) now saveOk in
  (forall rigId subPoses, detected !! rigId = Some subPoses ->
     (checkRig subPoses = None <-> valid subPoses))
  /\ ((forall rigId subPoses, detected !! rigId = Some subPoses -> valid subPoses) ->
      exists rigs,
        createRigs detected (getRigs sfmData) = inr rigs
        /\ (forall rigId,
              rigs !! rigId
              = match getRigs sfmData !! rigId with
                | Some rig => Some rig
                | None =>
                    (fun subPoses => {| getNbSubPoses := size subPoses |})
                      <$> detected !! rigId
                end)
        /\ (forall e, run <> EXIT_FAILURE (InvalidRigStructure e))
        /\ (forall saved, run = EXIT_SUCCESS saved -> getRigs saved = rigs))
  /\ ((exists rigId subPoses, detected !! rigId = Some subPoses /\ ~ valid subPoses) ->
      exists e,
        createRigs detected (getRigs sfmData) = inl e
        /\ run = EXIT_FAILURE (InvalidRigStructure e)).
Proof.
  intros Hint Hoptions Hviews Hpass detected valid run.
  assert (Hkeys : map_Forall (fun _ subPoses => intKeys subPoses) detected).
  { apply (processViews_intKeys _ _ _ _ _ _ _ _ Hint Hpass). apply map_Forall_empty. }
  assert (Hrun := main_after_the_pass ext cfg defaults sensorDatabase sfmData now saveOk
                    views' s Hoptions Hviews Hpass).
  fold run detected in Hrun.
  split; [|split].
  - intros rigId subPoses Hrig. apply checkRig_None, (Hkeys _ _ Hrig).
  - intros Hvalid. exists (foldl addRig (getRigs sfmData) (in_key_order detected)).
    assert (Hcreate : createRigs detected (getRigs sfmData)
                      = inr (foldl addRig (getRigs sfmData) (in_key_order detected))).
    { apply createRigsFrom_valid, Forall_forall. intros [rigId subPoses] Hin.
      apply elem_of_in_key_order in Hin. cbn [snd].
      apply checkRig_None; [apply (Hkeys _ _ Hin) | apply (Hvalid _ _ Hin)]. }
    rewrite Hcreate in Hrun.
    split; [exact Hcreate|]. split; [|split].
    + intros rigId. rewrite lookup_foldl_addRig, list_to_map_in_key_order. reflexivity.
    + intros e. rewrite Hrun.
      destruct (passFailPolicy cfg s) as [why|] eqn:Hpolicy.
      * destruct (passFailPolicy_reason _ _ _ Hpolicy) as [-> | ->]; discriminate.
      * destruct saveOk; discriminate.
    + intros saved. rewrite Hrun.
      destruct (passFailPolicy cfg s); [discriminate|].
      destruct saveOk; [|discriminate]. intros [= <-]. reflexivity.
  - intros (rigId & subPoses & Hrig & Hbad).
    destruct (createRigsFrom_invalid (in_key_order detected) (getRigs sfmData)) as [e He].
    { apply Exists_exists. exists (rigId, subPoses). split.
      - apply elem_of_in_key_order, Hrig.
      - cbn [snd]. intros Hcheck.
        apply Hbad, checkRig_None; [apply (Hkeys _ _ Hrig) | exact Hcheck]. }
    exists e. fold (createRigs detected (getRigs sfmData)) in He.
    split; [exact He|]. rewrite Hrun, He. reflexivity.
Qed.

(** Two views of a rig, one per sub-pose: the rig passes and its record
    has two sub-poses. *)
Lemma rig_validation_witness :
  let rigId := Reference.to_uint32 (Reference.stringHash "/data/rig") in
  let sfmData :=
    {| getViews := [ Reference.photo "/data/rig/0/1.jpg" "" "" (-1)%float None;
                     Reference.photo "/data/rig/1/1.jpg" "" "" (-1)%float None ];
       getIntrinsics := ∅; getRigs := ∅ |} in
  (forall id, Stoi.INT_MIN <= IndexT_to_int Reference.platform id <= Stoi.INT_MAX)
  /\ exists views' s rigs,
       processViews Reference.platform Sample.cfg Reference.noDefaults Reference.sensorTable
         (getViews sfmData) (initialState ∅ (Reference.srand 0)) = Ok (views', s)
       /\ createRigs (detectedRigs s) ∅ = inr rigs
       /\ rigs !! rigId = Some {| getNbSubPoses := 2 |}.
Proof.
  intros rigId sfmData.
  assert (Hint : forall id,
             Stoi.INT_MIN <= IndexT_to_int Reference.platform id <= Stoi.INT_MAX).
  { intros id. cbn [IndexT_to_int Reference.platform].
    unfold Reference.to_int32, Stoi.INT_MIN, Stoi.INT_MAX.
    pose proof (Z.mod_pos_bound (id + 2 ^ 31) (2 ^ 32) eq_refl). lia. }
  split; [exact Hint|].
  assert (Hpass : exists views' s,
             processViews Reference.platform Sample.cfg Reference.noDefaults
               Reference.sensorTable (getViews sfmData) (initialState ∅ (Reference.srand 0))
             = Ok (views', s)
             /\ detectedRigs s = {[ rigId := {[ 0 := 1%nat; 1 := 1%nat ]} ]})
    by (eexists _, _; split; vm_compute; reflexivity).
  destruct Hpass as (views' & s & Hpass & Hdetected).
  destruct (rig_validation Reference.platform Sample.cfg Reference.noDefaults
              Reference.sensorTable sfmData 0 true views' s Hint eq_refl
              ltac:(discriminate) Hpass) as (Hcheck & Hvalid & _).
  destruct Hvalid as (rigs & Hcreate & Hrigs & _).
  { intros id subPoses Hrig. apply (Hcheck id subPoses Hrig).
    rewrite Hdetected in Hrig. apply lookup_singleton_Some in Hrig as [_ <-].
    vm_compute. reflexivity. }
  exists views', s, rigs. split; [exact Hpass|]. split; [exact Hcreate|].
  rewrite Hrigs, Hdetected, lookup_singleton_eq. reflexivity.
Defined.

(** C5 as stated fails: a scene loaded with a rig of five sub-poses under
    the identity of the detected rig keeps that record.  The detected rig
    has two sub-poses, each observed once, the validation succeeds and the
    run ends well, but no Rig with two sub-poses was made. *)
Lemma loaded_rig_is_not_replaced :
  let rigId := Reference.to_uint32 (Reference.stringHash "/data/rig") in
  let detected : gmap Z (gmap Z nat) := {[ rigId := {[ 0 := 1%nat; 1 := 1%nat ]} ]} in
  let sfmData :=
    {| getViews := [ Reference.photo "/data/rig/0/1.jpg" "" "" (-1)%float None;
                     Reference.photo "/data/rig/1/1.jpg" "" "" (-1)%float None ];
       getIntrinsics := ∅;
       getRigs := {[ rigId := {| getNbSubPoses := 5 |} ]} |} in
  detectedRigs
    <$> (snd <$> completed
           (processViews Reference.platform Sample.cfg Reference.noDefaults
              Reference.sensorTable (getViews sfmData)
              (initialState ∅ (Reference.srand 0)))) = Some detected
  /\ map_Forall (fun _ subPoses => checkRig subPoses = None) detected
  /\ exists saved,
       main Reference.platform Sample.cfg (Some Reference.sensorTable) (Some sfmData) 0 true
       = EXIT_SUCCESS saved
       /\ getRigs saved !! rigId = Some {| getNbSubPoses := 5 |}
       /\ ~ rigsMaterialized detected (getRigs saved).
Proof.
  intros rigId detected sfmData.
  split; [vm_compute; reflexivity|].
  split; [apply map_Forall_singleton; vm_compute; reflexivity|].
  eexists. split; [vm_compute; reflexivity|].
  assert (Hkept : ({[ rigId := {| getNbSubPoses := 5 |} ]} : gmap Z Rig) !! rigId
                  = Some {| getNbSubPoses := 5 |}) by apply lookup_singleton_eq.
  split; [vm_compute; reflexivity|].
  intros Hall. specialize (Hall rigId {[ 0 := 1%nat; 1 := 1%nat ]} (lookup_singleton_eq _ _)).
  vm_compute in Hall. discriminate Hall.
Qed.
